(** * db_migrations: the legacy-to-normalized migration scripts

    A shallow embedding of [scripts/migrate_data.py] (the record-at-a-time
    pipeline) and of the transformation helpers of
    [scripts/migrate_with_pandas.py] (the columnar variant), with the
    properties of the field normalizers, of the identity maps and of the
    batched transaction discipline.

    Conventions of the embedding.
    - A Python [str] is a [string]; the text handled is ASCII (code points
      below 128, [PyStr.ascii_text]), which is what the character classes
      and case mappings below describe. Outside ASCII Python follows the
      Unicode tables, which are not embedded: a statement that depends on
      what [str.upper], [str.lower], [str.capitalize], [str.title] or
      [str.strip] do to a character is stated for ASCII text.
    - A column [Numeric(10, 2)] holds what PostgreSQL makes of the value
      written to it ([numeric_10_2]).
    - A nullable column or an absent argument is an [option]; Python's
      [if not x] on an [Optional[str]] is [falsy].
    - A Python dict used as a map is a [gmap]. *)

From Stdlib Require Import ZArith NArith Ascii String List Bool Lia.
From stdpp Require Import base option list strings pretty gmap fin_maps.

Local Open Scope string_scope.
Local Open Scope Z_scope.

(** ** Characters and strings, as Python's [str] methods see them *)

Module PyStr.

Definition code (c : ascii) : N := N_of_ascii c.

Definition in_range (lo hi : N) (c : ascii) : bool :=
  ((lo <=? code c) && (code c <=? hi))%N.

(** [str.isdigit] / regex [\d] on ASCII, and regex [[0-9]]. *)
Definition is_digit (c : ascii) : bool := in_range 48 57 c.
(** regex [[A-Z]]. *)
Definition is_upper (c : ascii) : bool := in_range 65 90 c.
Definition is_lower (c : ascii) : bool := in_range 97 122 c.
(** A cased character of ASCII: a letter. *)
Definition is_alpha (c : ascii) : bool := is_upper c || is_lower c.
(** regex [\w] on ASCII: letters, digits and the underscore. *)
Definition is_word (c : ascii) : bool :=
  is_alpha c || is_digit c || (code c =? 95)%N.
(** [str.isspace] on ASCII: TAB, LF, VT, FF, CR, FS, GS, RS, US and the
    space. *)
Definition is_space (c : ascii) : bool := in_range 9 13 c || in_range 28 32 c.

(** [str.lower] and [str.upper] on one character of ASCII. *)
Definition to_lower (c : ascii) : ascii :=
  if is_upper c then ascii_of_N (code c + 32) else c.
Definition to_upper (c : ascii) : ascii :=
  if is_lower c then ascii_of_N (code c - 32) else c.

Definition eqb_char (a b : ascii) : bool := (code a =? code b)%N.

(** A character of ASCII: a code below 128. *)
Definition is_ascii (c : ascii) : bool := (code c <? 128)%N.

Definition is_empty (s : string) : bool :=
  match s with EmptyString => true | String _ _ => false end.

Fixpoint map_chars (f : ascii -> ascii) (s : string) : string :=
  match s with
  | EmptyString => EmptyString
  | String c s' => String (f c) (map_chars f s')
  end.

Fixpoint filter_chars (keep : ascii -> bool) (s : string) : string :=
  match s with
  | EmptyString => EmptyString
  | String c s' =>
      if keep c then String c (filter_chars keep s') else filter_chars keep s'
  end.

Fixpoint all_chars (p : ascii -> bool) (s : string) : bool :=
  match s with
  | EmptyString => true
  | String c s' => p c && all_chars p s'
  end.

(** [s.isascii()]: the text on which the definitions of this module are
    Python's. *)
Definition ascii_text (s : string) : bool := all_chars is_ascii s.

(** [s.lower()] *)
Definition lower (s : string) : string := map_chars to_lower s.
(** [s.upper()] *)
Definition upper (s : string) : string := map_chars to_upper s.

(** [s.capitalize()]: first character upper-cased, the rest lower-cased. *)
Definition capitalize (s : string) : string :=
  match s with
  | EmptyString => EmptyString
  | String c s' => String (to_upper c) (lower s')
  end.

(** [s.title()]: a cased character is upper-cased when the character before
    it is not cased (or there is none) and lower-cased otherwise. *)
Fixpoint title_from (previous_is_cased : bool) (s : string) : string :=
  match s with
  | EmptyString => EmptyString
  | String c s' =>
      if is_alpha c
      then String (if previous_is_cased then to_lower c else to_upper c)
                  (title_from true s')
      else String c (title_from false s')
  end.
Definition title (s : string) : string := title_from false s.

(** [s.lstrip()], [s.rstrip()], [s.strip()] with no argument. *)
Fixpoint lstrip (s : string) : string :=
  match s with
  | EmptyString => EmptyString
  | String c s' => if is_space c then lstrip s' else s
  end.

Fixpoint rstrip (s : string) : string :=
  match s with
  | EmptyString => EmptyString
  | String c s' =>
      let r := rstrip s' in
      if is_empty r && is_space c then EmptyString else String c r
  end.

Definition strip (s : string) : string := rstrip (lstrip s).

(** [s.split(sep)] for a one-character separator: the piece before the first
    separator, and the pieces after it. The result of [split] is never empty. *)
Fixpoint split_parts (sep : ascii) (s : string) : string * list string :=
  match s with
  | EmptyString => (EmptyString, [])
  | String c s' =>
      let '(h, t) := split_parts sep s' in
      if eqb_char c sep then (EmptyString, h :: t) else (String c h, t)
  end.

Definition split (sep : ascii) (s : string) : list string :=
  let '(h, t) := split_parts sep s in h :: t.

(** [s[:n]] *)
Fixpoint slice_to (n : nat) (s : string) : string :=
  match n, s with
  | O, _ => EmptyString
  | _, EmptyString => EmptyString
  | S n', String c s' => String c (slice_to n' s')
  end.

(** [s.startswith(p)] *)
Fixpoint starts_with (p s : string) : bool :=
  match p, s with
  | EmptyString, _ => true
  | String _ _, EmptyString => false
  | String a p', String b s' => eqb_char a b && starts_with p' s'
  end.

(** [s.replace(old, new)]: occurrences are replaced from the left and do not
    overlap. [skip] counts the characters of an occurrence still to be
    dropped. [old] is never empty where the scripts call it. *)
Fixpoint replace_from (skip : nat) (old new s : string) : string :=
  match s with
  | EmptyString => EmptyString
  | String c s' =>
      match skip with
      | S k => replace_from k old new s'
      | O =>
          if starts_with old s
          then new +:+ replace_from (String.length old - 1) old new s'
          else String c (replace_from O old new s')
      end
  end.

Definition replace (old new s : string) : string :=
  if is_empty old then s else replace_from O old new s.

(** [head, tail = s.split(sep, 1)]: the text before the first separator and
    the text after it. [None] stands for the [ValueError] of the unpacking
    when [s] has no separator. *)
Fixpoint split_once (sep : ascii) (s : string) : option (string * string) :=
  match s with
  | EmptyString => None
  | String c s' =>
      if eqb_char c sep then Some (EmptyString, s')
      else match split_once sep s' with
           | Some (h, t) => Some (String c h, t)
           | None => None
           end
  end.

(** [head, tail = s.rsplit(sep, 1)] when [sep in s]: the text before the
    last separator and the text after it; [None] when [s] has none. *)
Fixpoint rsplit_once (sep : ascii) (s : string) : option (string * string) :=
  match s with
  | EmptyString => None
  | String c s' =>
      match rsplit_once sep s' with
      | Some (h, t) => Some (String c h, t)
      | None => if eqb_char c sep then Some (EmptyString, s') else None
      end
  end.

(** [s.split()] with no argument: the word being read at the start of [s]
    (empty when [s] starts with white space) and the words after it. *)
Fixpoint split_words (s : string) : string * list string :=
  match s with
  | EmptyString => (EmptyString, [])
  | String c s' =>
      let '(w, ws) := split_words s' in
      if is_space c
      then (EmptyString, if is_empty w then ws else w :: ws)
      else (String c w, ws)
  end.

Definition words (s : string) : list string :=
  let '(w, ws) := split_words s in if is_empty w then ws else w :: ws.

(** [sep.join(l)] *)
Fixpoint join (sep : string) (l : list string) : string :=
  match l with
  | [] => EmptyString
  | [x] => x
  | x :: rest => x +:+ sep +:+ join sep rest
  end.

(** [any(p(char) for char in s)] *)
Fixpoint any_chars (p : ascii -> bool) (s : string) : bool :=
  match s with
  | EmptyString => false
  | String c s' => p c || any_chars p s'
  end.

End PyStr.

(** ** The two regular expressions of [parse_address] *)

Module PyRe.
Import PyStr.

(** The next [n] characters when they all belong to the class [p], and what
    follows them. *)
Fixpoint take_class (p : ascii -> bool) (n : nat) (s : string)
  : option (string * string) :=
  match n with
  | O => Some (EmptyString, s)
  | S n' =>
      match s with
      | EmptyString => None
      | String c s' =>
          if p c
          then match take_class p n' s' with
               | Some (d, r) => Some (String c d, r)
               | None => None
               end
          else None
      end
  end.

(** [\b] after a word character: the text ends or a non-word character
    follows. *)
Definition word_ends (rest : string) : bool :=
  match rest with
  | EmptyString => true
  | String c _ => negb (is_word c)
  end.

(** [\d{5}(?:-\d{4})?\b] anchored at the start of [s]; the optional group is
    tried first and given up when the boundary after it fails. *)
Definition match_zip_here (s : string) : option string :=
  match take_class is_digit 5 s with
  | None => None
  | Some (d5, r) =>
      let plain := if word_ends r then Some d5 else None in
      match r with
      | String c r' =>
          if eqb_char c "-"
          then match take_class is_digit 4 r' with
               | Some (d4, r'') =>
                   if word_ends r'' then Some (d5 +:+ String c d4) else plain
               | None => plain
               end
          else plain
      | EmptyString => plain
      end
  end.

(** [[A-Z]{2}\b] anchored at the start of [s]. *)
Definition match_state_here (s : string) : option string :=
  match take_class is_upper 2 s with
  | Some (st, r) => if word_ends r then Some st else None
  | None => None
  end.

(** [re.search] of [\b] followed by an anchored pattern whose first character
    is a word character: the leftmost position not preceded by a word
    character where the pattern matches. *)
Fixpoint search_from (here : string -> option string) (previous_is_word : bool)
    (s : string) : option string :=
  match (if previous_is_word then None else here s) with
  | Some m => Some m
  | None =>
      match s with
      | EmptyString => None
      | String c s' => search_from here (is_word c) s'
      end
  end.

(** The same search, with the text before the match: [s[:m.start()]] and
    the match. *)
Fixpoint search_span (here : string -> option string) (previous_is_word : bool)
    (s : string) : option (string * string) :=
  match (if previous_is_word then None else here s) with
  | Some m => Some (EmptyString, m)
  | None =>
      match s with
      | EmptyString => None
      | String c s' =>
          match search_span here (is_word c) s' with
          | Some (before, m) => Some (String c before, m)
          | None => None
          end
      end
  end.

(** [re.search(r'\b\d{5}(?:-\d{4})?\b', s)], group 0. *)
Definition search_zip (s : string) : option string :=
  search_from match_zip_here false s.
(** [re.search(r'\b([A-Z]{2})\b', s)], group 1. *)
Definition search_state (s : string) : option string :=
  search_from match_state_here false s.

End PyRe.

(** ** Values of the target schema *)

(** [models_new/order_models.py], [OrderStatusEnum]. *)
Inductive OrderStatusEnum : Set :=
  | PENDING | PROCESSING | SHIPPED | DELIVERED | CANCELLED | REFUNDED.

Global Instance OrderStatusEnum_eq_dec : EqDecision OrderStatusEnum.
Proof. solve_decision. Defined.

(** A [decimal.Decimal]: [coefficient * 10 ^ exponent]. *)
Record Decimal : Set := mkDecimal { coefficient : Z; exponent : Z }.

Global Instance Decimal_eq_dec : EqDecision Decimal.
Proof. solve_decision. Defined.

(** What a value becomes in a column [Numeric(10, 2)] of [models_new]
    ([products.price], [order_items.unit_price_at_purchase]): PostgreSQL
    rounds it to two decimals, ties away from zero, and refuses it ([None])
    when the rounded value has more than eight digits before the point. The
    result is counted in hundredths. *)
Definition numeric_10_2 (d : Decimal) : option Decimal :=
  let c := coefficient d in
  let e := exponent d in
  let hundredths :=
    if -2 <=? e then c * 10 ^ (e + 2)
    else
      let unit := 10 ^ (-2 - e) in
      let q := Z.abs c / unit in
      let r := Z.abs c mod unit in
      Z.sgn c * (if unit <=? 2 * r then q + 1 else q) in
  if Z.abs hundredths <? 10 ^ 10
  then Some (mkDecimal hundredths (-2)) else None.

(** What a Python call does: it returns a value or raises. [DataError] is
    what the session raises for a value its column cannot hold; it is not an
    [IntegrityError], so only an [except Exception] clause catches it. *)
Inductive PyException : Set :=
  | AttributeError | IntegrityError | DataError.

Inductive PyResult (A : Type) : Type :=
  | Returns (a : A)
  | Raises (e : PyException).
Arguments Returns {A} a.
Arguments Raises {A} e.

(** [not x] for an [Optional[str]]: [None] and the empty string are falsy. *)
Definition falsy (x : option string) : bool :=
  match x with
  | None => true
  | Some s => PyStr.is_empty s
  end.

(** ** Field normalizers of [scripts/migrate_data.py] *)

(** A [datetime.datetime], as a count of seconds. *)
Definition datetime : Set := Z.

Module Normalizers.
Import PyStr PyRe.

Section DateParser.
(** [datetime.strptime(s, fmt)] of the Python library; [None] stands for the
    [ValueError] or [TypeError] it raises when [s] does not follow [fmt]. *)
Variable strptime : string -> string -> option datetime.

(** The [for fmt in formats] loop of [parse_datetime_flexible]. *)
Fixpoint try_formats (date_str : string) (formats : list string)
  : option datetime :=
  match formats with
  | [] => None
  | fmt :: rest =>
      match strptime (strip date_str) fmt with
      | Some d => Some d
      | None => try_formats date_str rest
      end
  end.

(** [parse_datetime_flexible(date_str, formats)] *)
Definition parse_datetime_flexible (date_str : option string)
    (formats : list string) : option datetime :=
  match date_str with
  | None => None
  | Some s => if is_empty s then None else try_formats s formats
  end.
End DateParser.

(** [normalize_category_name(name)] *)
Definition normalize_category_name (name : option string) : string :=
  match name with
  | None => "Unknown"
  | Some s => if is_empty s then "Unknown" else capitalize (strip s)
  end.

(** The characters [re.sub(r"[^0-9.-]", "", price_str)] keeps. *)
Definition price_char (c : ascii) : bool :=
  is_digit c || eqb_char c "." || eqb_char c "-".

(** The value of a run of decimal digits; [None] when another character
    occurs in it. *)
Fixpoint digits_value (acc : Z) (s : string) : option Z :=
  match s with
  | EmptyString => Some acc
  | String c s' =>
      if is_digit c
      then digits_value (10 * acc + Z.of_N (code c - 48)) s'
      else None
  end.

(** [Decimal(s)] on text made of digits and points, the only text that
    reaches it from [extract_price_decimal]: digits with at most one point
    and at least one digit; [None] stands for [InvalidOperation]. *)
Definition Decimal_of_str (s : string) : option Decimal :=
  let '(int_part, rest) := split_parts "." s in
  match rest with
  | [] =>
      if is_empty int_part then None
      else c ← digits_value 0 int_part; Some (mkDecimal c 0)
  | [frac_part] =>
      if is_empty (int_part +:+ frac_part) then None
      else c ← digits_value 0 (int_part +:+ frac_part);
           Some (mkDecimal c (- Z.of_nat (String.length frac_part)))
  | _ => None
  end.

(** [extract_price_decimal(price_str)]; [None] is the sentinel. *)
Definition extract_price_decimal (price_str : option string) : option Decimal :=
  match price_str with
  | None => None
  | Some s =>
      if is_empty s then None
      else
        let cleaned_price_str := filter_chars price_char s in
        if is_empty cleaned_price_str then None
        else
          let numeric_part := (split_parts "-" cleaned_price_str).1 in
          Decimal_of_str numeric_part
  end.

(** [map_order_status(old_status)] *)
Definition map_order_status (old_status : option string) : OrderStatusEnum :=
  match old_status with
  | None => PENDING
  | Some old =>
      if is_empty old then PENDING
      else
        let s := strip (lower old) in
        if bool_decide (s ∈ ["pending"; "processing"]) then PENDING
        else if bool_decide (s ∈ ["shipped"; "enviado"]) then SHIPPED
        else if bool_decide (s ∈ ["delivered"; "entregado"]) then DELIVERED
        else if bool_decide (s ∈ ["cancelled"; "cancelado"]) then CANCELLED
        else PENDING
  end.

End Normalizers.

(** ** The address parser *)

Module AddressParser.
Import PyStr PyRe.

(** The dictionary [parse_address] returns: its five keys. [state] is the
    only one the code can set to [None]. *)
Record ParsedAddress : Set := mkParsed {
  street : string;
  city : string;
  state : option string;
  zip_code : string;
  country : string
}.

Definition NA : string := "N/A".

(** [parts[-k]] for [1 <= k <= len(parts)]. *)
Definition from_end (k : nat) (parts : list string) : string :=
  nth (length parts - k) parts EmptyString.

(** [not v or len(v) > 250] of the final clean-up loop. *)
Definition unusable (v : string) : bool :=
  is_empty v || (250 <? String.length v)%nat.

(** The body of [parse_address] from its first statement on, for an argument
    that is a [str]. *)
Definition parse_address_str (address_combined : string) : ParsedAddress :=
  let parts := map strip (split "," address_combined) in
  if is_empty address_combined
  then mkParsed NA NA (Some NA) NA NA
  else
    let street0 := nth 0 parts NA in
    let several := (1 <? length parts)%nat in
    (* the block under [if len(parts) > 1], which is where [zip_match] is
       bound *)
    let '(zip_match, city0, state0, zip0) :=
      if several then
        let city_state_zip_candidate :=
          from_end (if (2 <? length parts)%nat then 2 else 1) parts in
        match search_zip city_state_zip_candidate with
        | Some zip =>
            let city_state_candidate :=
              strip (replace zip "" city_state_zip_candidate) in
            match search_state city_state_candidate with
            | Some st =>
                (Some zip,
                 strip (replace "," "" (replace st "" city_state_candidate)),
                 Some st, zip)
            | None =>
                (Some zip, strip (replace "," "" city_state_candidate),
                 Some NA, zip)
            end
        | None =>
            (None, strip (replace "," "" city_state_zip_candidate),
             Some NA, NA)
        end
      else (None, NA, Some NA, NA) in
    let country0 :=
      if several && negb (bool_decide (is_Some zip_match))
      then from_end 1 parts else "USA" in
    (* final clean-up *)
    let street1 := if unusable street0 then NA else street0 in
    let city1 := if unusable city0 then NA else city0 in
    let state1 :=
      match state0 with
      | Some v => if unusable v then None else Some v
      | None => None
      end in
    let zip1 := if unusable zip0 then NA else zip0 in
    let country1 := if unusable country0 then NA else country0 in
    let city2 :=
      if bool_decide (city1 = NA) && several then nth 1 parts NA else city1 in
    (* length limits *)
    mkParsed (slice_to 254 street1) (slice_to 99 city2)
             (match state1 with
              | Some v => if is_empty v then None else Some (slice_to 99 v)
              | None => None
              end)
             (slice_to 19 zip1) (slice_to 99 country1).

(** [parse_address(address_combined)]. Its first statement is
    [address_combined.split(',')], which runs before the [if not
    address_combined] test: on [None] the attribute lookup raises. *)
Definition parse_address (address_combined : option string)
  : PyResult ParsedAddress :=
  match address_combined with
  | None => Raises AttributeError
  | Some s => Returns (parse_address_str s)
  end.

End AddressParser.

(** ** The transformations of [scripts/migrate_with_pandas.py]

    A [pd.Series] of an object column is a list of optional strings ([None]
    for NaN); the [.str] accessor and [Series.map] work element by element
    and leave NaN in place, and [fillna] replaces what is still NaN. *)

Module Pandas.
Import PyStr.

(** One element of [series.str.strip().str.title().fillna("Unknown Category")]. *)
Definition normalize_category_name_elem (name : option string) : string :=
  default "Unknown Category" (title <$> (strip <$> name)).

(** [normalize_category_name_pd(series)] *)
Definition normalize_category_name_pd (series : list (option string))
  : list string :=
  normalize_category_name_elem <$> series.

(** The dict [status_mapping_pd] of [migrate_orders_and_items_pd]. *)
Definition status_mapping_pd : gmap string OrderStatusEnum :=
  list_to_map
    [ ("pending", PENDING); ("Pending", PENDING);
      ("PROCESSING", PROCESSING);
      ("shipped", SHIPPED); ("Shipped", SHIPPED);
      ("delivered", DELIVERED); ("DELIVERED", DELIVERED);
      ("cancelled", CANCELLED); ("Returned?", REFUNDED) ].

(** One element of
    [df['status_text'].map(status_mapping_pd).fillna(OrderStatusEnum.PENDING)]. *)
Definition status_enum_elem (status_text : option string) : OrderStatusEnum :=
  default PENDING (status_text ≫= (status_mapping_pd !!.)).

Definition status_enum_pd (series : list (option string))
  : list OrderStatusEnum :=
  status_enum_elem <$> series.

(** One element of the [sku] column of [migrate_products_pd]:
    ["SKU-PD-" + id.astype(str) + "-"
      + product_name.str.slice(0, 15).str.replace(' ', '-').str.upper()]. *)
Definition sku_pd (old_product_id : Z) (product_name : string) : string :=
  "SKU-PD-" +:+ pretty old_product_id +:+ "-"
  +:+ upper (replace " " "-" (slice_to 15 product_name)).

Section DateParserPd.
(** One element of [pd.to_datetime(series, format=fmt, errors='coerce')] for
    a text and a format; [None] is the [NaT] it gives for a text that does
    not follow the format. *)
Variable to_datetime : string -> string -> option datetime.

(** [pd.to_datetime(series, format=fmt, errors='coerce')]: NaN stays
    [NaT]. *)
Definition to_datetime_coerce (series : list (option string)) (fmt : string)
  : list (option datetime) :=
  (λ x, x ≫= (λ s, to_datetime s fmt)) <$> series.

(** [parsed_series.fillna(try_parse)] for two Series on the same index. *)
Definition fillna (parsed_series try_parse : list (option datetime))
  : list (option datetime) :=
  zip_with (λ a b, match a with Some _ => a | None => b end)
    parsed_series try_parse.

(** [parse_date_string_pd(series, formats)] *)
Definition parse_date_string_pd (series : list (option string))
    (formats : list string) : list (option datetime) :=
  fold_left (λ parsed_series fmt,
               fillna parsed_series (to_datetime_coerce series fmt))
    formats (replicate (length series) None).

End DateParserPd.

(** The dictionary [parts] of [parse_combined_address_pd]: its five keys,
    each [None] until the code assigns it. *)
Record PartsPd : Set := mkPartsPd {
  street_pd : option string;
  city_pd : option string;
  state_pd : option string;
  zip_code_pd : option string;
  country_pd : option string
}.

(** [v or d] for an optional text. *)
Definition or_text (v : option string) (d : string) : string :=
  match v with
  | Some s => if is_empty s then d else s
  | None => d
  end.

(** The [except Exception] block, for the [parts] assigned when the
    exception was raised. *)
Definition address_fallback_pd (address_combined : string) (parts : PartsPd)
  : PartsPd :=
  mkPartsPd (Some (slice_to 255 address_combined))
    (Some (or_text (city_pd parts) "N/A"))
    (state_pd parts)
    (Some (or_text (zip_code_pd parts) "00000"))
    (Some (or_text (country_pd parts) "Unknown")).

(** [re.search(r'\b(\d{5}(-\d{4})?)\b', s)]: [s[:zip_match.start()]] and
    group 1. *)
Definition search_zip_pd (s : string) : option (string * string) :=
  PyRe.search_span PyRe.match_zip_here false s.

(** The body of [parse_combined_address_pd] for a text. The two unpackings
    of [split(',', 1)] are the statements of the [try] block that can
    raise. *)
Definition parse_combined_address_str (address_combined : string) : PartsPd :=
  match split_once "," address_combined with
  | None =>
      address_fallback_pd address_combined
        (mkPartsPd None None None None None)
  | Some (street_part, rest_of_address) =>
      let street := strip street_part in
      match split_once "," rest_of_address with
      | None =>
          address_fallback_pd address_combined
            (mkPartsPd (Some street) None None None None)
      | Some (city_part, state_zip_country_part) =>
          let city := strip city_part in
          let '(state_zip_part, country) :=
            match rsplit_once "," state_zip_country_part with
            | Some (state_zip_part, country_part) =>
                (state_zip_part, Some (strip country_part))
            | None =>
                let state_zip_part := strip state_zip_country_part in
                let pieces := words state_zip_part in
                if (3 <? length pieces)%nat
                   && negb (any_chars is_digit (List.last pieces EmptyString))
                then (join " " (removelast pieces),
                      Some (List.last pieces EmptyString))
                else (state_zip_part, None)
            end in
          match search_zip_pd state_zip_part with
          | Some (before, zip) =>
              mkPartsPd (Some street) (Some city) (Some (strip before))
                (Some zip) country
          | None =>
              let state := strip state_zip_part in
              mkPartsPd (Some street) (Some city)
                (Some (if (50 <? String.length state)%nat
                       then slice_to 50 state else state))
                None country
          end
      end
  end.

(** [parse_combined_address_pd(address_combined)]; [None] is a missing
    value, for which [pd.isna] holds. *)
Definition parse_combined_address_pd (address_combined : option string)
  : PartsPd :=
  match address_combined with
  | None => mkPartsPd None None None None None
  | Some s => parse_combined_address_str s
  end.

End Pandas.

(** ** The legacy store ([models_old/old_models.py]) *)

Module Legacy.

Record OldUser : Set := mkOldUser {
  ou_id : Z;
  ou_username : string;
  ou_email : option string;
  ou_full_name : option string;
  ou_registration_date_str : option string;
  ou_address_combined : option string;
  ou_phone_number_str : option string
}.

Record OldProduct : Set := mkOldProduct {
  op_id : Z;
  op_product_name : string;
  op_description : option string;
  op_price_str : option string;
  op_category_name_redundant : option string;
  op_created_at_str : option string
}.

Record OldOrder : Set := mkOldOrder {
  oo_id : Z;
  oo_user_identifier_text : option string;
  oo_order_date_str : option string;
  oo_status_text : option string;
  oo_product_name_redundant : option string;
  oo_quantity : option Z;
  oo_unit_price_str_redundant : option string;
  oo_total_order_amount_str : option string
}.

(** What the source reader yields, table by table, in the order read. *)
Record OldDb : Set := mkOldDb {
  old_users : list OldUser;
  old_products : list OldProduct;
  old_orders : list OldOrder
}.

End Legacy.

(** ** The target store behind a SQLAlchemy session

    Rows carry the key the store gave them; an object not yet inserted has
    key [0]. The tables are listed in insertion order. *)

Module Target.

Record User : Set := mkUser {
  u_id : Z;
  u_username : string;
  u_email : option string;
  u_full_name : option string;
  u_hashed_password : string;
  u_is_active : bool;
  u_is_superuser : bool;
  u_registration_date : datetime;
  u_phone_number : option string
}.

Record Address : Set := mkAddress {
  a_id : Z;
  a_user_id : Z;
  a_street : string;
  a_city : string;
  a_state : option string;
  a_zip_code : string;
  a_country : string;
  a_is_default_shipping : bool;
  a_is_default_billing : bool
}.

Record ProductCategory : Set := mkCategory {
  c_id : Z;
  c_name : string;
  c_description : option string
}.

Record Product : Set := mkProduct {
  p_id : Z;
  p_name : string;
  p_description : option string;
  p_price : Decimal;
  p_sku : string;
  p_stock_quantity : Z;
  p_category_id : Z;
  (** [None]: left to the server default. *)
  p_created_at : option datetime;
  p_updated_at : option datetime
}.

Record Order : Set := mkOrder {
  o_id : Z;
  o_user_id : Z;
  o_order_date : datetime;
  o_status : OrderStatusEnum;
  o_shipping_address_id : Z;
  o_billing_address_id : option Z
}.

Record OrderItem : Set := mkOrderItem {
  i_id : Z;
  i_order_id : Z;
  i_product_id : Z;
  i_quantity : Z;
  i_unit_price_at_purchase : Decimal
}.

(** An object handed to [Session.add]. *)
Inductive Object : Set :=
  | OUser (u : User)
  | OAddress (a : Address)
  | OCategory (c : ProductCategory)
  | OProduct (p : Product)
  | OOrder (o : Order)
  | OOrderItem (i : OrderItem).

Global Instance User_eq_dec : EqDecision User.
Proof. solve_decision. Defined.
Global Instance Address_eq_dec : EqDecision Address.
Proof. solve_decision. Defined.
Global Instance ProductCategory_eq_dec : EqDecision ProductCategory.
Proof. solve_decision. Defined.
Global Instance Product_eq_dec : EqDecision Product.
Proof. solve_decision. Defined.
Global Instance Order_eq_dec : EqDecision Order.
Proof. solve_decision. Defined.
Global Instance OrderItem_eq_dec : EqDecision OrderItem.
Proof. solve_decision. Defined.
Global Instance Object_eq_dec : EqDecision Object.
Proof. solve_decision. Defined.

(** The six tables. *)
Record Tables : Set := mkTables {
  users : list User;
  addresses : list Address;
  product_categories : list ProductCategory;
  products : list Product;
  orders : list Order;
  order_items : list OrderItem
}.

Definition no_rows : Tables := mkTables [] [] [] [] [] [].

(** The last key each table's sequence issued. A sequence is not part of the
    transaction: a rollback does not take its values back. *)
Record Sequences : Set := mkSequences {
  seq_users : Z;
  seq_addresses : Z;
  seq_categories : Z;
  seq_products : Z;
  seq_orders : Z;
  seq_order_items : Z
}.

(** The session ([autoflush=False]): the committed rows; the rows the open
    transaction sees (committed ones and those flushed since); the objects
    added and not yet flushed. *)
Record Session : Set := mkSession {
  committed : Tables;
  txn : Tables;
  pending : list Object;
  sequences : Sequences
}.

Definition fresh_session : Session :=
  mkSession no_rows no_rows [] (mkSequences 0 0 0 0 0 0).

End Target.

(** ** Session operations *)

Module Db.
Import Target.

Definition user_with_id (t : Tables) (k : Z) : option User :=
  head (filter (λ u, u_id u = k) (users t)).
Definition has_user (t : Tables) (k : Z) : bool :=
  bool_decide (k ∈ u_id <$> users t).
Definition has_address (t : Tables) (k : Z) : bool :=
  bool_decide (k ∈ a_id <$> addresses t).
Definition has_category (t : Tables) (k : Z) : bool :=
  bool_decide (k ∈ c_id <$> product_categories t).
Definition has_product (t : Tables) (k : Z) : bool :=
  bool_decide (k ∈ p_id <$> products t).
Definition has_order (t : Tables) (k : Z) : bool :=
  bool_decide (k ∈ o_id <$> orders t).

(** The INSERT of one object in the open transaction. The key comes from the
    table's sequence, which advances whether or not the row is accepted. The
    row is refused with [DataError] when a price does not fit its column
    [Numeric(10, 2)], and with [IntegrityError] when it breaks a NOT NULL,
    UNIQUE or FOREIGN KEY constraint of [models_new]; the row of an accepted
    Product or OrderItem holds the price as the column rounds it. *)
Definition insert (o : Object) (t : Tables) (q : Sequences)
  : Sequences * PyResult Tables :=
  match o with
  | OUser u =>
      let k := seq_users q + 1 in
      let q' := mkSequences k (seq_addresses q) (seq_categories q)
                  (seq_products q) (seq_orders q) (seq_order_items q) in
      let ok :=
        bool_decide (is_Some (u_email u))
        && negb (bool_decide (u_username u ∈ u_username <$> users t))
        && negb (bool_decide (u_email u ∈ u_email <$> users t)) in
      (q', if ok
           then Returns (mkTables
                  (users t ++ [mkUser k (u_username u) (u_email u)
                     (u_full_name u) (u_hashed_password u) (u_is_active u)
                     (u_is_superuser u) (u_registration_date u)
                     (u_phone_number u)])
                  (addresses t) (product_categories t) (products t)
                  (orders t) (order_items t))
           else Raises IntegrityError)
  | OAddress a =>
      let k := seq_addresses q + 1 in
      let q' := mkSequences (seq_users q) k (seq_categories q)
                  (seq_products q) (seq_orders q) (seq_order_items q) in
      (q', if has_user t (a_user_id a)
           then Returns (mkTables (users t)
                  (addresses t ++ [mkAddress k (a_user_id a) (a_street a)
                     (a_city a) (a_state a) (a_zip_code a) (a_country a)
                     (a_is_default_shipping a) (a_is_default_billing a)])
                  (product_categories t) (products t) (orders t)
                  (order_items t))
           else Raises IntegrityError)
  | OCategory c =>
      let k := seq_categories q + 1 in
      let q' := mkSequences (seq_users q) (seq_addresses q) k
                  (seq_products q) (seq_orders q) (seq_order_items q) in
      (q', if negb (bool_decide (c_name c ∈ c_name <$> product_categories t))
           then Returns (mkTables (users t) (addresses t)
                  (product_categories t
                     ++ [mkCategory k (c_name c) (c_description c)])
                  (products t) (orders t) (order_items t))
           else Raises IntegrityError)
  | OProduct p =>
      let k := seq_products q + 1 in
      let q' := mkSequences (seq_users q) (seq_addresses q) (seq_categories q)
                  k (seq_orders q) (seq_order_items q) in
      let ok :=
        negb (bool_decide (p_sku p ∈ p_sku <$> products t))
        && has_category t (p_category_id p) in
      (q', match numeric_10_2 (p_price p) with
           | None => Raises DataError
           | Some price =>
               if ok
               then Returns (mkTables (users t) (addresses t)
                      (product_categories t)
                      (products t ++ [mkProduct k (p_name p) (p_description p)
                         price (p_sku p) (p_stock_quantity p)
                         (p_category_id p) (p_created_at p) (p_updated_at p)])
                      (orders t) (order_items t))
               else Raises IntegrityError
           end)
  | OOrder o =>
      let k := seq_orders q + 1 in
      let q' := mkSequences (seq_users q) (seq_addresses q) (seq_categories q)
                  (seq_products q) k (seq_order_items q) in
      let ok :=
        has_user t (o_user_id o)
        && has_address t (o_shipping_address_id o)
        && match o_billing_address_id o with
           | Some b => has_address t b
           | None => true
           end in
      (q', if ok
           then Returns (mkTables (users t) (addresses t) (product_categories t)
                  (products t)
                  (orders t ++ [mkOrder k (o_user_id o) (o_order_date o)
                     (o_status o) (o_shipping_address_id o)
                     (o_billing_address_id o)])
                  (order_items t))
           else Raises IntegrityError)
  | OOrderItem i =>
      let k := seq_order_items q + 1 in
      let q' := mkSequences (seq_users q) (seq_addresses q) (seq_categories q)
                  (seq_products q) (seq_orders q) k in
      let ok := has_order t (i_order_id i) && has_product t (i_product_id i) in
      (q', match numeric_10_2 (i_unit_price_at_purchase i) with
           | None => Raises DataError
           | Some unit_price =>
               if ok
               then Returns (mkTables (users t) (addresses t)
                      (product_categories t) (products t) (orders t)
                      (order_items t ++ [mkOrderItem k (i_order_id i)
                         (i_product_id i) (i_quantity i) unit_price]))
               else Raises IntegrityError
           end)
  end.

(** The place of an object's table in the order a flush inserts them:
    a table comes after the tables its foreign keys point to. *)
Definition table_rank (o : Object) : nat :=
  match o with
  | OUser _ => 0
  | OAddress _ => 1
  | OCategory _ => 2
  | OProduct _ => 3
  | OOrder _ => 4
  | OOrderItem _ => 5
  end%nat.

Definition flush_order (objs : list Object) : list Object :=
  flat_map (λ r, filter (λ o, table_rank o = r) objs) (seq 0 6).

(** The INSERTs of a flush, one after the other; the first refusal stops it. *)
Fixpoint insert_all (objs : list Object) (t : Tables) (q : Sequences)
  : Sequences * PyResult Tables :=
  match objs with
  | [] => (q, Returns t)
  | o :: rest =>
      match insert o t q with
      | (q', Returns t') => insert_all rest t' q'
      | (q', Raises e) => (q', Raises e)
      end
  end.

(** [Session.add(obj)] *)
Definition add (o : Object) (s : Session) : Session :=
  mkSession (committed s) (txn s) (pending s ++ [o]) (sequences s).

(** [Session.flush()]: the pending objects become rows of the transaction,
    or the flush raises the exception of the INSERT that was refused and the
    transaction waits for a rollback. *)
Definition flush (s : Session) : Session * option PyException :=
  match insert_all (flush_order (pending s)) (txn s) (sequences s) with
  | (q, Returns t) => (mkSession (committed s) t [] q, None)
  | (q, Raises e) =>
      (mkSession (committed s) (txn s) (pending s) q, Some e)
  end.

(** [Session.rollback()]: everything flushed since the last commit is
    discarded and the pending objects are expunged. *)
Definition rollback (s : Session) : Session :=
  mkSession (committed s) (committed s) [] (sequences s).

(** [Session.commit()]: a flush, then the transaction becomes durable. *)
Definition commit (s : Session) : Session * option PyException :=
  match flush s with
  | (s', None) => (mkSession (txn s') (txn s') [] (sequences s'), None)
  | (s', Some e) => (s', Some e)
  end.

(** [Session.expunge(obj)]: the session forgets the object. A pending object
    is then never inserted; for an object already flushed no statement is
    sent, and its row stays in the transaction. *)
Definition expunge (o : Object) (s : Session) : Session :=
  mkSession (committed s) (txn s) (filter (λ p, p ≠ o) (pending s))
    (sequences s).

(** [Session.close()]: a transaction still open is rolled back. *)
Definition close (s : Session) : Session := rollback s.

(** [query(ProductCategory).filter(ProductCategory.name == n).first()] *)
Definition category_named (n : string) (s : Session) : option ProductCategory :=
  head (filter (λ c, c_name c = n) (product_categories (txn s))).

(** [query(User).filter(User.username == n).first()] *)
Definition user_named (n : string) (s : Session) : option User :=
  head (filter (λ u, u_username u = n) (users (txn s))).

(** [query(Product).filter(Product.sku == k).first()] *)
Definition product_with_sku (k : string) (s : Session) : option Product :=
  head (filter (λ p, p_sku p = k) (products (txn s))).

(** [query(User).all()] *)
Definition all_users (s : Session) : list User := users (txn s).

(** [query(User).options(joinedload(User.addresses))
      .filter(User.id == k).first()]: the user and its [addresses]. *)
Definition user_with_addresses (k : Z) (s : Session)
  : option (User * list Address) :=
  u ← user_with_id (txn s) k;
  Some (u, filter (λ a, a_user_id a = k) (addresses (txn s))).

(** The record counts of the six tables. *)
Definition counts (t : Tables) : list nat :=
  [ length (users t); length (addresses t); length (product_categories t);
    length (products t); length (orders t); length (order_items t) ].

End Db.

(** ** The pipeline of [scripts/migrate_data.py] *)

Module Migration.
Import PyStr Legacy Target Db Normalizers AddressParser.

Inductive Level : Set := INFO | WARNING | ERROR.

(** What a log record is about: a legacy key, a name, or nothing. *)
Inductive Ref : Set := RefId (k : Z) | RefName (n : string) | NoRef.

(** A record a stage function sends to [logger] at INFO level or above: at
    its start and end, about a legacy row, about a commit. (The records the
    normalizers send are not kept.) *)
Record LogRecord : Set := mkLog {
  levelname : Level;
  message : string;
  about : Ref
}.

(** The module-level dictionaries. Where the script stores the ORM object
    ([old_user_id_to_new_user_map], [old_product_id_to_new_product_map]) the
    model stores its key. *)
Record Maps : Type := mkMaps {
  old_user_id_to_new_user_map : gmap Z Z;
  old_category_name_to_new_category_id_map : gmap string Z;
  old_product_id_to_new_product_map : gmap Z Z;
  old_product_name_to_new_product_id_map : gmap string Z
}.

Definition no_maps : Maps := mkMaps ∅ ∅ ∅ ∅.

(** The state a stage works on: the session [new_db], the dictionaries, the
    log, the number of [random.randint] calls made so far, and the counters
    of the running stage. *)
Record State : Type := mkState {
  new_db : Session;
  maps : Maps;
  log : list LogRecord;
  draws : nat;
  processed_count : Z;
  success_count : Z;
  success_children_count : Z
}.

Definition with_db (s : Session) (st : State) : State :=
  mkState s (maps st) (log st) (draws st) (processed_count st)
    (success_count st) (success_children_count st).
Definition with_maps (m : Maps) (st : State) : State :=
  mkState (new_db st) m (log st) (draws st) (processed_count st)
    (success_count st) (success_children_count st).
Definition logger (l : Level) (msg : string) (r : Ref) (st : State) : State :=
  mkState (new_db st) (maps st) (log st ++ [mkLog l msg r]) (draws st)
    (processed_count st) (success_count st) (success_children_count st).
Definition with_draws (n : nat) (st : State) : State :=
  mkState (new_db st) (maps st) (log st) n (processed_count st)
    (success_count st) (success_children_count st).
Definition count_processed (st : State) : State :=
  mkState (new_db st) (maps st) (log st) (draws st) (processed_count st + 1)
    (success_count st) (success_children_count st).
Definition count_success (d : Z) (st : State) : State :=
  mkState (new_db st) (maps st) (log st) (draws st) (processed_count st)
    (success_count st + d) (success_children_count st).
Definition count_child (st : State) : State :=
  mkState (new_db st) (maps st) (log st) (draws st) (processed_count st)
    (success_count st) (success_children_count st + 1).
(** The counters a stage function starts with. *)
Definition reset_counters (st : State) : State :=
  mkState (new_db st) (maps st) (log st) (draws st) 0 0 0.

Definition set_category (name : string) (k : Z) (st : State) : State :=
  let m := maps st in
  with_maps (mkMaps (old_user_id_to_new_user_map m)
               (<[name := k]> (old_category_name_to_new_category_id_map m))
               (old_product_id_to_new_product_map m)
               (old_product_name_to_new_product_id_map m)) st.
Definition set_user (old_id k : Z) (st : State) : State :=
  let m := maps st in
  with_maps (mkMaps (<[old_id := k]> (old_user_id_to_new_user_map m))
               (old_category_name_to_new_category_id_map m)
               (old_product_id_to_new_product_map m)
               (old_product_name_to_new_product_id_map m)) st.
Definition set_product (old_id : Z) (name : string) (k : Z) (st : State)
  : State :=
  let m := maps st in
  with_maps (mkMaps (old_user_id_to_new_user_map m)
               (old_category_name_to_new_category_id_map m)
               (<[old_id := k]> (old_product_id_to_new_product_map m))
               (<[name := k]> (old_product_name_to_new_product_id_map m))) st.

Definition category_map (st : State) : gmap string Z :=
  old_category_name_to_new_category_id_map (maps st).
Definition product_name_map (st : State) : gmap string Z :=
  old_product_name_to_new_product_id_map (maps st).

(** [BATCH_SIZE] *)
Definition BATCH_SIZE : Z := 500.

(** [processed_count % BATCH_SIZE == 0] *)
Definition batch_full (batch_size : Z) (st : State) : bool :=
  processed_count st mod batch_size =? 0.

(** [try: new_db.commit() except Exception: new_db.rollback(); logger.error] *)
Definition commit_or_rollback (ok_msg : option string) (err_msg : string)
    (st : State) : State :=
  match commit (new_db st) with
  | (s, None) =>
      match ok_msg with
      | Some m => logger INFO m NoRef (with_db s st)
      | None => with_db s st
      end
  | (s, Some _) => logger ERROR err_msg NoRef (with_db (rollback s) st)
  end.

(** *** Stage 1: [migrate_product_categories] *)

(** The two assignments into [old_category_name_to_new_category_id_map]:
    under the normalized name, and under the raw one when it differs. *)
Definition map_category (old_cat_name normalized_name : string) (k : Z)
    (st : State) : State :=
  let st := set_category normalized_name k st in
  if bool_decide (old_cat_name ≠ normalized_name)
  then set_category old_cat_name k st else st.

(** The [try] block of the loop body and its [except IntegrityError]. *)
Definition create_category (old_cat_name normalized_name : string)
    (st : State) : State :=
  match category_named normalized_name (new_db st) with
  | Some existing_category =>
      let st := logger INFO "ya existe en la nueva BD"
                  (RefName normalized_name) st in
      count_success 1
        (map_category old_cat_name normalized_name (c_id existing_category) st)
  | None =>
      let new_category :=
        mkCategory 0 normalized_name
          (Some ("Categoría para " +:+ normalized_name)) in
      match flush (add (OCategory new_category) (new_db st)) with
      | (s, None) =>
          let new_category_id := seq_categories (sequences s) in
          let st := logger INFO "creada" (RefName normalized_name)
                      (with_db s st) in
          count_success 1
            (map_category old_cat_name normalized_name new_category_id st)
      | (s, Some _) =>
          let st := logger ERROR "Error de integridad al crear categoría"
                      (RefName normalized_name) (with_db (rollback s) st) in
          match category_named normalized_name (new_db st) with
          | Some existing_category =>
              logger INFO "recuperada después de error de integridad"
                (RefName normalized_name)
                (map_category old_cat_name normalized_name
                   (c_id existing_category) st)
          | None =>
              logger ERROR "No se pudo recuperar la categoría"
                (RefName normalized_name) st
          end
      end
  end.

(** One turn of [for cat_row in distinct_categories]. *)
Definition category_step (batch_size : Z) (st : State)
    (old_cat_name : option string) : State :=
  match old_cat_name with
  | None => logger WARNING "nombre de categoría vacío/nulo" NoRef st
  | Some raw =>
      if is_empty raw
      then logger WARNING "nombre de categoría vacío/nulo" NoRef st
      else
        let normalized_name := normalize_category_name old_cat_name in
        let st := count_processed st in
        if bool_decide (is_Some (category_map st !! normalized_name))
        then logger INFO "ya mapeada. Saltando." (RefName normalized_name) st
        else
          let st := create_category raw normalized_name st in
          if batch_full batch_size st
          then commit_or_rollback (Some "Commit de lote de categorías")
                 "Error en commit de lote de categorías" st
          else st
  end.

(** [old_db.query(OldProduct.category_name_redundant).distinct().all()]:
    each value once (SQL fixes no order for the rows). *)
Definition distinct_categories (old_db : OldDb) : list (option string) :=
  remove_dups (op_category_name_redundant <$> old_products old_db).

Definition migrate_categories_rows (batch_size : Z)
    (rows : list (option string)) (st : State) : State :=
  let st := logger INFO "Iniciando migración de categorías de productos"
              NoRef (reset_counters st) in
  let st := fold_left (category_step batch_size) rows st in
  logger INFO "Migración de categorías de productos finalizada" NoRef
    (commit_or_rollback None "Error en commit final de categorías" st).

Definition migrate_product_categories (batch_size : Z) (old_db : OldDb)
    (st : State) : State :=
  migrate_categories_rows batch_size (distinct_categories old_db) st.

Section Stages.
(** The Python library and the environment of a run: [datetime.strptime]
    ([None] for the error it raises on text that does not follow the
    format), the clock read by [datetime.now()], and the value the [n]-th
    call of [random.randint(lo, hi)] of the run returns. *)
Variable strptime : string -> string -> option datetime.
Variable now : datetime.
Variable randint : nat -> Z -> Z -> Z.

(** *** Stage 2: [migrate_users_and_addresses] *)

(** [any(v != "N/A" and v is not None
         for k, v in parsed_addr.items() if k != 'state')] *)
Definition any_component (p : ParsedAddress) : bool :=
  bool_decide (street p ≠ NA) || bool_decide (city p ≠ NA)
  || bool_decide (zip_code p ≠ NA) || bool_decide (country p ≠ NA).

(** The [try] block of the loop body: the state reached, and the exception
    that left the block, if one did. *)
Definition user_try (batch_size : Z) (old_user : OldUser)
    (registration_date : datetime) (st : State)
  : State * option PyException :=
  let new_user :=
    mkUser 0 (ou_username old_user) (ou_email old_user)
      (ou_full_name old_user)
      ("migrated_placeholder_for_" +:+ ou_username old_user)
      true false registration_date (ou_phone_number_str old_user) in
  match flush (add (OUser new_user) (new_db st)) with
  | (s, Some e) => (with_db s st, Some e)
  | (s, None) =>
      let new_user_id := seq_users (sequences s) in
      let st := count_success 1
                  (set_user (ou_id old_user) new_user_id (with_db s st)) in
      let after_address : State * option PyException :=
        if negb (falsy (ou_address_combined old_user)) then
          match parse_address (ou_address_combined old_user) with
          | Raises e => (st, Some e)
          | Returns parsed_addr =>
              if any_component parsed_addr then
                let new_address :=
                  mkAddress 0 new_user_id (street parsed_addr)
                    (city parsed_addr) (state parsed_addr)
                    (zip_code parsed_addr) (country parsed_addr)
                    true true in
                (count_child
                   (with_db (add (OAddress new_address) (new_db st)) st),
                 None)
              else
                (logger WARNING "resultó en datos N/A, no se creó dirección"
                   (RefId (ou_id old_user)) st, None)
          end
        else
          (logger INFO "no tiene dirección combinada"
             (RefId (ou_id old_user)) st, None) in
      match after_address with
      | (st, Some e) => (st, Some e)
      | (st, None) =>
          if batch_full batch_size st then
            match commit (new_db st) with
            | (s, None) =>
                (logger INFO "Commit de lote de usuarios/direcciones" NoRef
                   (with_db s st), None)
            | (s, Some e) => (with_db s st, Some e)
            end
          else (st, None)
      end
  end.

(** One turn of the loop over [OldUser], with its two [except] clauses. *)
Definition user_step (batch_size : Z) (st : State) (old_user : OldUser)
  : State :=
  let st := count_processed st in
  let reg_date_formats := ["%Y-%m-%d %H:%M"; "%Y-%m-%d %H:%M:%S"; "%Y-%m-%d"] in
  let '(registration_date, st) :=
    match parse_datetime_flexible strptime
            (ou_registration_date_str old_user) reg_date_formats with
    | Some d => (d, st)
    | None =>
        (now, logger WARNING "Usando fecha actual para registro"
                (RefId (ou_id old_user)) st)
    end in
  match user_try batch_size old_user registration_date st with
  | (st, None) => st
  | (st, Some IntegrityError) =>
      let st := logger ERROR "Error de integridad al migrar usuario"
                  (RefId (ou_id old_user))
                  (with_db (rollback (new_db st)) st) in
      match user_named (ou_username old_user) (new_db st) with
      | Some existing_user =>
          logger INFO "recuperado después de error de integridad"
            (RefId (ou_id old_user))
            (set_user (ou_id old_user) (u_id existing_user) st)
      | None =>
          logger ERROR "No se pudo recuperar el usuario"
            (RefId (ou_id old_user)) st
      end
  | (st, Some _) =>
      logger ERROR "Error general al migrar usuario"
        (RefId (ou_id old_user)) (with_db (rollback (new_db st)) st)
  end.

Definition migrate_users_and_addresses (batch_size : Z) (old_db : OldDb)
    (st : State) : State :=
  let st := logger INFO "Iniciando migración de usuarios y direcciones"
              NoRef (reset_counters st) in
  let st := fold_left (user_step batch_size) (old_users old_db) st in
  logger INFO "Migración de usuarios finalizada" NoRef
    (commit_or_rollback None
       "Error en commit final de usuarios/direcciones" st).

(** *** Stage 3: [migrate_products] *)

(** [f"{k:05d}"] *)
Definition format_05d (k : Z) : string :=
  let pad (width : nat) (digits : string) : string :=
    string_of_list_ascii
      (replicate (width - String.length digits) "0"%char) +:+ digits in
  if k <? 0 then "-" +:+ pad 4%nat (pretty (- k)) else pad 5%nat (pretty k).

(** [f"SKU-{old_product.id:05d}-{random.randint(100, 999)}"], for the value
    [suffix] that [random.randint] returned. *)
Definition sku_of (old_product_id suffix : Z) : string :=
  "SKU-" +:+ format_05d old_product_id +:+ "-" +:+ pretty suffix.

(** The block under [if not new_category_id], which falls back on the
    "Unknown" category. [None] is the [continue] that gives the product
    up. *)
Definition unknown_category (old_product : OldProduct) (st : State)
  : State * option Z :=
  match category_map st !! "Unknown" with
  | Some k =>
      (logger WARNING "no tenía categoría válida"
         (RefId (op_id old_product)) st, Some k)
  | None =>
      let st := logger INFO "Creando categoría por defecto" NoRef st in
      let default_cat :=
        mkCategory 0 "Unknown"
          (Some "Categoría por defecto para productos no categorizados.") in
      let abandon (s : Session) (st : State) : State * option Z :=
        (logger ERROR "no se pudo asignar default. Saltando producto."
           (RefId (op_id old_product))
           (logger ERROR "No se pudo crear categoría por defecto" NoRef
              (with_db (rollback s) st)), None) in
      match flush (add (OCategory default_cat) (new_db st)) with
      | (s, Some _) => abandon s st
      | (s, None) =>
          let k := seq_categories (sequences s) in
          let st := set_category "Unknown" k (with_db s st) in
          match commit (new_db st) with
          | (s', Some _) => abandon s' st
          | (s', None) =>
              (logger WARNING "no tenía categoría válida"
                 (RefId (op_id old_product)) (with_db s' st), Some k)
          end
      end
  end.

(** [new_category_id], from the dictionary or from the fall-back; a key [0]
    is falsy like [None]. *)
Definition resolve_category (old_product : OldProduct) (st : State)
  : State * option Z :=
  let normalized_cat_name :=
    normalize_category_name (op_category_name_redundant old_product) in
  match category_map st !! normalized_cat_name with
  | Some k =>
      if k =? 0 then unknown_category old_product st else (st, Some k)
  | None => unknown_category old_product st
  end.

(** The [try] block that creates the product. [sku] was drawn before it;
    the stock quantity is drawn inside. *)
Definition product_try (batch_size : Z) (old_product : OldProduct)
    (price : Decimal) (created_at_old_product : option datetime)
    (new_category_id : Z) (sku : string) (st : State)
  : State * option PyException :=
  let stock_quantity := randint (draws st) 0 100 in
  let st := with_draws (S (draws st)) st in
  let new_product :=
    mkProduct 0 (op_product_name old_product) (op_description old_product)
      price sku stock_quantity new_category_id
      created_at_old_product created_at_old_product in
  match flush (add (OProduct new_product) (new_db st)) with
  | (s, Some e) => (with_db s st, Some e)
  | (s, None) =>
      let new_product_id := seq_products (sequences s) in
      let st := count_success 1
                  (set_product (op_id old_product)
                     (op_product_name old_product) new_product_id
                     (with_db s st)) in
      if batch_full batch_size st then
        match commit (new_db st) with
        | (s, None) =>
            (logger INFO "Commit de lote de productos" NoRef (with_db s st),
             None)
        | (s, Some e) => (with_db s st, Some e)
        end
      else (st, None)
  end.

(** One turn of the loop over [OldProduct]. *)
Definition product_step (batch_size : Z) (st : State)
    (old_product : OldProduct) : State :=
  let st := count_processed st in
  let '(price, st) :=
    match extract_price_decimal (op_price_str old_product) with
    | Some p => (p, st)
    | None =>
        (mkDecimal 0 (-2),
         logger WARNING "tiene precio inválido" (RefId (op_id old_product)) st)
    end in
  let date_formats := ["%d/%m/%Y"; "%Y-%m-%d"] in
  let created_at_old_product :=
    parse_datetime_flexible strptime (op_created_at_str old_product)
      date_formats in
  match resolve_category old_product st with
  | (st, None) => st
  | (st, Some new_category_id) =>
      let sku := sku_of (op_id old_product) (randint (draws st) 100 999) in
      let st := with_draws (S (draws st)) st in
      match product_try batch_size old_product price created_at_old_product
              new_category_id sku st with
      | (st, None) => st
      | (st, Some IntegrityError) =>
          let st := logger ERROR "Error de integridad al migrar producto"
                      (RefId (op_id old_product))
                      (with_db (rollback (new_db st)) st) in
          match product_with_sku sku (new_db st) with
          | Some existing_product =>
              logger INFO "recuperado después de error de integridad"
                (RefId (op_id old_product))
                (set_product (op_id old_product)
                   (op_product_name old_product) (p_id existing_product) st)
          | None =>
              logger ERROR "No se pudo recuperar el producto"
                (RefId (op_id old_product)) st
          end
      | (st, Some _) =>
          logger ERROR "Error general al migrar producto"
            (RefId (op_id old_product)) (with_db (rollback (new_db st)) st)
      end
  end.

Definition migrate_products (batch_size : Z) (old_db : OldDb) (st : State)
  : State :=
  let st := logger INFO "Iniciando migración de productos" NoRef
              (reset_counters st) in
  let st := fold_left (product_step batch_size) (old_products old_db) st in
  logger INFO "Migración de productos finalizada" NoRef
    (commit_or_rollback None "Error en commit final de productos" st).

(** *** Stage 4: [migrate_orders_and_items] *)

(** [{u.username: u for u in new_db.query(User).all()}] *)
Definition new_users_by_username (s : Session) : gmap string User :=
  fold_left (λ m u, <[u_username u := u]> m) (all_users s) ∅.

(** [old_product_name_to_new_product_id_map.get(name)] *)
Definition lookup_product (name : option string) (st : State) : option Z :=
  n ← name; product_name_map st !! n.

(** [q if q and q > 0 else 1] *)
Definition positive_quantity (q : option Z) : Z :=
  match q with
  | Some k => if 0 <? k then k else 1
  | None => 1
  end.

(** The [try] block of the loop body. *)
Definition order_try (batch_size : Z) (old_order : OldOrder)
    (new_user_object : User) (shipping_address billing_address : Address)
    (order_date : datetime) (status : OrderStatusEnum) (st : State)
  : State * option PyException :=
  let new_order :=
    mkOrder 0 (u_id new_user_object) order_date status
      (a_id shipping_address) (Some (a_id billing_address)) in
  match flush (add (OOrder new_order) (new_db st)) with
  | (s, Some e) => (with_db s st, Some e)
  | (s, None) =>
      let new_order_id := seq_orders (sequences s) in
      let st := count_success 1 (with_db s st) in
      let found := lookup_product (oo_product_name_redundant old_order) st in
      match (if bool_decide (found = Some 0) then None else found) with
      | None =>
          let st := logger ERROR "No se encontró producto. Saltando ítem."
                      (RefId (oo_id old_order)) st in
          let flushed_order :=
            mkOrder new_order_id (u_id new_user_object) order_date status
              (a_id shipping_address) (Some (a_id billing_address)) in
          let st := with_db (expunge (OOrder flushed_order) (new_db st)) st in
          let st := count_success (-1) st in
          let st := logger WARNING
                      "no se migró porque el producto no pudo ser mapeado"
                      (RefId (oo_id old_order)) st in
          let st := if batch_full batch_size st
                    then with_db (rollback (new_db st)) st else st in
          (st, None)
      | Some new_product_id =>
          let '(unit_price, st) :=
            match extract_price_decimal
                    (oo_unit_price_str_redundant old_order) with
            | Some p => (p, st)
            | None =>
                (mkDecimal 0 (-2),
                 logger WARNING "Precio unitario inválido. Usando 0.0."
                   (RefId (oo_id old_order)) st)
            end in
          let quantity := positive_quantity (oo_quantity old_order) in
          let new_order_item :=
            mkOrderItem 0 new_order_id new_product_id quantity unit_price in
          let st := count_child
                      (with_db (add (OOrderItem new_order_item) (new_db st))
                         st) in
          if batch_full batch_size st then
            match commit (new_db st) with
            | (s, None) =>
                (logger INFO "Commit de lote de pedidos/ítems" NoRef
                   (with_db s st), None)
            | (s, Some e) => (with_db s st, Some e)
            end
          else (st, None)
      end
  end.

(** One turn of the loop over [OldOrder]; [by_username] is the dictionary
    [new_users_by_username] built before the loop. *)
Definition order_step (batch_size : Z) (by_username : gmap string User)
    (st : State) (old_order : OldOrder) : State :=
  let st := count_processed st in
  let user_identifier := oo_user_identifier_text old_order in
  match user_identifier ≫= (by_username !!.) with
  | None =>
      logger WARNING "No se encontró usuario. Saltando pedido."
        (RefId (oo_id old_order)) st
  | Some new_user_object =>
      match user_with_addresses (u_id new_user_object) (new_db st) with
      | None | Some (_, []) =>
          logger WARNING "no tiene direcciones asociadas. Saltando pedido."
            (RefId (oo_id old_order)) st
      | Some (_, (first_address :: _) as user_addresses) =>
          let shipping_address :=
            default first_address
              (head (filter (λ a, a_is_default_shipping a = true)
                       user_addresses)) in
          let billing_address :=
            default shipping_address
              (head (filter (λ a, a_is_default_billing a = true)
                       user_addresses)) in
          let order_date_formats :=
            ["%Y-%m-%d"; "%m/%d/%Y %I:%M %p"; "%Y-%m-%d %H:%M:%S"] in
          let '(order_date, st) :=
            match parse_datetime_flexible strptime
                    (oo_order_date_str old_order) order_date_formats with
            | Some d => (d, st)
            | None =>
                (now, logger WARNING "Usando fecha actual para pedido"
                        (RefId (oo_id old_order)) st)
            end in
          let status := map_order_status (oo_status_text old_order) in
          match order_try batch_size old_order new_user_object
                  shipping_address billing_address order_date status st with
          | (st, None) => st
          | (st, Some IntegrityError) =>
              logger ERROR "Error de integridad al migrar pedido"
                (RefId (oo_id old_order))
                (with_db (rollback (new_db st)) st)
          | (st, Some _) =>
              logger ERROR "Error general al migrar pedido"
                (RefId (oo_id old_order))
                (with_db (rollback (new_db st)) st)
          end
      end
  end.

Definition migrate_orders_and_items (batch_size : Z) (old_db : OldDb)
    (st : State) : State :=
  let st := logger INFO "Iniciando migración de pedidos y sus ítems" NoRef
              (reset_counters st) in
  let by_username := new_users_by_username (new_db st) in
  let st := fold_left (order_step batch_size by_username)
              (old_orders old_db) st in
  logger INFO "Migración de pedidos/ítems finalizada" NoRef
    (commit_or_rollback None "Error en commit final de pedidos/ítems" st).

(** *** [main_migration_process]: the four stages, in order *)
Definition main_migration_process (batch_size : Z) (old_db : OldDb)
    (st : State) : State :=
  let st := migrate_product_categories batch_size old_db st in
  let st := migrate_users_and_addresses batch_size old_db st in
  let st := migrate_products batch_size old_db st in
  let st := migrate_orders_and_items batch_size old_db st in
  let st := logger INFO "Todas las etapas de migración completadas."
              NoRef st in
  with_db (close (new_db st)) st.

End Stages.

(** The state a new process starts the script in: the dictionaries and the
    log are empty, the target store is as [s] left it, and [n] calls of
    [random.randint] lie in the past. *)
Definition new_process (s : Session) (n : nat) : State :=
  mkState s no_maps [] n 0 0 0.

End Migration.

(** ** Invariants of the categories stage *)

Module Invariants.
Import Normalizers Target Db Migration.

(** A session with nothing waiting for a flush, as every stage leaves it. *)
Definition clean (st : State) : Prop := pending (new_db st) = [].

(** The dictionary after the assignments of [map_category]. *)
Definition mapped (raw N : string) (k : Z) (m : gmap string Z)
  : gmap string Z :=
  if bool_decide (raw ≠ N) then <[raw := k]> (<[N := k]> m) else <[N := k]> m.

(** Every key of the dictionary other than the empty one carries the
    identifier of its normalized form. *)
Definition agrees (m : gmap string Z) : Prop :=
  forall key v, key <> "" -> m !! key = Some v ->
                m !! normalize_category_name (Some key) = Some v.

End Invariants.

(** ** Legacy data used as examples *)

Module Scenario.
Import Legacy Target Db Migration.

(** A user with every column filled but the dates and the phone. *)
Definition alice : OldUser :=
  mkOldUser 1 "alice" (Some "alice@example.org") (Some "Alice Adams") None
    (Some "123 Main St, Springfield, IL 62704, USA") None.

(** A user whose [email] column, nullable in [old_users], is NULL. *)
Definition bob : OldUser :=
  mkOldUser 2 "bob" None (Some "Bob Brown") None
    (Some "9 Elm St, Portland, OR 97201, USA") None.

Definition laptop : OldProduct :=
  mkOldProduct 1 "Laptop" None (Some "999.99 USD") (Some "electronics") None.

(** A product with no category and a price that is no number. *)
Definition mouse : OldProduct :=
  mkOldProduct 2 "Mouse" None (Some "contact us") None None.

(** A product whose price has three decimals. *)
Definition cable : OldProduct :=
  mkOldProduct 3 "Cable" None (Some "19.999 USD") (Some "electronics") None.

(** An order of alice with a unit price of three decimals and no quantity. *)
Definition cable_order (k : Z) : OldOrder :=
  mkOldOrder k (Some "alice") None (Some "Delivered") (Some "Laptop") None
    (Some "19.999") None.

(** An order of alice for a product that exists. *)
Definition laptop_order (k : Z) : OldOrder :=
  mkOldOrder k (Some "alice") None (Some "Shipped") (Some "Laptop") (Some 2)
    (Some "999.99 USD") (Some "1999.98 USD").

(** An order of alice whose product name matches no legacy product. *)
Definition ghost_order (k : Z) : OldOrder :=
  mkOldOrder k (Some "alice") None (Some "pending") (Some "Ghost") (Some 1)
    (Some "5.00") (Some "5.00").

(** An order whose user identifier is no username. *)
Definition stranger_order (k : Z) : OldOrder :=
  mkOldOrder k (Some "alice@example.org") None (Some "pending")
    (Some "Laptop") (Some 1) (Some "999.99 USD") (Some "999.99 USD").

(** Successive calls of [random.randint(lo, hi)] returning [lo], [lo + 1],
    [lo + 2], ... *)
Definition randint_counting (n : nat) (lo hi : Z) : Z := lo + Z.of_nat n.

(** The script run by a new process on an empty target store. *)
Definition first_run (strptime : string -> string -> option datetime)
    (now : datetime) (old_db : OldDb) : State :=
  main_migration_process strptime now randint_counting BATCH_SIZE old_db
    (new_process fresh_session 0).

(** The script run again by a new process, on the store the run [before]
    left and with the calls of [random.randint] that follow. *)
Definition next_run (strptime : string -> string -> option datetime)
    (now : datetime) (old_db : OldDb) (before : State) : State :=
  main_migration_process strptime now randint_counting BATCH_SIZE old_db
    (new_process (new_db before) (draws before)).

End Scenario.

(** ** Shapes of sessions *)

Module SessionShapes.
Import Target Db.

(** Nothing is pending and nothing is uncommitted. *)
Definition settled (s : Session) : Prop :=
  pending s = [] /\ txn s = committed s.

Definition is_address_object (o : Object) : bool :=
  match o with OAddress _ => true | _ => false end.

Definition is_item_object (o : Object) : bool :=
  match o with OOrderItem _ => true | _ => false end.

(** The Address the users stage builds for the user with key [k] from what
    [parse_address] returned: not yet inserted, default for shipping and
    billing. *)
Definition address_object (k : Z) (p : AddressParser.ParsedAddress)
  : Address :=
  mkAddress 0 k (AddressParser.street p) (AddressParser.city p)
    (AddressParser.state p) (AddressParser.zip_code p)
    (AddressParser.country p) true true.

(** The OrderItem the orders stage builds for a legacy order, for the Order
    with key [k] and the product with key [pid]: not yet inserted. *)
Definition item_object (k pid : Z) (old_order : Legacy.OldOrder) : OrderItem :=
  mkOrderItem 0 k pid
    (Migration.positive_quantity (Legacy.oo_quantity old_order))
    (default (mkDecimal 0 (-2))
       (Normalizers.extract_price_decimal
          (Legacy.oo_unit_price_str_redundant old_order))).

(** The tables the categories stage does not write to. *)
Definition other_tables (t : Tables)
  : list User * list Address * list Product * list Order * list OrderItem :=
  (users t, addresses t, products t, orders t, order_items t).

(** [old_user_id_to_new_user_map] *)
Definition user_map (st : Migration.State) : gmap Z Z :=
  Migration.old_user_id_to_new_user_map (Migration.maps st).

(** The entry of the user dictionary for the legacy key [k] names a
    committed user that has the username of a legacy user of [l] with that
    key. *)
Definition adopted (l : list Legacy.OldUser) (T : Tables) (m : gmap Z Z) (k : Z)
  : Prop :=
  exists old u, old ∈ l /\ Legacy.ou_id old = k /\ u ∈ users T
                /\ u_username u = Legacy.ou_username old /\ m !! k = Some (u_id u).

End SessionShapes.

(** ** Where the rows a stage writes come from *)

Module Provenance.
Import Legacy Target Db Normalizers AddressParser Migration.

Section OrderRows.
(** The environment of the stage, the dictionary [new_users_by_username] it
    builds, the dictionary [old_product_name_to_new_product_id_map] it reads,
    the tables [base] it starts from and the legacy orders it reads. *)
Variable strptime : string -> string -> option datetime.
Variable now : datetime.
Variable by_username : gmap string User.
Variable names : gmap string Z.
Variable base : Tables.
Variable legacy : list OldOrder.

(** [o] has the columns the loop body gives the Order of [old_order]: the
    user found under the order's identifier, the parsed date or the clock,
    the mapped status, and for shipping and billing an address of that user,
    the first one flagged as default when there is one; without a default,
    shipping uses the user's first address and billing the shipping one. *)
Definition migrated_order (old_order : OldOrder) (o : Order) : Prop :=
  exists u ship bill,
    oo_user_identifier_text old_order ≫= (by_username !!.) = Some u
    /\ o_user_id o = u_id u
    /\ o_order_date o
       = default now
           (parse_datetime_flexible strptime (oo_order_date_str old_order)
              ["%Y-%m-%d"; "%m/%d/%Y %I:%M %p"; "%Y-%m-%d %H:%M:%S"])
    /\ o_status o = map_order_status (oo_status_text old_order)
    /\ ship ∈ addresses base /\ a_user_id ship = u_id u
    /\ o_shipping_address_id o = a_id ship
    /\ (a_is_default_shipping ship = true
        \/ forall a, a ∈ addresses base -> a_user_id a = u_id u ->
             a_is_default_shipping a <> true)
    /\ bill ∈ addresses base /\ a_user_id bill = u_id u
    /\ o_billing_address_id o = Some (a_id bill)
    /\ (a_is_default_billing bill = true
        \/ (bill = ship
            /\ forall a, a ∈ addresses base -> a_user_id a = u_id u ->
                 a_is_default_billing a <> true)).

(** [i] has the columns the loop body gives the OrderItem of [old_order]:
    the product the dictionary has for the order's product name, the legacy
    quantity when it is positive and 1 otherwise, the parsed unit price or
    0.00. [stored] tells a row of the table, whose price is the one the
    column [Numeric(10, 2)] made of it, from an object not yet inserted,
    which has the price as parsed. *)
Definition migrated_item (stored : bool) (old_order : OldOrder)
    (i : OrderItem) : Prop :=
  let unit_price :=
    default (mkDecimal 0 (-2))
      (extract_price_decimal (oo_unit_price_str_redundant old_order)) in
  (exists name, oo_product_name_redundant old_order = Some name
                /\ names !! name = Some (i_product_id i))
  /\ i_product_id i <> 0
  /\ i_quantity i = positive_quantity (oo_quantity old_order)
  /\ if stored
     then numeric_10_2 unit_price = Some (i_unit_price_at_purchase i)
     else i_unit_price_at_purchase i = unit_price.

(** An Order row: one of [base], or the Order of a legacy order read. *)
Definition order_row_ok (o : Order) : Prop :=
  o ∈ orders base
  \/ exists old_order, old_order ∈ legacy /\ migrated_order old_order o.

(** The OrderItem of a legacy order read, attached to an Order of [T] made
    for the same legacy order. *)
Definition item_of_legacy (stored : bool) (T : Tables) (i : OrderItem)
  : Prop :=
  exists old_order,
    old_order ∈ legacy /\ migrated_item stored old_order i
    /\ exists o, o ∈ orders T /\ o_id o = i_order_id i
                 /\ migrated_order old_order o.

(** An OrderItem row of [T]: one of [base], or the item of a legacy order. *)
Definition item_row_ok (T : Tables) (i : OrderItem) : Prop :=
  i ∈ order_items base \/ item_of_legacy true T i.

(** The tables [T] are [base] but for Orders and OrderItems written for the
    legacy orders. *)
Definition order_tables_ok (T : Tables) : Prop :=
  users T = users base /\ addresses T = addresses base
  /\ product_categories T = product_categories base
  /\ products T = products base
  /\ (forall o, o ∈ orders T -> order_row_ok o)
  /\ (forall i, i ∈ order_items T -> item_row_ok T i).

(** The objects waiting for a flush are OrderItems of legacy orders. *)
Definition order_pending_ok (T : Tables) (p : list Object) : Prop :=
  forall obj, obj ∈ p ->
    exists i, obj = OOrderItem i /\ item_of_legacy false T i.

(** The invariant of the loop over the legacy orders. *)
Definition order_state_ok (st : State) : Prop :=
  order_tables_ok (txn (new_db st))
  /\ order_tables_ok (committed (new_db st))
  /\ order_pending_ok (txn (new_db st)) (pending (new_db st))
  /\ product_name_map st = names.

End OrderRows.

Section ProductRows.
(** The environment of the products stage, the tables [base] it starts from
    and the legacy products it reads. *)
Variable strptime : string -> string -> option datetime.
Variable randint : nat -> Z -> Z -> Z.
Variable base : Tables.
Variable legacy : list OldProduct.

(** [p] has the columns the loop body gives the Product of [old_product]:
    name and description as they were, the parsed price or 0.00 as the
    column [Numeric(10, 2)] holds it, a SKU and a stock quantity from two
    successive calls of [random.randint], the parsed creation date for both
    dates, and the category the dictionary [m] has for the normalized
    category name or for "Unknown". *)
Definition migrated_product (m : gmap string Z) (old_product : OldProduct)
    (p : Product) : Prop :=
  p_name p = op_product_name old_product
  /\ p_description p = op_description old_product
  /\ numeric_10_2
       (default (mkDecimal 0 (-2))
          (extract_price_decimal (op_price_str old_product)))
     = Some (p_price p)
  /\ (exists n, p_sku p = sku_of (op_id old_product) (randint n 100 999)
                /\ p_stock_quantity p = randint (S n) 0 100)
  /\ p_created_at p
     = parse_datetime_flexible strptime (op_created_at_str old_product)
         ["%d/%m/%Y"; "%Y-%m-%d"]
  /\ p_updated_at p = p_created_at p
  /\ (m !! normalize_category_name (op_category_name_redundant old_product)
      = Some (p_category_id p)
      \/ m !! "Unknown" = Some (p_category_id p)).

(** The tables [T] are [base] but for Products written for the legacy
    products and for the category "Unknown". *)
Definition product_tables_ok (m : gmap string Z) (T : Tables) : Prop :=
  users T = users base /\ addresses T = addresses base
  /\ orders T = orders base /\ order_items T = order_items base
  /\ (forall c, c ∈ product_categories T ->
        c ∈ product_categories base \/ c_name c = "Unknown")
  /\ (forall p, p ∈ products T ->
        p ∈ products base
        \/ exists old_product,
             old_product ∈ legacy /\ migrated_product m old_product p).

(** The invariant of the loop over the legacy products. *)
Definition product_state_ok (st : State) : Prop :=
  product_tables_ok (category_map st) (txn (new_db st))
  /\ product_tables_ok (category_map st) (committed (new_db st))
  /\ pending (new_db st) = [].

End ProductRows.

Section UserRows.
(** The environment of the users stage, the tables [base] it starts from
    and the legacy users it reads. *)
Variable strptime : string -> string -> option datetime.
Variable now : datetime.
Variable base : Tables.
Variable legacy : list OldUser.

(** [u] has the columns the loop body gives the User of [old_user]:
    username, e-mail, full name and phone as they were, the placeholder
    password, active and not superuser, the parsed registration date or the
    clock. *)
Definition migrated_user (old_user : OldUser) (u : User) : Prop :=
  u_username u = ou_username old_user
  /\ u_email u = ou_email old_user
  /\ u_full_name u = ou_full_name old_user
  /\ u_hashed_password u
     = "migrated_placeholder_for_" +:+ ou_username old_user
  /\ u_is_active u = true /\ u_is_superuser u = false
  /\ u_registration_date u
     = default now
         (parse_datetime_flexible strptime
            (ou_registration_date_str old_user)
            ["%Y-%m-%d %H:%M"; "%Y-%m-%d %H:%M:%S"; "%Y-%m-%d"])
  /\ u_phone_number u = ou_phone_number_str old_user.

(** [a] has the columns the loop body gives the Address of [old_user]: the
    components [parse_address] returns for the non-empty combined text, one
    of which at least is not "N/A", default for shipping and billing. *)
Definition migrated_address (old_user : OldUser) (a : Address) : Prop :=
  exists text,
    ou_address_combined old_user = Some text /\ text <> ""
    /\ any_component (parse_address_str text) = true
    /\ a_street a = street (parse_address_str text)
    /\ a_city a = city (parse_address_str text)
    /\ a_state a = state (parse_address_str text)
    /\ a_zip_code a = zip_code (parse_address_str text)
    /\ a_country a = country (parse_address_str text)
    /\ a_is_default_shipping a = true /\ a_is_default_billing a = true.

(** The Address of a legacy user read, attached to a User of [T] made for
    the same legacy user. *)
Definition address_of_legacy (T : Tables) (a : Address) : Prop :=
  exists old_user,
    old_user ∈ legacy /\ migrated_address old_user a
    /\ exists u, u ∈ users T /\ u_id u = a_user_id a
                 /\ migrated_user old_user u.

(** The tables [T] are [base] but for Users and Addresses written for the
    legacy users. *)
Definition user_tables_ok (T : Tables) : Prop :=
  product_categories T = product_categories base
  /\ products T = products base
  /\ orders T = orders base /\ order_items T = order_items base
  /\ (forall u, u ∈ users T ->
        u ∈ users base
        \/ exists old_user, old_user ∈ legacy /\ migrated_user old_user u)
  /\ (forall a, a ∈ addresses T ->
        a ∈ addresses base \/ address_of_legacy T a).

(** The objects waiting for a flush are Addresses of legacy users. *)
Definition user_pending_ok (T : Tables) (p : list Object) : Prop :=
  forall obj, obj ∈ p -> exists a, obj = OAddress a /\ address_of_legacy T a.

(** The invariant of the loop over the legacy users. *)
Definition user_state_ok (st : State) : Prop :=
  user_tables_ok (txn (new_db st))
  /\ user_tables_ok (committed (new_db st))
  /\ user_pending_ok (txn (new_db st)) (pending (new_db st)).

End UserRows.

End Provenance.

(** ** Shapes of values *)

Module Shapes.
Import PyStr.



(** The shape of a ZIP code: five digits, or five digits, a dash and four
    digits. *)
Definition zip_shaped (z : string) : Prop :=
  exists d5, String.length d5 = 5%nat /\ all_chars is_digit d5 = true
    /\ (z = d5
        \/ exists d4, String.length d4 = 4%nat /\ all_chars is_digit d4 = true
                      /\ z = d5 +:+ "-" +:+ d4).

End Shapes.

(** * Properties *)

(** ** The field normalizers on the examples of the specification *)

Module NormalizerFacts.
Import PyStr Normalizers AddressParser.

Example status_shipped : map_order_status (Some " Shipped ") = SHIPPED.
Proof. reflexivity. Qed.

Example parse_address_springfield :
  parse_address (Some "123 Main St, Springfield, IL 62704, USA")
  = Returns (mkParsed "123 Main St" "Springfield" (Some "IL") "62704" "USA").
Proof. vm_compute. reflexivity. Qed.

Example parse_address_empty :
  parse_address (Some "") = Returns (mkParsed NA NA (Some NA) NA NA).
Proof. reflexivity. Qed.

Example category_variants :
  normalize_category_name (Some "electronics") = "Electronics"
  /\ normalize_category_name (Some "Electronics") = "Electronics"
  /\ normalize_category_name (Some " Electronics ") = "Electronics".
Proof. repeat split; reflexivity. Qed.

(** What survives the cleaning of [extract_price_decimal] is made of digits,
    points and dashes, and the part before the first dash has no dash: the
    text given to [Decimal] holds digits and points only. *)
Lemma filter_chars_all (keep : ascii -> bool) (s : string) :
  all_chars keep (filter_chars keep s) = true.
Proof.
  induction s as [|c s IH]; simpl; [reflexivity|].
  destruct (keep c) eqn:Hc; simpl; [rewrite Hc|]; exact IH.
Qed.

Lemma first_part_no_dash (s : string) :
  all_chars price_char s = true ->
  all_chars (fun c => is_digit c || eqb_char c ".") (split_parts "-" s).1 = true.
Proof.
  induction s as [|c s IH]; simpl; [reflexivity|].
  intros [Hc Hs]%andb_true_iff. specialize (IH Hs).
  destruct (split_parts "-" s) as [h t]. simpl in IH.
  destruct (eqb_char c "-") eqn:Hd; simpl; [reflexivity|].
  rewrite IH, andb_true_r.
  unfold price_char in Hc. rewrite Hd, orb_false_r in Hc. exact Hc.
Qed.

(** A price text whose cleaned form starts with a minus sign has an empty
    first dash-separated part, and the parser gives the sentinel. *)
Lemma leading_minus_unparseable (s rest : string) :
  filter_chars price_char s = String "-" rest ->
  extract_price_decimal (Some s) = None.
Proof.
  intros H. unfold extract_price_decimal.
  destruct (is_empty s); [reflexivity|].
  rewrite H. simpl. destruct (split_parts "-" rest). reflexivity.
Qed.

End NormalizerFacts.

Module NormalizerClaims.
Import PyStr Normalizers AddressParser.

(** C10. For every input, the absent and the empty one included,
    [map_order_status] returns one of PENDING, SHIPPED, DELIVERED and
    CANCELLED; it never produces PROCESSING or REFUNDED, and "processing"
    is mapped to PENDING. *)
Theorem map_order_status_range (old_status : option string) :
  map_order_status old_status ∈ [PENDING; SHIPPED; DELIVERED; CANCELLED]
  /\ map_order_status old_status <> PROCESSING
  /\ map_order_status old_status <> REFUNDED
  /\ map_order_status (Some "processing") = PENDING.
Proof.
  assert (H : map_order_status old_status
              ∈ [PENDING; SHIPPED; DELIVERED; CANCELLED]).
  { apply list_elem_of_In. unfold map_order_status.
    destruct old_status as [old|]; [|simpl; tauto].
    destruct (is_empty old); [simpl; tauto|].
    repeat case_bool_decide; simpl; tauto. }
  split; [exact H|].
  apply list_elem_of_In in H. simpl in H.
  repeat split; try reflexivity;
    intros E; rewrite E in H; intuition discriminate.
Qed.

(** C6. The price parser on the examples of the specification: "25.99 USD"
    gives 25.99, "10.99-12.99" gives 10.99 and "contact us" gives the
    sentinel. A text with a leading minus sign does not give the negative
    amount: its cleaned form "-5.00" is not empty, but the part before the
    first dash is, and the sentinel comes back. *)
Theorem extract_price_decimal_examples :
  extract_price_decimal (Some "25.99 USD") = Some (mkDecimal 2599 (-2))
  /\ extract_price_decimal (Some "10.99-12.99") = Some (mkDecimal 1099 (-2))
  /\ extract_price_decimal (Some "contact us") = None
  /\ filter_chars price_char "-5.00 USD" = "-5.00"
  /\ extract_price_decimal (Some "-5.00 USD") = None.
Proof. repeat split; reflexivity. Qed.

(** C7. [parse_address] returns its five-key dictionary for every text, the
    empty one included, and the other normalizers return for an absent
    value; but [parse_address(None)] raises: the split of its first line
    runs before the test for an absent argument. *)
Theorem parse_address_none_raises :
  parse_address None = Raises AttributeError
  /\ (forall s : string, exists p, parse_address (Some s) = Returns p)
  /\ parse_address (Some "") = Returns (mkParsed NA NA (Some NA) NA NA)
  /\ (forall strptime formats,
        parse_datetime_flexible strptime None formats = None)
  /\ normalize_category_name None = "Unknown"
  /\ extract_price_decimal None = None
  /\ map_order_status None = PENDING.
Proof.
  repeat split; try reflexivity.
  intros s. eexists. reflexivity.
Qed.

End NormalizerClaims.

(** ** The columnar variant against the record-at-a-time one *)

Module VariantClaims.
Import PyStr Normalizers Shapes.











End VariantClaims.

(** ** Runs of the pipeline on the example data *)

Module RunClaims.
Import Legacy Target Db Migration Scenario.

(** C1. An order whose product name is in no product dictionary is not
    skipped entirely by the record-at-a-time orders stage. With one user, one
    product and one such order, at [BATCH_SIZE] 500: the Order row was
    flushed before the product was looked up, [expunge] sends nothing to the
    store, no rollback is made at position 1, and the final commit makes the
    row durable, without any item. *)
Theorem ghost_order_is_committed
    (strptime : string -> string -> option datetime) (now : datetime) :
  let st := first_run strptime now (mkOldDb [alice] [laptop] [ghost_order 1]) in
  product_name_map st !! "Ghost" = None
  /\ orders (committed (new_db st)) = [mkOrder 1 1 now PENDING 1 (Some 1)]
  /\ order_items (committed (new_db st)) = [].
Proof. vm_compute. repeat split; reflexivity. Qed.

(** C2. A second run over the same legacy data, without a reset, does not
    leave the record counts as they were: with one user, one product and one
    order, the counts of users, addresses and categories stay at 1, and the
    second run adds a second Product row (its SKU has another random
    suffix), a second Order and a second OrderItem. *)
Theorem second_run_duplicates_rows
    (strptime : string -> string -> option datetime) (now : datetime) :
  let old_db := mkOldDb [alice] [laptop] [laptop_order 1] in
  let run1 := first_run strptime now old_db in
  let run2 := next_run strptime now old_db run1 in
  counts (committed (new_db run1)) = [1; 1; 1; 1; 1; 1]%nat
  /\ counts (committed (new_db run2)) = [1; 1; 1; 2; 2; 2]%nat
  /\ p_name <$> products (committed (new_db run2)) = ["Laptop"; "Laptop"].
Proof. vm_compute. repeat split; reflexivity. Qed.

(** C4. The SKU of the record-at-a-time products stage is not a function of
    the legacy identifier: two runs over the same legacy product, the second
    with the next values of [random.randint], give it two different SKUs. *)
Theorem sku_differs_between_runs
    (strptime : string -> string -> option datetime) (now : datetime) :
  let old_db := mkOldDb [] [laptop] [] in
  let run1 := first_run strptime now old_db in
  let run2 := next_run strptime now old_db run1 in
  p_sku <$> products (committed (new_db run1)) = ["SKU-00001-100"]
  /\ p_sku <$> products (committed (new_db run2))
     = ["SKU-00001-100"; "SKU-00001-102"]
  /\ sku_of 1 100 <> sku_of 1 102.
Proof. vm_compute. repeat split; try reflexivity. discriminate. Qed.

(** C3. A write failure on one record does not roll back that record alone.
    In the users stage, bob's NULL email is refused by the NOT NULL
    constraint; the rollback of the handler discards alice's flushed,
    uncommitted row with it, and no user is committed, where alice alone is
    migrated. In the orders stage, 499 good orders followed by one with an
    unknown product at position 500 = [BATCH_SIZE]: the rollback made for
    that order discards the 499 orders and items before it. *)
Theorem rollback_discards_batch
    (strptime : string -> string -> option datetime) (now : datetime) :
  let alone := first_run strptime now (mkOldDb [alice] [] []) in
  let both := first_run strptime now (mkOldDb [alice; bob] [] []) in
  let good := first_run strptime now
                (mkOldDb [alice] [laptop] (laptop_order <$> seqZ 1 499)) in
  let bad_last := first_run strptime now
                    (mkOldDb [alice] [laptop]
                       ((laptop_order <$> seqZ 1 499) ++ [ghost_order 500])) in
  counts (committed (new_db alone)) = [1; 1; 0; 0; 0; 0]%nat
  /\ counts (committed (new_db both)) = [0; 0; 0; 0; 0; 0]%nat
  /\ success_count (migrate_users_and_addresses strptime now BATCH_SIZE
                      (mkOldDb [alice; bob] [] []) (new_process fresh_session 0))
     = 1
  /\ counts (committed (new_db good)) = [1; 1; 1; 1; 499; 499]%nat
  /\ counts (committed (new_db bad_last)) = [1; 1; 1; 1; 0; 0]%nat.
Proof. vm_compute. repeat split; reflexivity. Qed.

End RunClaims.

(** ** The order skip rule *)

Module SkipClaims.
Import Legacy Target Db Migration Scenario.

Lemma filter_none {A : Type} (P : A -> Prop) `{!∀ x, Decision (P x)}
    (l : list A) :
  (forall x, x ∈ l -> ~ P x) -> filter P l = [].
Proof.
  induction l as [|x l IH]; intros Hl; [reflexivity|].
  rewrite filter_cons. destruct (decide (P x)) as [HP|_].
  - exfalso. apply (Hl x); [left|exact HP].
  - apply IH. intros y Hy. apply Hl. right. exact Hy.
Qed.

(** The dictionary comprehension over a list of users holds exactly their
    usernames. *)
Lemma users_by_username_fold (l : list User) (m : gmap string User)
    (n : string) :
  fold_left (λ m u, <[u_username u := u]> m) l m !! n = None
  <-> m !! n = None /\ n ∉ u_username <$> l.
Proof.
  revert m. induction l as [|u l IH]; intros m; cbn [fold_left].
  - split; [intros H; split; [exact H|apply not_elem_of_nil]|tauto].
  - rewrite IH, fmap_cons, not_elem_of_cons, lookup_insert_None.
    split; [intros [[? ?] ?]|intros [? [? ?]]]; auto.
Qed.

Lemma new_users_by_username_None (s : Session) (n : string) :
  new_users_by_username s !! n = None <-> n ∉ u_username <$> all_users s.
Proof.
  unfold new_users_by_username. rewrite users_by_username_fold.
  rewrite lookup_empty. tauto.
Qed.

(** C9. In the orders stage, an order whose user identifier is absent or is
    the username of no user of the target store, or whose matched user has
    no address in the store, writes nothing: the turn of the loop leaves the
    session (committed rows, transaction, pending objects, sequences) and the
    dictionaries as they were, counts no order and no item, and logs one
    warning that names the legacy order. [s0] is the session the stage
    started with, from which the username dictionary is built. *)
Theorem unresolved_order_writes_nothing
    (strptime : string -> string -> option datetime) (now : datetime)
    (batch_size : Z) (s0 : Session) (st : State) (old_order : OldOrder)
    (Hskip :
       (forall n, oo_user_identifier_text old_order = Some n ->
                  n ∉ u_username <$> all_users s0)
       \/ (exists n u,
             oo_user_identifier_text old_order = Some n
             /\ new_users_by_username s0 !! n = Some u
             /\ forall a, a ∈ addresses (txn (new_db st)) ->
                          a_user_id a <> u_id u)) :
  let st' := order_step strptime now batch_size (new_users_by_username s0)
               st old_order in
  new_db st' = new_db st
  /\ maps st' = maps st
  /\ success_count st' = success_count st
  /\ success_children_count st' = success_children_count st
  /\ processed_count st' = processed_count st + 1
  /\ exists msg,
       log st' = (log st ++ [mkLog WARNING msg (RefId (oo_id old_order))])%list.
Proof.
  unfold order_step.
  destruct Hskip as [Hnone|(n & u & Hn & Hu & Haddr)].
  - assert (E : oo_user_identifier_text old_order
                ≫= (new_users_by_username s0 !!.) = None).
    { destruct (oo_user_identifier_text old_order) as [n|]; [|reflexivity].
      simpl. apply new_users_by_username_None, Hnone. reflexivity. }
    rewrite E. simpl. repeat split; eauto.
  - rewrite Hn. simpl. rewrite Hu.
    unfold user_with_addresses. simpl.
    rewrite (filter_none _ (addresses (txn (new_db st)))) by exact Haddr.
    destruct (user_with_id (txn (new_db st)) (u_id u)); simpl;
      repeat split; eauto.
Qed.

Lemma unresolved_order_writes_nothing_witness :
  let st := first_run (λ _ _, None) 0 (mkOldDb [alice] [laptop] []) in
  let st' := order_step (λ _ _, None) 0 BATCH_SIZE
               (new_users_by_username (new_db st)) st (stranger_order 7) in
  new_db st' = new_db st
  /\ maps st' = maps st
  /\ success_count st' = success_count st
  /\ success_children_count st' = success_children_count st
  /\ processed_count st' = processed_count st + 1
  /\ exists msg, log st' = (log st ++ [mkLog WARNING msg (RefId 7)])%list.
Proof.
  apply (unresolved_order_writes_nothing (λ _ _, None) 0 BATCH_SIZE
           (new_db (first_run (λ _ _, None) 0 (mkOldDb [alice] [laptop] [])))
           (first_run (λ _ _, None) 0 (mkOldDb [alice] [laptop] []))
           (stranger_order 7)).
  left. intros n [= <-]. vm_compute.
  intros H. apply list_elem_of_In in H. simpl in H.
  destruct H as [H|[]]. discriminate H.
Defined.

End SkipClaims.

(** ** The category normalizer is idempotent on what it produces *)

Module PyStrFacts.
Import PyStr Normalizers.

Lemma is_space_to_upper (c : ascii) : is_space (to_upper c) = is_space c.
Proof. destruct c as [[] [] [] [] [] [] [] []]; reflexivity. Qed.

Lemma is_space_to_lower (c : ascii) : is_space (to_lower c) = is_space c.
Proof. destruct c as [[] [] [] [] [] [] [] []]; reflexivity. Qed.

Lemma to_upper_idem (c : ascii) : to_upper (to_upper c) = to_upper c.
Proof. destruct c as [[] [] [] [] [] [] [] []]; reflexivity. Qed.

Lemma to_lower_idem (c : ascii) : to_lower (to_lower c) = to_lower c.
Proof. destruct c as [[] [] [] [] [] [] [] []]; reflexivity. Qed.

Lemma lower_idem (s : string) : lower (lower s) = lower s.
Proof.
  unfold lower. induction s as [|c s IH]; simpl; [reflexivity|].
  rewrite to_lower_idem, IH. reflexivity.
Qed.

Lemma capitalize_idem (s : string) : capitalize (capitalize s) = capitalize s.
Proof.
  destruct s as [|c s]; simpl; [reflexivity|].
  rewrite to_upper_idem, lower_idem. reflexivity.
Qed.

(** What [lstrip] leaves does not start with white space. *)
Lemma lstrip_head (s : string) (c : ascii) (r : string) :
  lstrip s = String c r -> is_space c = false.
Proof.
  induction s as [|d s IH]; simpl; [discriminate|].
  destruct (is_space d) eqn:Hd; [exact IH|].
  intros [= <- _]. exact Hd.
Qed.

Lemma rstrip_idem (s : string) : rstrip (rstrip s) = rstrip s.
Proof.
  induction s as [|c s IH]; simpl; [reflexivity|].
  destruct (is_empty (rstrip s) && is_space c) eqn:E; simpl; [reflexivity|].
  rewrite IH, E. reflexivity.
Qed.

Lemma rstrip_lower (s : string) : rstrip (lower s) = lower (rstrip s).
Proof.
  unfold lower. induction s as [|c s IH]; simpl; [reflexivity|].
  rewrite IH, is_space_to_lower.
  destruct (rstrip s); simpl; [|reflexivity].
  destruct (is_space c); reflexivity.
Qed.

(** A stripped text is empty, or starts with a character that is not white
    space and has nothing to strip on the right. *)
Lemma strip_shape (s : string) :
  strip s = EmptyString
  \/ exists c r, strip s = String c r /\ is_space c = false /\ rstrip r = r.
Proof.
  unfold strip. destruct (lstrip s) as [|c r] eqn:E; [left; reflexivity|].
  right. pose proof (lstrip_head s c r E) as Hc.
  simpl. rewrite Hc, andb_false_r.
  exists c, (rstrip r). repeat split; [exact Hc|apply rstrip_idem].
Qed.

Lemma strip_capitalize_strip (s : string) :
  strip (capitalize (strip s)) = capitalize (strip s).
Proof.
  destruct (strip_shape s) as [E|(c & r & E & Hc & Hr)]; rewrite E;
    [reflexivity|].
  unfold strip. simpl. rewrite is_space_to_upper, Hc. simpl.
  rewrite is_space_to_upper, Hc, andb_false_r.
  rewrite rstrip_lower, Hr. reflexivity.
Qed.

(** Normalizing a name that is itself the non-empty normalized form of a
    name gives it back. (The empty normalized form of a name of white space
    only is sent to "Unknown".) *)
Lemma normalize_category_name_idem (raw : string) :
  raw <> "" ->
  normalize_category_name (Some raw) <> "" ->
  normalize_category_name (Some (normalize_category_name (Some raw)))
  = normalize_category_name (Some raw).
Proof.
  intros Hraw. unfold normalize_category_name at 1 3 4.
  destruct raw as [|c raw']; [congruence|]. simpl is_empty. cbv iota.
  intros HN. unfold normalize_category_name.
  destruct (capitalize (strip (String c raw'))) as [|d N'] eqn:E;
    [congruence|].
  simpl is_empty. cbv iota. rewrite <- E.
  rewrite strip_capitalize_strip. apply capitalize_idem.
Qed.

End PyStrFacts.

(** ** The categories stage and the category dictionary *)

Module CategoryFacts.
Import PyStr Normalizers Legacy Target Db Migration Invariants PyStrFacts.

Lemma map_category_mapped (raw N : string) (k : Z) (st : State) :
  category_map (map_category raw N k st) = mapped raw N k (category_map st).
Proof. unfold map_category, mapped. case_bool_decide; reflexivity. Qed.

Lemma map_category_db (raw N : string) (k : Z) (st : State) :
  new_db (map_category raw N k st) = new_db st.
Proof. unfold map_category. case_bool_decide; reflexivity. Qed.

Lemma mapped_lookup_N (raw N : string) (k : Z) (m : gmap string Z) :
  mapped raw N k m !! N = Some k.
Proof.
  unfold mapped. case_bool_decide.
  - rewrite lookup_insert_ne by assumption. apply lookup_insert_eq.
  - apply lookup_insert_eq.
Qed.

Lemma mapped_lookup_raw (raw N : string) (k : Z) (m : gmap string Z) :
  mapped raw N k m !! raw = Some k.
Proof.
  unfold mapped. case_bool_decide as H.
  - apply lookup_insert_eq.
  - subst. apply lookup_insert_eq.
Qed.

Lemma mapped_lookup_other (raw N : string) (k : Z) (m : gmap string Z)
    (key : string) :
  key <> raw -> key <> N -> mapped raw N k m !! key = m !! key.
Proof.
  intros H1 H2. unfold mapped. case_bool_decide;
    rewrite ?lookup_insert_ne by congruence; reflexivity.
Qed.

Lemma category_named_None (n : string) (s : Session) :
  category_named n s = None -> n ∉ c_name <$> product_categories (txn s).
Proof.
  unfold category_named. rewrite head_None. intros H Hin.
  apply list_elem_of_fmap in Hin as (c & -> & Hc).
  exact (filter_nil_not_elem_of _ _ c H eq_refl Hc).
Qed.

(** With nothing else pending, the flush of a category whose name is not in
    the table succeeds. *)
Lemma flush_new_category (s : Session) (c : ProductCategory) :
  pending s = [] ->
  c_name c ∉ c_name <$> product_categories (txn s) ->
  exists s', flush (add (OCategory c) s) = (s', None) /\ pending s' = [].
Proof.
  intros Hp Hc. unfold flush, add. simpl. rewrite Hp. simpl.
  change (flush_order [OCategory c]) with [OCategory c].
  simpl. rewrite (bool_decide_eq_false_2 _ Hc). simpl.
  eexists. split; reflexivity.
Qed.

Lemma commit_or_rollback_map (ok : option string) (err : string) (st : State) :
  category_map (commit_or_rollback ok err st) = category_map st.
Proof.
  unfold commit_or_rollback.
  destruct (commit (new_db st)) as [s [e|]]; [reflexivity|].
  destruct ok; reflexivity.
Qed.

Lemma commit_or_rollback_clean (ok : option string) (err : string)
    (st : State) :
  clean (commit_or_rollback ok err st).
Proof.
  unfold clean, commit_or_rollback, commit.
  destruct (flush (new_db st)) as [s [e|]]; [reflexivity|].
  destruct ok; reflexivity.
Qed.

End CategoryFacts.

Module CategorySteps.
Import PyStr Normalizers Legacy Target Db Migration Invariants PyStrFacts
  CategoryFacts.

(** The batch commit at the end of a turn touches neither the dictionary nor
    the cleanliness of the session. *)
Lemma batch_commit_facts (b : Z) (ok : option string) (err : string)
    (st : State) :
  clean st ->
  clean (if batch_full b st then commit_or_rollback ok err st else st)
  /\ category_map (if batch_full b st then commit_or_rollback ok err st
                   else st) = category_map st.
Proof.
  intros Hc. destruct (batch_full b st); [|split; [exact Hc|reflexivity]].
  split; [apply commit_or_rollback_clean|apply commit_or_rollback_map].
Qed.

(** A turn of the categories loop on a non-empty name: either the normalized
    name was in the dictionary and nothing changes, or it was not and the
    dictionary gets the assignments of [map_category] for some key [k]. *)
Lemma category_step_spec (b : Z) (st : State) (raw : string) :
  raw <> "" -> clean st ->
  let N := normalize_category_name (Some raw) in
  let st' := category_step b st (Some raw) in
  clean st'
  /\ ((is_Some (category_map st !! N) /\ category_map st' = category_map st)
      \/ (category_map st !! N = None
          /\ exists k, category_map st' = mapped raw N k (category_map st))).
Proof.
  intros Hraw Hc N st'. subst st'. unfold category_step.
  destruct raw as [|c raw']; [congruence|]. simpl is_empty. cbv iota.
  fold N. case_bool_decide as HN.
  - split; [exact Hc|]. left. split; [exact HN|reflexivity].
  - apply eq_None_not_Some in HN.
    change (category_map (count_processed st)) with (category_map st) in HN.
    unfold create_category.
    destruct (category_named N (new_db (count_processed st))) as [ex|] eqn:Eex.
    + match goal with
      | |- clean (if batch_full b ?x then _ else _) /\ _ =>
          destruct (batch_commit_facts b (Some "Commit de lote de categorías")
                      "Error en commit de lote de categorías" x) as [Hc' Hm']
      end.
      { unfold clean. cbn [new_db count_success]. rewrite map_category_db.
        exact Hc. }
      split; [exact Hc'|]. right. split; [exact HN|]. exists (c_id ex).
      rewrite Hm'.
      change (category_map (count_success 1 ?x)) with (category_map x).
      rewrite map_category_mapped. reflexivity.
    + destruct (flush_new_category (new_db (count_processed st))
                  (mkCategory 0 N (Some ("Categoría para " +:+ N))))
        as (s' & Hf & Hp'); [exact Hc|apply category_named_None, Eex|].
      rewrite Hf.
      match goal with
      | |- clean (if batch_full b ?x then _ else _) /\ _ =>
          destruct (batch_commit_facts b (Some "Commit de lote de categorías")
                      "Error en commit de lote de categorías" x) as [Hc' Hm']
      end.
      { unfold clean. cbn [new_db count_success]. rewrite map_category_db.
        exact Hp'. }
      split; [exact Hc'|]. right. split; [exact HN|].
      exists (seq_categories (sequences s')). rewrite Hm'.
      change (category_map (count_success 1 ?x)) with (category_map x).
      rewrite map_category_mapped. reflexivity.
Qed.

(** A turn on an absent or empty name only logs. *)
Lemma category_step_skip (b : Z) (st : State) (x : option string) :
  falsy x = true ->
  new_db (category_step b st x) = new_db st
  /\ category_map (category_step b st x) = category_map st.
Proof.
  unfold category_step. destruct x as [raw|]; simpl; [|split; reflexivity].
  intros ->. split; reflexivity.
Qed.

Lemma mapped_agrees (raw : string) (k : Z) (m : gmap string Z) :
  raw <> "" ->
  m !! normalize_category_name (Some raw) = None ->
  agrees m ->
  agrees (mapped raw (normalize_category_name (Some raw)) k m).
Proof.
  intros Hraw HN HJ key v Hkey Hl.
  set (N := normalize_category_name (Some raw)) in *.
  destruct (decide (key = raw)) as [->|Hkr].
  { rewrite mapped_lookup_raw in Hl. fold N. rewrite mapped_lookup_N.
    exact Hl. }
  destruct (decide (key = N)) as [->|HkN].
  { rewrite mapped_lookup_N in Hl.
    assert (EN : normalize_category_name (Some N) = N)
      by (apply normalize_category_name_idem; assumption).
    rewrite EN, mapped_lookup_N. exact Hl. }
  rewrite mapped_lookup_other in Hl by assumption.
  pose proof (HJ key v Hkey Hl) as Hn.
  rewrite mapped_lookup_other; [exact Hn| |congruence].
  intros E. destruct (decide (raw = N)) as [EN|NE]; [congruence|].
  apply NE. rewrite <- E. unfold N. rewrite <- E.
  symmetry. apply normalize_category_name_idem; [exact Hkey|].
  rewrite E. exact Hraw.
Qed.

End CategorySteps.

Module CategoryClaims.
Import PyStr Normalizers Legacy Target Db Migration Invariants PyStrFacts
  CategoryFacts CategorySteps.

(** One turn keeps the session clean, keeps the dictionary in agreement and
    keeps every entry it had. *)
Lemma category_step_keeps (b : Z) (st : State) (x : option string) :
  clean st -> agrees (category_map st) ->
  let st' := category_step b st x in
  clean st' /\ agrees (category_map st')
  /\ forall key v, category_map st !! key = Some v ->
                   category_map st' !! key = Some v.
Proof.
  intros Hc HJ st'. subst st'.
  destruct (falsy x) eqn:Hx.
  { destruct (category_step_skip b st x Hx) as [Hdb Hm].
    unfold clean. rewrite Hdb, Hm. auto. }
  destruct x as [raw|]; [|discriminate].
  assert (Hraw : raw <> "") by (intros ->; discriminate).
  destruct (category_step_spec b st raw Hraw Hc)
    as [Hc' [[_ Hm]|[HN [k Hm]]]]; rewrite Hm.
  { auto. }
  split; [exact Hc'|]. split; [apply mapped_agrees; assumption|].
  intros key v Hl. rewrite mapped_lookup_other; [exact Hl| |congruence].
  intros ->. apply HJ in Hl; [congruence|exact Hraw].
Qed.

Lemma categories_loop_keeps (b : Z) (rows : list (option string))
    (st : State) :
  clean st -> agrees (category_map st) ->
  let st' := fold_left (category_step b) rows st in
  clean st' /\ agrees (category_map st')
  /\ forall key v, category_map st !! key = Some v ->
                   category_map st' !! key = Some v.
Proof.
  revert st. induction rows as [|x rows IH]; intros st Hc HJ; simpl.
  { auto. }
  destruct (category_step_keeps b st x Hc HJ) as (Hc1 & HJ1 & Hk1).
  destruct (IH _ Hc1 HJ1) as (Hc2 & HJ2 & Hk2). auto.
Qed.

(** After a turn on a non-empty name, its normalized form is a key. *)
Lemma category_step_maps_normalized (b : Z) (st : State) (raw : string) :
  raw <> "" -> clean st ->
  is_Some (category_map (category_step b st (Some raw))
             !! normalize_category_name (Some raw)).
Proof.
  intros Hraw Hc.
  destruct (category_step_spec b st raw Hraw Hc)
    as [_ [[HN Hm]|[_ [k Hm]]]]; rewrite Hm; [exact HN|].
  rewrite mapped_lookup_N. eauto.
Qed.

Lemma categories_loop_maps_normalized (b : Z) (rows : list (option string))
    (st : State) (raw : string) :
  clean st -> agrees (category_map st) ->
  Some raw ∈ rows -> raw <> "" ->
  is_Some (category_map (fold_left (category_step b) rows st)
             !! normalize_category_name (Some raw)).
Proof.
  revert st. induction rows as [|x rows IH]; intros st Hc HJ Hin Hraw.
  { apply elem_of_nil in Hin. destruct Hin. }
  destruct (category_step_keeps b st x Hc HJ) as (Hc1 & HJ1 & _).
  apply elem_of_cons in Hin as [<-|Hin]; simpl.
  - destruct (category_step_maps_normalized b st raw Hraw Hc) as [k Hk].
    exists k. apply (categories_loop_keeps b rows _ Hc1 HJ1). exact Hk.
  - apply IH; assumption.
Qed.

(** Names that normalize to something else leave a normalized form out of
    the dictionary. *)
Lemma categories_loop_leaves_out (b : Z) (pre : list (option string))
    (st : State) (raw : string) :
  clean st -> raw <> "" ->
  category_map st !! normalize_category_name (Some raw) = None ->
  (forall r, Some r ∈ pre ->
     normalize_category_name (Some r) <> normalize_category_name (Some raw)) ->
  let st' := fold_left (category_step b) pre st in
  clean st' /\ category_map st' !! normalize_category_name (Some raw) = None.
Proof.
  set (N := normalize_category_name (Some raw)).
  revert st. induction pre as [|x pre IH]; intros st Hc Hraw HN Hpre; simpl.
  { auto. }
  apply IH; try assumption.
  - destruct (falsy x) eqn:Hx.
    { unfold clean. rewrite (proj1 (category_step_skip b st x Hx)). exact Hc. }
    destruct x as [r|]; [|discriminate].
    apply category_step_spec; [intros ->; discriminate|exact Hc].
  - destruct (falsy x) eqn:Hx.
    { rewrite (proj2 (category_step_skip b st x Hx)). exact HN. }
    destruct x as [r|]; [|discriminate].
    assert (Hr : r <> "") by (intros ->; discriminate).
    assert (Hne : normalize_category_name (Some r) <> N)
      by (apply Hpre; left).
    destruct (category_step_spec b st r Hr Hc)
      as [_ [[_ Hm]|[_ [k Hm]]]]; rewrite Hm; [exact HN|].
    rewrite mapped_lookup_other; [exact HN| |congruence].
    intros E. apply Hne. rewrite <- E.
    apply normalize_category_name_idem; [exact Hraw|].
    fold N. rewrite E. exact Hr.
  - intros r Hin. apply Hpre. right. exact Hin.
Qed.

Lemma agrees_empty : agrees ∅.
Proof. intros key v _ H. rewrite lookup_empty in H. discriminate. Qed.

(** C8, as the claim states it: a processed name is not always a key under
    its raw form. "electronics", read after "Electronics", finds its
    normalized form mapped and is skipped before any assignment. *)
Lemma later_variant_raw_form_missing :
  let m := category_map
             (migrate_categories_rows BATCH_SIZE
                [Some "Electronics"; Some "electronics"]
                (new_process fresh_session 0)) in
  normalize_category_name (Some "electronics") = "Electronics"
  /\ m !! "Electronics" = Some 1
  /\ m !! "electronics" = None.
Proof. vm_compute. repeat split; reflexivity. Qed.

(** C8, amended. After the categories stage, run by a new process on a
    session with nothing pending, over legacy names that are ASCII text:
    every non-empty legacy name processed is a key of the category
    dictionary under its normalized form; every
    non-empty key of the dictionary, raw or normalized, carries the
    identifier of its normalized form, so that names that normalize alike
    resolve to one identifier; the raw form is a key, with that identifier,
    for a name that no name read before it normalizes like (the raw form of
    a later variant is not added). "electronics", "Electronics" and
    " Electronics " all normalize to "Electronics". *)
Theorem category_map_after_stage (batch_size : Z)
    (rows : list (option string)) (st : State)
    (Hclean : pending (new_db st) = [])
    (Hnew : category_map st = ∅)
    (Hascii : forall raw, Some raw ∈ rows -> ascii_text raw = true) :
  let m := category_map (migrate_categories_rows batch_size rows st) in
  (forall raw, Some raw ∈ rows -> raw <> "" ->
     is_Some (m !! normalize_category_name (Some raw)))
  /\ (forall raw k, raw <> "" -> m !! raw = Some k ->
        m !! normalize_category_name (Some raw) = Some k)
  /\ (forall pre raw post,
        rows = (pre ++ Some raw :: post)%list -> raw <> "" ->
        (forall r, Some r ∈ pre ->
           normalize_category_name (Some r)
           <> normalize_category_name (Some raw)) ->
        is_Some (m !! raw)
        /\ m !! raw = m !! normalize_category_name (Some raw))
  /\ normalize_category_name (Some "electronics") = "Electronics"
  /\ normalize_category_name (Some "Electronics") = "Electronics"
  /\ normalize_category_name (Some " Electronics ") = "Electronics".
Proof.
  intros m. subst m. unfold migrate_categories_rows.
  change (category_map (logger ?l ?msg ?r ?x)) with (category_map x).
  rewrite commit_or_rollback_map.
  set (st0 := logger INFO "Iniciando migración de categorías de productos"
                NoRef (reset_counters st)).
  assert (Hc0 : clean st0) by exact Hclean.
  assert (HJ0 : agrees (category_map st0)).
  { change (category_map st0) with (category_map st). rewrite Hnew.
    exact agrees_empty. }
  split; [|split; [|split]].
  - intros raw Hin Hraw.
    apply categories_loop_maps_normalized; assumption.
  - intros raw k Hraw Hl.
    destruct (categories_loop_keeps batch_size rows st0 Hc0 HJ0)
      as (_ & HJ & _).
    apply HJ; assumption.
  - intros pre raw post -> Hraw Hpre. rewrite fold_left_app.
    cbn [fold_left].
    destruct (categories_loop_keeps batch_size pre st0 Hc0 HJ0)
      as (Hc1 & HJ1 & _).
    destruct (categories_loop_leaves_out batch_size pre st0 raw Hc0 Hraw)
      as [_ HN1]; [|exact Hpre|].
    { change (category_map st0) with (category_map st). rewrite Hnew.
      apply lookup_empty. }
    set (st1 := fold_left (category_step batch_size) pre st0) in *.
    destruct (category_step_keeps batch_size st1 (Some raw) Hc1 HJ1)
      as (Hc2 & HJ2 & _).
    destruct (category_step_spec batch_size st1 raw Hraw Hc1)
      as [_ [[HN _]|[_ [k Hm]]]].
    { rewrite HN1 in HN. destruct HN as [? HN]. discriminate HN. }
    destruct (categories_loop_keeps batch_size post _ Hc2 HJ2)
      as (_ & _ & Hkeep).
    rewrite (Hkeep raw k) by (rewrite Hm; apply mapped_lookup_raw).
    rewrite (Hkeep (normalize_category_name (Some raw)) k)
      by (rewrite Hm; apply mapped_lookup_N).
    split; [eauto|reflexivity].
  - repeat split; reflexivity.
Qed.

Lemma category_map_after_stage_witness :
  let rows := [Some "electronics"; Some "Electronics"; Some " Electronics "] in
  let m := category_map
             (migrate_categories_rows BATCH_SIZE rows
                (new_process fresh_session 0)) in
  (forall raw, Some raw ∈ rows -> raw <> "" ->
     is_Some (m !! normalize_category_name (Some raw)))
  /\ (forall raw k, raw <> "" -> m !! raw = Some k ->
        m !! normalize_category_name (Some raw) = Some k)
  /\ (forall pre raw post,
        rows = (pre ++ Some raw :: post)%list -> raw <> "" ->
        (forall r, Some r ∈ pre ->
           normalize_category_name (Some r)
           <> normalize_category_name (Some raw)) ->
        is_Some (m !! raw)
        /\ m !! raw = m !! normalize_category_name (Some raw))
  /\ normalize_category_name (Some "electronics") = "Electronics"
  /\ normalize_category_name (Some "Electronics") = "Electronics"
  /\ normalize_category_name (Some " Electronics ") = "Electronics".
Proof.
  apply (category_map_after_stage BATCH_SIZE
           [Some "electronics"; Some "Electronics"; Some " Electronics "]
           (new_process fresh_session 0)).
  - reflexivity.
  - reflexivity.
  - intros raw Hin. apply list_elem_of_In in Hin. simpl in Hin.
    destruct Hin as [[= <-]|[[= <-]|[[= <-]|[]]]]; reflexivity.
Defined.

(** The three spellings of the specification resolve to the one category
    row the stage creates. *)
Example electronics_single_identifier :
  let st := migrate_categories_rows BATCH_SIZE
              [Some "electronics"; Some "Electronics"; Some " Electronics "]
              (new_process fresh_session 0) in
  (λ n, category_map st !! normalize_category_name (Some n))
    <$> ["electronics"; "Electronics"; " Electronics "]
  = [Some 1; Some 1; Some 1]
  /\ c_name <$> product_categories (committed (new_db st)) = ["Electronics"].
Proof. vm_compute. split; reflexivity. Qed.

End CategoryClaims.

(** ** The order whose product is unknown, at any batch size *)

Module OrderFacts.
Import Legacy Target Db Normalizers Migration Invariants.

Lemma head_filter_elem {A} (P : A -> Prop) `{!∀ x, Decision (P x)} (l : list A) (x : A) :
  head (filter P l) = Some x -> x ∈ l /\ P x.
Proof.
  intros Hh. apply head_Some_elem_of in Hh. apply list_elem_of_filter in Hh. tauto.
Qed.

Lemma head_filter_is_Some {A} (P : A -> Prop) `{!∀ x, Decision (P x)} (l : list A) (x : A) :
  x ∈ l -> P x -> is_Some (head (filter P l)).
Proof.
  intros Hin HP. destruct (head (filter P l)) eqn:E; [eauto|].
  apply head_None in E. exfalso.
  exact (filter_nil_not_elem_of _ _ x E HP Hin).
Qed.

(** With nothing else pending, the flush of an order whose user and addresses
    are rows of the transaction succeeds and adds the order's row. *)
Lemma flush_new_order (s : Session) (o : Order) :
  pending s = [] ->
  has_user (txn s) (o_user_id o) = true ->
  has_address (txn s) (o_shipping_address_id o) = true ->
  (forall b, o_billing_address_id o = Some b -> has_address (txn s) b = true) ->
  exists s',
    flush (add (OOrder o) s) = (s', None)
    /\ pending s' = [] /\ committed s' = committed s
    /\ orders (txn s')
       = (orders (txn s)
          ++ [mkOrder (seq_orders (sequences s')) (o_user_id o) (o_order_date o)
                (o_status o) (o_shipping_address_id o) (o_billing_address_id o)])%list
    /\ order_items (txn s') = order_items (txn s).
Proof.
  intros Hp Hu Ha Hb. unfold flush, add. simpl. rewrite Hp. simpl.
  change (flush_order [OOrder o]) with [OOrder o].
  simpl. rewrite Hu, Ha. simpl.
  destruct (o_billing_address_id o) as [b|] eqn:Eb.
  - rewrite (Hb b eq_refl). simpl. eexists. repeat split; reflexivity.
  - simpl. eexists. repeat split; reflexivity.
Qed.


Lemma default_head_filter_elem {A} (P : A -> Prop) `{!∀ x, Decision (P x)}
    (l : list A) (d : A) :
  d ∈ l -> default d (head (filter P l)) ∈ l.
Proof.
  intros Hd. destruct (head (filter P l)) as [x|] eqn:E; simpl; [|exact Hd].
  apply (head_filter_elem P l x E).
Qed.

(** The [try] block on an order whose product is in no dictionary, at a
    position that is not the end of a batch: the order's row stays in the
    transaction, nothing is pending, the order is not counted. *)
Lemma order_try_unresolved (b : Z) (o : OldOrder) (u : User)
    (ship bill : Address) (date : datetime) (status : OrderStatusEnum)
    (st : State) :
  clean st ->
  has_user (txn (new_db st)) (u_id u) = true ->
  has_address (txn (new_db st)) (a_id ship) = true ->
  has_address (txn (new_db st)) (a_id bill) = true ->
  lookup_product (oo_product_name_redundant o) st = None ->
  batch_full b st = false ->
  exists st' row,
    order_try b o u ship bill date status st = (st', None)
    /\ orders (txn (new_db st')) = (orders (txn (new_db st)) ++ [row])%list
    /\ o_user_id row = u_id u
    /\ order_items (txn (new_db st')) = order_items (txn (new_db st))
    /\ pending (new_db st') = []
    /\ committed (new_db st') = committed (new_db st)
    /\ success_count st' = success_count st.
Proof.
  intros Hc Hu Hs Hb Hprod Hfull. unfold order_try.
  destruct (flush_new_order (new_db st)
              (mkOrder 0 (u_id u) date status (a_id ship) (Some (a_id bill))))
    as (s' & Hf & Hp & Hcm & Ho & Hi); try assumption.
  { simpl. intros k [= <-]. exact Hb. }
  rewrite Hf.
  change (lookup_product (oo_product_name_redundant o)
            (count_success 1 (with_db s' st)))
    with (lookup_product (oo_product_name_redundant o) st).
  rewrite Hprod. rewrite bool_decide_eq_false_2 by discriminate.
  change (batch_full b (logger ?l ?m ?r (count_success ?d (with_db ?x
            (logger ?l2 ?m2 ?r2 (count_success ?d2 (with_db s' st)))))))
    with (batch_full b st).
  rewrite Hfull.
  eexists _, _. split; [reflexivity|].
  cbn [new_db logger count_success with_db txn expunge pending committed
       success_count].
  rewrite Ho, Hi, Hp, Hcm. simpl. repeat split; try reflexivity. lia.
Qed.

(** A turn of the orders loop on an order whose user and address resolve and
    whose product name is in no dictionary, at any batch size [b] and any
    position that is not a multiple of [b]: the Order row is left in the
    open transaction, for the next commit to make durable. *)
Lemma unresolved_product_keeps_order
    (strptime : string -> string -> option datetime) (now : datetime)
    (b : Z) (by_username : gmap string User) (st : State) (o : OldOrder)
    (n : string) (u : User) :
  clean st ->
  oo_user_identifier_text o = Some n ->
  by_username !! n = Some u ->
  u_id u ∈ u_id <$> users (txn (new_db st)) ->
  (exists a, a ∈ addresses (txn (new_db st)) /\ a_user_id a = u_id u) ->
  lookup_product (oo_product_name_redundant o) st = None ->
  (processed_count st + 1) mod b <> 0 ->
  let st' := order_step strptime now b by_username st o in
  exists row,
    orders (txn (new_db st')) = (orders (txn (new_db st)) ++ [row])%list
    /\ o_user_id row = u_id u
    /\ order_items (txn (new_db st')) = order_items (txn (new_db st))
    /\ pending (new_db st') = []
    /\ committed (new_db st') = committed (new_db st)
    /\ success_count st' = success_count st.
Proof.
  intros Hc Hn Hu Huser (a & Ha & Hau) Hprod Hpos st'. subst st'.
  unfold order_step. rewrite Hn. simpl. rewrite Hu.
  unfold user_with_addresses.
  change (new_db (count_processed st)) with (new_db st).
  assert (Hk : is_Some (user_with_id (txn (new_db st)) (u_id u))).
  { apply list_elem_of_fmap in Huser as (u' & Eu & Hu').
    apply (head_filter_is_Some _ _ u'); [exact Hu'|symmetry; exact Eu]. }
  destruct Hk as [u' Hk]. rewrite Hk. simpl.
  destruct (filter (λ a0, a_user_id a0 = u_id u) (addresses (txn (new_db st))))
    as [|a1 rest] eqn:Ef.
  { exfalso. exact (filter_nil_not_elem_of _ _ a Ef Hau Ha). }
  assert (Hin1 : a1 ∈ a1 :: rest) by left.
  set (ship := default a1 (head (filter (λ a0, a_is_default_shipping a0 = true)
                                   (a1 :: rest)))).
  assert (Hship : ship ∈ a1 :: rest)
    by (apply default_head_filter_elem; exact Hin1).
  set (bill := default ship (head (filter (λ a0, a_is_default_billing a0 = true)
                                     (a1 :: rest)))).
  assert (Hbill : bill ∈ a1 :: rest)
    by (apply default_head_filter_elem; exact Hship).
  assert (Haddr : forall x, x ∈ a1 :: rest ->
            has_address (txn (new_db st)) (a_id x) = true).
  { intros x Hx. rewrite <- Ef in Hx. apply list_elem_of_filter in Hx as [_ Hx].
    apply bool_decide_eq_true_2, list_elem_of_fmap. eauto. }
  assert (Huser' : has_user (txn (new_db st)) (u_id u) = true)
    by (apply bool_decide_eq_true_2; exact Huser).
  assert (Hfull : forall st0, processed_count st0 = processed_count st + 1 ->
            batch_full b st0 = false).
  { intros st0 E. unfold batch_full. rewrite E. apply Z.eqb_neq. exact Hpos. }
  destruct (parse_datetime_flexible strptime (oo_order_date_str o) _)
    as [d|].
  - destruct (order_try_unresolved b o u ship bill d
                (map_order_status (oo_status_text o)) (count_processed st))
      as (st' & row & Ht & Hrest); auto.
    rewrite Ht. exists row. exact Hrest.
  - destruct (order_try_unresolved b o u ship bill now
                (map_order_status (oo_status_text o))
                (logger WARNING "Usando fecha actual para pedido"
                   (RefId (oo_id o)) (count_processed st)))
      as (st' & row & Ht & Hrest); auto.
    rewrite Ht. exists row. exact Hrest.
Qed.

(** With nothing pending, a commit makes the rows of the transaction
    durable. *)
Lemma commit_clean (s : Session) :
  pending s = [] ->
  commit s = (mkSession (txn s) (txn s) [] (sequences s), None).
Proof.
  intros Hp. unfold commit, flush. rewrite Hp. reflexivity.
Qed.

(** When that order is the last one read, the final commit of the stage
    makes its row durable, without any item. *)
Lemma unresolved_product_order_durable
    (strptime : string -> string -> option datetime) (now : datetime)
    (b : Z) (by_username : gmap string User) (st : State) (o : OldOrder)
    (n : string) (u : User) :
  clean st ->
  oo_user_identifier_text o = Some n ->
  by_username !! n = Some u ->
  u_id u ∈ u_id <$> users (txn (new_db st)) ->
  (exists a, a ∈ addresses (txn (new_db st)) /\ a_user_id a = u_id u) ->
  lookup_product (oo_product_name_redundant o) st = None ->
  (processed_count st + 1) mod b <> 0 ->
  let st' := commit_or_rollback None "Error en commit final de pedidos/ítems"
               (order_step strptime now b by_username st o) in
  exists row,
    orders (committed (new_db st'))
    = (orders (txn (new_db st)) ++ [row])%list
    /\ o_user_id row = u_id u
    /\ order_items (committed (new_db st')) = order_items (txn (new_db st)).
Proof.
  intros Hc Hn Hu Huser Haddr Hprod Hpos st'. subst st'.
  destruct (unresolved_product_keeps_order strptime now b by_username st o n u
              Hc Hn Hu Huser Haddr Hprod Hpos)
    as (row & Ho & Hrow & Hi & Hp & _).
  exists row. unfold commit_or_rollback. rewrite (commit_clean _ Hp).
  cbn [new_db with_db committed]. auto.
Qed.

End OrderFacts.

(** ** More on the field normalizers *)

Module NormalizerExtras.
Import PyStr PyRe Normalizers AddressParser Shapes PyStrFacts.

Lemma filter_chars_app (keep : ascii -> bool) (a b : string) :
  filter_chars keep (a +:+ b) = filter_chars keep a +:+ filter_chars keep b.
Proof.
  induction a as [|c a IH]; simpl; [reflexivity|].
  destruct (keep c); simpl; rewrite IH; reflexivity.
Qed.

Lemma filter_chars_id (keep : ascii -> bool) (s : string) :
  all_chars keep s = true -> filter_chars keep s = s.
Proof.
  induction s as [|c s IH]; simpl; [reflexivity|].
  intros [Hc Hs]%andb_true_iff. rewrite Hc, (IH Hs). reflexivity.
Qed.

Lemma is_empty_app (a b : string) :
  is_empty (a +:+ b) = is_empty a && is_empty b.
Proof. destruct a; reflexivity. Qed.

Lemma digits_value_nonneg (s : string) (acc v : Z) :
  0 <= acc -> digits_value acc s = Some v -> 0 <= v.
Proof.
  revert acc. induction s as [|c s IH]; simpl; intros acc Hacc H.
  - injection H as <-. exact Hacc.
  - destruct (is_digit c); [|discriminate].
    apply (IH (10 * acc + Z.of_N (code c - 48))); [lia|exact H].
Qed.

(** X1. [parse_datetime_flexible] returns the parse of the first format of the
    list that accepts the trimmed text: it gives [d] exactly when the text is
    not empty and some format gives [d] while every format before it fails. *)
Theorem parse_datetime_first_match
    (strptime : string -> string -> option datetime)
    (s : string) (formats : list string) (d : datetime) :
  parse_datetime_flexible strptime (Some s) formats = Some d
  <-> s <> ""
      /\ exists before fmt after,
           formats = (before ++ fmt :: after)%list
           /\ (forall f, f ∈ before -> strptime (strip s) f = None)
           /\ strptime (strip s) fmt = Some d.
Proof.
  unfold parse_datetime_flexible.
  destruct s as [|c s']; simpl is_empty; cbv iota.
  { split; [discriminate|intros [H _]; congruence]. }
  set (s := String c s').
  split.
  - intros H. split; [discriminate|].
    induction formats as [|f formats IH]; [discriminate|].
    simpl in H. destruct (strptime (strip s) f) as [d'|] eqn:E.
    + injection H as <-. exists [], f, formats. split; [reflexivity|].
      split; [intros ? Hin; apply elem_of_nil in Hin; destruct Hin|exact E].
    + destruct (IH H) as (before & fmt & after & -> & Hb & Hf).
      exists (f :: before), fmt, after. split; [reflexivity|].
      split; [|exact Hf].
      intros g [->|Hg]%elem_of_cons; [exact E|apply Hb, Hg].
  - intros [_ (before & fmt & after & -> & Hb & Hf)].
    induction before as [|f before IH]; simpl.
    + rewrite Hf. reflexivity.
    + rewrite (Hb f) by left. apply IH.
      intros g Hg. apply Hb. right. exact Hg.
Qed.

(** X2. A price [extract_price_decimal] returns is never negative: its
    coefficient is at least zero and its exponent at most zero. *)
Theorem extract_price_decimal_nonneg (price_str : option string) (d : Decimal) :
  extract_price_decimal price_str = Some d ->
  0 <= coefficient d /\ exponent d <= 0.
Proof.
  unfold extract_price_decimal.
  destruct price_str as [s|]; [|discriminate].
  destruct (is_empty s); [discriminate|].
  destruct (is_empty (filter_chars price_char s)); [discriminate|].
  unfold Decimal_of_str.
  destruct (split_parts "." (split_parts "-" (filter_chars price_char s)).1)
    as [int_part rest].
  destruct rest as [|frac_part [|? ?]]; [| |discriminate].
  - destruct (is_empty int_part); [discriminate|].
    destruct (digits_value 0 int_part) as [v|] eqn:E; [|discriminate].
    simpl. intros [= <-]. simpl.
    split; [apply (digits_value_nonneg int_part 0 v); [lia|exact E]|lia].
  - destruct (is_empty (int_part +:+ frac_part)); [discriminate|].
    destruct (digits_value 0 (int_part +:+ frac_part)) as [v|] eqn:E;
      [|discriminate].
    simpl. intros [= <-]. simpl.
    split; [apply (digits_value_nonneg (int_part +:+ frac_part) 0 v);
            [lia|exact E]|lia].
Qed.

Lemma extract_price_decimal_nonneg_witness :
  0 <= coefficient (mkDecimal 2599 (-2)) /\ exponent (mkDecimal 2599 (-2)) <= 0.
Proof.
  apply (extract_price_decimal_nonneg (Some "25.99 USD")). reflexivity.
Defined.

(** X3. A character that is not a digit, a point or a dash does not count,
    wherever it stands in the price text. *)
Theorem extract_price_decimal_ignores (a b : string) (c : ascii) :
  price_char c = false ->
  extract_price_decimal (Some (a +:+ String c b))
  = extract_price_decimal (Some (a +:+ b)).
Proof.
  intros Hc. unfold extract_price_decimal.
  rewrite !filter_chars_app. simpl. rewrite Hc.
  rewrite !is_empty_app. simpl. rewrite andb_false_r.
  destruct (is_empty a && is_empty b) eqn:E; [|reflexivity].
  apply andb_true_iff in E as [Ea Eb].
  destruct a; [|discriminate]. destruct b; [|discriminate]. reflexivity.
Qed.

Lemma extract_price_decimal_ignores_witness :
  extract_price_decimal (Some ("25.99" +:+ String " " "USD"))
  = extract_price_decimal (Some ("25.99" +:+ "USD")).
Proof. apply (extract_price_decimal_ignores "25.99" "USD" " "). reflexivity. Defined.

Lemma split_parts_first (sep : ascii) (a b : string) :
  all_chars (fun c => negb (eqb_char c sep)) a = true ->
  (split_parts sep (a +:+ String sep b)).1 = a.
Proof.
  induction a as [|c a IH]; simpl.
  - intros _. destruct (split_parts sep b).
    unfold eqb_char. rewrite N.eqb_refl. reflexivity.
  - intros [Hc Ha]%andb_true_iff. specialize (IH Ha).
    destruct (split_parts sep (a +:+ String sep b)) as [h t]. simpl in IH.
    apply negb_true_iff in Hc. rewrite Hc. simpl. rewrite IH. reflexivity.
Qed.

Lemma all_chars_impl (p q : ascii -> bool) (s : string) :
  (forall c, p c = true -> q c = true) ->
  all_chars p s = true -> all_chars q s = true.
Proof.
  intros Hpq. induction s as [|c s IH]; simpl; [reflexivity|].
  intros [Hc Hs]%andb_true_iff. rewrite (Hpq c Hc), (IH Hs). reflexivity.
Qed.

Lemma digit_or_point_not_dash (c : ascii) :
  is_digit c || eqb_char c "." = true -> negb (eqb_char c "-") = true.
Proof. destruct c as [[] [] [] [] [] [] [] []]; vm_compute; congruence. Qed.

(** X4. Of a range, the first number is taken: when the text starts with a
    run of digits and points followed by a dash, the result is the value of
    that run alone, whatever follows the dash. *)
Theorem extract_price_decimal_range (low rest : string) :
  low <> "" ->
  all_chars (fun c => is_digit c || eqb_char c ".") low = true ->
  extract_price_decimal (Some (low +:+ "-" +:+ rest)) = Decimal_of_str low.
Proof.
  intros Hne Hlow. unfold extract_price_decimal.
  assert (El : is_empty low = false) by (destruct low; [congruence|reflexivity]).
  assert (Hp : all_chars price_char low = true).
  { apply (all_chars_impl _ price_char low) in Hlow; [exact Hlow|].
    intros x Hx. unfold price_char. rewrite Hx. reflexivity. }
  assert (Hd : all_chars (fun x => negb (eqb_char x "-")) low = true).
  { apply (all_chars_impl _ (fun x => negb (eqb_char x "-")) low) in Hlow;
      [exact Hlow|apply digit_or_point_not_dash]. }
  rewrite is_empty_app, El. cbn [andb].
  rewrite filter_chars_app, (filter_chars_id price_char low Hp).
  change (filter_chars price_char ("-" +:+ rest))
    with (String "-" (filter_chars price_char rest)).
  rewrite is_empty_app, El. cbn [andb].
  rewrite (split_parts_first "-" low _ Hd). reflexivity.
Qed.

Lemma extract_price_decimal_range_witness :
  extract_price_decimal (Some ("10.99" +:+ "-" +:+ "12.99 EUR"))
  = Decimal_of_str "10.99".
Proof.
  apply (extract_price_decimal_range "10.99" "12.99 EUR");
    [discriminate|reflexivity].
Defined.

Lemma to_lower_to_upper (c : ascii) : to_lower (to_upper c) = to_lower c.
Proof. destruct c as [[] [] [] [] [] [] [] []]; reflexivity. Qed.

Lemma lower_upper (s : string) : lower (upper s) = lower s.
Proof.
  unfold lower, upper. induction s as [|c s IH]; simpl; [reflexivity|].
  rewrite to_lower_to_upper, IH. reflexivity.
Qed.

Lemma lstrip_lower (s : string) : lstrip (lower s) = lower (lstrip s).
Proof.
  unfold lower. induction s as [|c s IH]; simpl; [reflexivity|].
  rewrite is_space_to_lower. destruct (is_space c); [exact IH|reflexivity].
Qed.

Lemma strip_lower (s : string) : strip (lower s) = lower (strip s).
Proof. unfold strip. rewrite lstrip_lower, rstrip_lower. reflexivity. Qed.

Lemma strip_idem (s : string) : strip (strip s) = strip s.
Proof.
  destruct (strip_shape s) as [E|(c & r & E & Hc & Hr)]; rewrite E;
    [reflexivity|].
  unfold strip. simpl. rewrite Hc. simpl. rewrite Hc, andb_false_r, Hr.
  reflexivity.
Qed.

(** The canonical form [map_order_status] looks up is a fixed point of the
    canonicalization. *)
Lemma status_key_idem (s : string) :
  strip (lower (strip (lower s))) = strip (lower s).
Proof. rewrite (strip_lower (strip (lower s))), strip_idem, <- strip_lower,
         lower_idem. reflexivity. Qed.

(** X5. On ASCII text [map_order_status] does not see letter case or
    surrounding white space: a text, its upper-cased form and its
    lower-cased, trimmed form have the same status. *)
Theorem map_order_status_insensitive (s : string)
    (Hascii : ascii_text s = true) :
  map_order_status (Some (upper s)) = map_order_status (Some s)
  /\ map_order_status (Some (strip (lower s))) = map_order_status (Some s).
Proof.
  assert (Hempty : forall t, is_empty t = true -> strip (lower t) = "").
  { intros [|? ?]; [reflexivity|discriminate]. }
  assert (Hkey : forall a b, strip (lower a) = strip (lower b) ->
            map_order_status (Some a) = map_order_status (Some b)).
  { intros a b E. unfold map_order_status.
    destruct (is_empty a) eqn:Ea, (is_empty b) eqn:Eb; try reflexivity.
    - rewrite <- E, (Hempty a Ea). reflexivity.
    - rewrite E, (Hempty b Eb). reflexivity.
    - rewrite E. reflexivity. }
  split; apply Hkey.
  - rewrite lower_upper. reflexivity.
  - apply status_key_idem.
Qed.

Lemma map_order_status_insensitive_witness :
  map_order_status (Some (upper " Delivered "))
  = map_order_status (Some " Delivered ")
  /\ map_order_status (Some (strip (lower " Delivered ")))
     = map_order_status (Some " Delivered ").
Proof.
  refine (map_order_status_insensitive " Delivered " _). reflexivity.
Defined.

(** X6. What [normalize_category_name] returns for an ASCII name, or for an
    absent one, is in canonical form - trimming it or capitalizing it again
    changes nothing - and normalizing it again gives it back, unless it is
    the empty name of a text of white space only, which is then sent to
    "Unknown". *)
Theorem normalize_category_name_canonical (name : option string)
    (Hascii : forall s, name = Some s -> ascii_text s = true) :
  let N := normalize_category_name name in
  strip N = N
  /\ capitalize N = N
  /\ normalize_category_name (Some N) = if is_empty N then "Unknown" else N.
Proof.
  intros N.
  assert (H : strip N = N /\ capitalize N = N).
  { subst N. unfold normalize_category_name.
    destruct name as [s|]; [|split; reflexivity].
    destruct (is_empty s); [split; reflexivity|].
    split; [apply strip_capitalize_strip|apply capitalize_idem]. }
  destruct H as [Hs Hc]. repeat split; [exact Hs|exact Hc|].
  unfold normalize_category_name at 1.
  destruct (is_empty N); [reflexivity|]. rewrite Hs. exact Hc.
Qed.

Lemma normalize_category_name_canonical_witness :
  let N := normalize_category_name (Some " home GOODS ") in
  strip N = N
  /\ capitalize N = N
  /\ normalize_category_name (Some N) = if is_empty N then "Unknown" else N.
Proof.
  refine (normalize_category_name_canonical (Some " home GOODS ") _).
  intros s [= <-]. reflexivity.
Defined.

Lemma take_class_spec (p : ascii -> bool) (n : nat) (s d r : string) :
  take_class p n s = Some (d, r) ->
  String.length d = n /\ all_chars p d = true.
Proof.
  revert s d r. induction n as [|n IH]; simpl; intros s d r H.
  - injection H as <- _. split; reflexivity.
  - destruct s as [|c s]; [discriminate|].
    destruct (p c) eqn:Hc; [|discriminate].
    destruct (take_class p n s) as [[d' r']|] eqn:E; [|discriminate].
    injection H as <- _. destruct (IH _ _ _ E) as [Hl Ha].
    simpl. rewrite Hl, Hc, Ha. split; reflexivity.
Qed.

Lemma search_from_here (here : string -> option string) (prev : bool)
    (s m : string) :
  search_from here prev s = Some m -> exists s', here s' = Some m.
Proof.
  revert prev. induction s as [|c s IH]; intros prev; simpl.
  - destruct prev; [discriminate|].
    destruct (here "") eqn:E; [|discriminate]. intros [= <-]. eauto.
  - destruct (if prev then None else here (String c s)) eqn:E.
    + intros [= <-]. destruct prev; [discriminate|]. eauto.
    + apply IH.
Qed.

Lemma match_zip_here_shape (s m : string) :
  match_zip_here s = Some m -> zip_shaped m.
Proof.
  unfold match_zip_here.
  destruct (take_class is_digit 5 s) as [[d5 r]|] eqn:E5; [|discriminate].
  destruct (take_class_spec _ _ _ _ _ E5) as [Hl5 Ha5].
  assert (Hplain : (if word_ends r then Some d5 else None) = Some m ->
                   zip_shaped m).
  { destruct (word_ends r); [|discriminate]. intros [= <-].
    exists d5. auto. }
  destruct r as [|c r']; [exact Hplain|].
  destruct (eqb_char c "-") eqn:Ec; [|exact Hplain].
  destruct (take_class is_digit 4 r') as [[d4 r'']|] eqn:E4; [|exact Hplain].
  destruct (word_ends r''); [|exact Hplain].
  intros [= <-]. destruct (take_class_spec _ _ _ _ _ E4) as [Hl4 Ha4].
  exists d5. repeat split; try assumption. right. exists d4.
  repeat split; try assumption.
  assert (c = "-"%char) as ->; [|reflexivity].
  unfold eqb_char in Ec. apply N.eqb_eq in Ec.
  rewrite <- (ascii_N_embedding c), <- (ascii_N_embedding "-"). unfold code in Ec.
  rewrite Ec. reflexivity.
Qed.

Lemma search_zip_shape (s z : string) : search_zip s = Some z -> zip_shaped z.
Proof.
  intros H. apply search_from_here in H as [s' H].
  exact (match_zip_here_shape s' z H).
Qed.

Lemma search_state_shape (s st : string) :
  search_state s = Some st ->
  String.length st = 2%nat /\ all_chars is_upper st = true.
Proof.
  intros H. apply search_from_here in H as [s' H].
  unfold match_state_here in H.
  destruct (take_class is_upper 2 s') as [[d r]|] eqn:E; [|discriminate].
  destruct (word_ends r); [|discriminate]. injection H as <-.
  exact (take_class_spec _ _ _ _ _ E).
Qed.

Lemma length_app_string (a b : string) :
  String.length (a +:+ b) = (String.length a + String.length b)%nat.
Proof. induction a as [|c a IH]; simpl; [reflexivity|]. rewrite IH. reflexivity. Qed.

Lemma zip_shaped_length (z : string) :
  zip_shaped z -> String.length z = 5%nat \/ String.length z = 10%nat.
Proof.
  intros (d5 & Hl5 & _ & [->|(d4 & Hl4 & _ & ->)]); [left; exact Hl5|].
  right. rewrite !length_app_string, Hl5, Hl4. reflexivity.
Qed.

Lemma slice_to_length (n : nat) (s : string) :
  (String.length (slice_to n s) <= n)%nat.
Proof.
  revert s. induction n as [|n IH]; intros [|c s]; simpl; try lia.
  specialize (IH s). lia.
Qed.

Lemma slice_to_all (n : nat) (s : string) :
  (String.length s <= n)%nat -> slice_to n s = s.
Proof.
  revert s. induction n as [|n IH]; intros [|c s]; simpl; try reflexivity.
  - lia.
  - intros H. rewrite IH by lia. reflexivity.
Qed.

Lemma slice_to_nonempty (n : nat) (s : string) :
  s <> "" -> slice_to (S n) s <> "".
Proof. destruct s; [congruence|discriminate]. Qed.

(** After the final clean-up a component is never empty. *)
Lemma cleaned_nonempty (v : string) : (if unusable v then NA else v) <> "".
Proof.
  unfold unusable. destruct v as [|c v]; simpl; [discriminate|].
  destruct (250 <? _)%nat; discriminate.
Qed.

Ltac parse_address_cases s :=
  unfold parse_address_str;
  destruct (is_empty s) eqn:?;
  [|destruct (1 <? length (map strip (split "," s)))%nat eqn:?;
    [destruct (search_zip _) as [?z|] eqn:?;
     [destruct (search_state _) as [?st|] eqn:?|]|]];
  cbv beta iota zeta;
  cbn [street city state zip_code country andb negb];
  rewrite ?(bool_decide_eq_true_2 (is_Some (Some _))) by eauto;
  rewrite ?(bool_decide_eq_false_2 (is_Some None)) by (intros [? ?]; discriminate);
  cbn [andb negb].

Lemma zip_usable (z : string) :
  zip_shaped z -> unusable z = false /\ slice_to 19 z = z.
Proof.
  intros Hz. pose proof (zip_shaped_length z Hz) as Hl.
  split; [|apply slice_to_all; lia].
  unfold unusable. destruct z as [|c z]; [simpl in Hl; lia|]. simpl is_empty.
  cbn [orb]. apply Nat.ltb_ge. lia.
Qed.

Lemma state_usable (st : string) :
  String.length st = 2%nat -> unusable st = false /\ is_empty st = false.
Proof.
  intros Hl. unfold unusable. destruct st as [|c st]; [discriminate|].
  simpl is_empty. cbn [orb]. split; [|reflexivity]. apply Nat.ltb_ge. lia.
Qed.

Lemma state_final_length (o : option string) (st : string) :
  match o with
  | Some v => if is_empty v then None else Some (slice_to 99 v)
  | None => None
  end = Some st ->
  (String.length st <= 99)%nat.
Proof.
  destruct o as [v|]; [|discriminate].
  destruct (is_empty v); [discriminate|]. intros E.
  apply (f_equal (from_option String.length 0%nat)) in E.
  cbn [from_option] in E. rewrite <- E. apply slice_to_length.
Qed.

(** X7. Every component [parse_address] returns fits the column of
    [addresses] it is written to: at most 254 characters of street, 99 of
    city, state and country, 19 of ZIP code. *)
Theorem parse_address_lengths (s : string) :
  let p := parse_address_str s in
  parse_address (Some s) = Returns p
  /\ (String.length (street p) <= 254)%nat
  /\ (String.length (city p) <= 99)%nat
  /\ (forall st, state p = Some st -> (String.length st <= 99)%nat)
  /\ (String.length (zip_code p) <= 19)%nat
  /\ (String.length (country p) <= 99)%nat.
Proof.
  intros p. split; [reflexivity|]. subst p.
  parse_address_cases s;
    (split; [try apply slice_to_length; simpl; lia|]);
    (split; [try apply slice_to_length; simpl; lia|]);
    (split; [intros st';
             first [apply state_final_length
                   |intros E;
                    apply (f_equal (from_option String.length 0%nat)) in E;
                    simpl in E; lia]|]);
    (split; try apply slice_to_length; simpl; lia).
Qed.

(** X8. [parse_address] never leaves the street, the ZIP code or the country
    empty, and never sets the state to [None]: the state is "N/A" or the two
    capital letters found. *)
Theorem parse_address_filled (s : string) :
  let p := parse_address_str s in
  street p <> "" /\ zip_code p <> "" /\ country p <> ""
  /\ (state p = Some NA
      \/ exists st, state p = Some st /\ String.length st = 2%nat
                    /\ all_chars is_upper st = true).
Proof.
  intros p. subst p.
  parse_address_cases s;
    (split; [try discriminate; apply slice_to_nonempty, cleaned_nonempty|]);
    (split; [try discriminate; apply slice_to_nonempty, cleaned_nonempty|]);
    (split; [try discriminate; apply slice_to_nonempty, cleaned_nonempty|]);
    try (left; reflexivity).
  right. match goal with H : search_state _ = Some _ |- _ =>
    destruct (search_state_shape _ _ H) as [Hl Hu] end.
  destruct (state_usable st Hl) as [-> ->].
  exists st. rewrite slice_to_all by lia. auto.
Qed.


(** X10. When [parse_address] finds a ZIP code the country is "USA", whatever
    the last segment of the text says; and a state is only found next to a
    ZIP code. *)
Theorem parse_address_zip_country (s : string) :
  let p := parse_address_str s in
  (zip_code p <> NA -> country p = "USA")
  /\ (state p <> Some NA -> zip_code p <> NA).
Proof.
  intros p. subst p.
  parse_address_cases s; split; try reflexivity; try congruence;
    try (intros _; reflexivity);
    try (intros H; exfalso; apply H; reflexivity);
    intros _;
    match goal with H : search_zip _ = Some _ |- _ =>
      pose proof (search_zip_shape _ _ H) as Hz end;
    destruct (zip_usable z Hz) as [-> ->];
    intros E; rewrite E in Hz;
    destruct (zip_shaped_length _ Hz) as [H|H]; simpl in H; lia.
Qed.

End NormalizerExtras.

(** ** What the session operations guarantee to the stages *)

Module SessionFacts.
Import Legacy Target Db Normalizers Migration Invariants SessionShapes.

Lemma flush_outcome (s s' : Session) (e : option PyException) :
  flush s = (s', e) ->
  committed s' = committed s
  /\ match e with
     | None => pending s' = []
     | Some _ => txn s' = txn s
     end.
Proof.
  unfold flush.
  destruct (insert_all (flush_order (pending s)) (txn s) (sequences s))
    as [q [t|]]; intros [= <- <-]; split; reflexivity.
Qed.

Lemma commit_outcome (s s' : Session) (e : option PyException) :
  commit s = (s', e) ->
  match e with
  | None => settled s'
  | Some _ => committed s' = committed s
  end.
Proof.
  unfold commit. destruct (flush s) as [s1 [e1|]] eqn:E.
  - intros [= <- <-]. apply (flush_outcome _ _ _ E).
  - intros [= <- <-]. split; reflexivity.
Qed.

Lemma rollback_settled (s : Session) : settled (rollback s).
Proof. split; reflexivity. Qed.

Lemma commit_or_rollback_settled (ok : option string) (err : string)
    (st : State) :
  settled (new_db (commit_or_rollback ok err st)).
Proof.
  unfold commit_or_rollback.
  destruct (commit (new_db st)) as [s [e|]] eqn:E.
  - apply rollback_settled.
  - pose proof (commit_outcome _ _ _ E) as H. destruct ok; exact H.
Qed.

(** With nothing else pending, a flush is the INSERT of the object added. *)
Lemma flush_one (s : Session) (o : Object) :
  pending s = [] ->
  flush (add o s)
  = match insert o (txn s) (sequences s) with
    | (q, Returns t) => (mkSession (committed s) t [] q, None)
    | (q, Raises e) => (mkSession (committed s) (txn s) [o] q, Some e)
    end.
Proof.
  intros Hp. unfold flush, add. simpl. rewrite Hp. simpl.
  replace (flush_order [o]) with [o] by (destruct o; reflexivity).
  simpl. destruct (insert o (txn s) (sequences s)) as [q [t|]]; reflexivity.
Qed.

End SessionFacts.

Module StageExtras.
Import Legacy Target Db Normalizers Migration Invariants SessionShapes
  SessionFacts.

(** X11. Each of the four stage functions, and [main_migration_process],
    returns with its work settled: no object is left pending and the
    transaction holds nothing that is not committed, whatever the legacy
    data and the state it started from. *)
Theorem stages_end_settled
    (strptime : string -> string -> option datetime) (now : datetime)
    (randint : nat -> Z -> Z -> Z) (batch_size : Z) (old_db : OldDb)
    (st : State) :
  settled (new_db (migrate_product_categories batch_size old_db st))
  /\ settled (new_db (migrate_users_and_addresses strptime now batch_size
                        old_db st))
  /\ settled (new_db (migrate_products strptime randint batch_size old_db st))
  /\ settled (new_db (migrate_orders_and_items strptime now batch_size
                        old_db st))
  /\ settled (new_db (main_migration_process strptime now randint batch_size
                        old_db st)).
Proof.
  repeat split; try apply commit_or_rollback_settled; reflexivity.
Qed.

Import PyStr AddressParser.

(** What the [try] block of the users loop leaves pending when no exception
    leaves it. *)
Lemma user_try_pending (batch_size : Z) (old_user : OldUser)
    (registration_date : datetime) (st st1 : State) :
  user_try batch_size old_user registration_date st = (st1, None) ->
  pending (new_db st1) = []
  \/ exists text,
       ou_address_combined old_user = Some text /\ text <> ""
       /\ pending (new_db st1)
          = [OAddress (address_object (seq_users (sequences (new_db st1)))
                         (parse_address_str text))]
       /\ old_user_id_to_new_user_map (maps st1) !! ou_id old_user
          = Some (seq_users (sequences (new_db st1))).
Proof.
  unfold user_try.
  destruct (flush (add (OUser _) (new_db st))) as [s [e|]] eqn:Ef;
    [discriminate|].
  destruct (flush_outcome _ _ _ Ef) as [_ Hp]. simpl in Hp.
  destruct (ou_address_combined old_user) as [text|] eqn:Ea;
    [|simpl; destruct (batch_full _ _)].
  - destruct (is_empty text) eqn:Ee.
    + unfold falsy. rewrite Ee. cbn [negb].
      destruct (batch_full _ _).
      * destruct (commit _) as [s2 [e2|]] eqn:Ec; [discriminate|].
        intros [= <-]. left. apply (commit_outcome _ _ _ Ec).
      * intros [= <-]. left. exact Hp.
    + unfold falsy. rewrite Ee. cbn [negb]. unfold parse_address.
      destruct (any_component (parse_address_str text)).
      * destruct (batch_full _ _).
        -- destruct (commit _) as [s2 [e2|]] eqn:Ec; [discriminate|].
           intros [= <-]. left. apply (commit_outcome _ _ _ Ec).
        -- intros [= <-]. right. exists text.
           split; [reflexivity|]. split; [intros ->; discriminate|].
           cbn [new_db count_child with_db add pending sequences maps
                count_success set_user with_maps
                old_user_id_to_new_user_map logger].
           rewrite Hp. split; [reflexivity|]. apply lookup_insert_eq.
      * destruct (batch_full _ _).
        -- destruct (commit _) as [s2 [e2|]] eqn:Ec; [discriminate|].
           intros [= <-]. left. apply (commit_outcome _ _ _ Ec).
        -- intros [= <-]. left. exact Hp.
  - destruct (commit _) as [s2 [e2|]] eqn:Ec; [discriminate|].
    intros [= <-]. left. apply (commit_outcome _ _ _ Ec).
  - intros [= <-]. left. exact Hp.
Qed.

(** X12. After a turn of the users loop, from any state, at most one object
    waits for the next flush: an Address, and only for a user whose address
    text is not empty. It is built from the parsed text, belongs to the user
    just inserted - the key the identity map now gives for the legacy user -
    and is marked default for shipping and billing. No address is made up
    for a user that has none, nor left behind by a failed turn. *)
Theorem user_step_pending
    (strptime : string -> string -> option datetime) (now : datetime)
    (batch_size : Z) (st : State) (old_user : OldUser) :
  let st' := user_step strptime now batch_size st old_user in
  pending (new_db st') = []
  \/ exists text,
       ou_address_combined old_user = Some text /\ text <> ""
       /\ pending (new_db st')
          = [OAddress (address_object (seq_users (sequences (new_db st')))
                         (parse_address_str text))]
       /\ old_user_id_to_new_user_map (maps st') !! ou_id old_user
          = Some (seq_users (sequences (new_db st'))).
Proof.
  intros st'. subst st'. unfold user_step.
  destruct (parse_datetime_flexible _ _ _) as [d|];
    match goal with
    | |- context [user_try ?b ?o ?d ?s] =>
        destruct (user_try b o d s) as [st1 [[]|]] eqn:Et
    end;
    try (apply (user_try_pending _ _ _ _ _ Et));
    try (left; reflexivity);
    destruct (user_named _ _); left; reflexivity.
Qed.

Lemma positive_quantity_ge_1 (q : option Z) : 1 <= positive_quantity q.
Proof.
  unfold positive_quantity. destruct q as [k|]; [|lia].
  destruct (0 <? k) eqn:E; [apply Z.ltb_lt in E|]; lia.
Qed.

(** What the [try] block of the orders loop leaves pending when no exception
    leaves it. *)
Lemma order_try_pending (batch_size : Z) (old_order : OldOrder)
    (u : User) (ship bill : Address) (date : datetime)
    (status : OrderStatusEnum) (st st1 : State) :
  order_try batch_size old_order u ship bill date status st = (st1, None) ->
  pending (new_db st1) = []
  \/ exists pid,
       lookup_product (oo_product_name_redundant old_order) st = Some pid
       /\ pid <> 0
       /\ pending (new_db st1)
          = [OOrderItem (item_object (seq_orders (sequences (new_db st1)))
                           pid old_order)].
Proof.
  unfold order_try.
  destruct (flush (add (OOrder _) (new_db st))) as [s [e|]] eqn:Ef;
    [discriminate|].
  destruct (flush_outcome _ _ _ Ef) as [_ Hp]. simpl in Hp.
  change (lookup_product (oo_product_name_redundant old_order)
            (count_success 1 (with_db s st)))
    with (lookup_product (oo_product_name_redundant old_order) st).
  destruct (lookup_product (oo_product_name_redundant old_order) st)
    as [pid|] eqn:El.
  - case_bool_decide as Hz.
    + destruct (batch_full _ _); intros [= <-]; left;
        [reflexivity|]. cbn [new_db logger count_success with_db expunge pending].
      rewrite Hp. reflexivity.
    + assert (pid <> 0) by congruence.
      unfold item_object.
      destruct (extract_price_decimal _) as [p|]; cbn [from_option default];
        destruct (batch_full _ _);
        try (destruct (commit _) as [s2 [e2|]] eqn:Ec; [discriminate|];
             intros [= <-]; left; apply (commit_outcome _ _ _ Ec));
        intros [= <-]; right; exists pid;
        (split; [reflexivity|]); (split; [assumption|]);
        cbn [new_db count_child with_db add pending sequences logger
             count_success];
        rewrite Hp; reflexivity.
  - rewrite bool_decide_eq_false_2 by discriminate.
    destruct (batch_full _ _); intros [= <-]; left; [reflexivity|].
    cbn [new_db logger count_success with_db expunge pending].
    rewrite Hp. reflexivity.
Qed.

(** X13. A turn of the orders loop, from any state, either skips the order
    and leaves the session as it was, or ends with at most one object
    waiting for the next flush: the OrderItem of this order. It belongs to
    the Order just flushed, names the product the dictionary gives for the
    order's product name, has a quantity of at least 1 (the legacy quantity
    when it is positive, 1 otherwise) and carries the unit price parsed from
    the order's own text, 0.00 when that text cannot be parsed. *)
Theorem order_step_pending
    (strptime : string -> string -> option datetime) (now : datetime)
    (batch_size : Z) (by_username : gmap string User) (st : State)
    (old_order : OldOrder) :
  let st' := order_step strptime now batch_size by_username st old_order in
  new_db st' = new_db st
  \/ pending (new_db st') = []
  \/ exists pid,
       lookup_product (oo_product_name_redundant old_order) st = Some pid
       /\ pid <> 0
       /\ pending (new_db st')
          = [OOrderItem (item_object (seq_orders (sequences (new_db st')))
                           pid old_order)]
       /\ 1 <= i_quantity (item_object (seq_orders (sequences (new_db st')))
                             pid old_order)
       /\ i_unit_price_at_purchase
            (item_object (seq_orders (sequences (new_db st'))) pid old_order)
          = default (mkDecimal 0 (-2))
              (extract_price_decimal (oo_unit_price_str_redundant old_order)).
Proof.
  intros st'. subst st'. unfold order_step.
  destruct (oo_user_identifier_text old_order ≫= _) as [u|];
    [|left; reflexivity].
  destruct (user_with_addresses _ _) as [[u' [|a1 rest]]|];
    try (left; reflexivity).
  right.
  destruct (parse_datetime_flexible _ _ _) as [d|];
    match goal with
    | |- context [order_try ?b ?o ?u ?a ?a' ?d ?x ?s] =>
        destruct (order_try b o u a a' d x s) as [st1 [[]|]] eqn:Et
    end;
    try (left; reflexivity);
    (apply order_try_pending in Et as [Hp|(pid & Hl & Hz & Hp)];
     [left; exact Hp|right; exists pid]);
    (split; [exact Hl|]); (split; [exact Hz|]); (split; [exact Hp|]);
    (split; [apply positive_quantity_ge_1|reflexivity]).
Qed.

Lemma users_fold_other (l : list User) (m : gmap string User) (n : string) :
  n ∉ u_username <$> l ->
  fold_left (λ m u, <[u_username u := u]> m) l m !! n = m !! n.
Proof.
  revert m. induction l as [|u l IH]; intros m Hn; cbn [fold_left];
    [reflexivity|].
  rewrite fmap_cons, not_elem_of_cons in Hn. destruct Hn as [Hne Hn].
  rewrite IH by exact Hn. apply lookup_insert_ne. congruence.
Qed.

Lemma users_fold_found (l : list User) (m : gmap string User) (n : string)
    (u : User) :
  fold_left (λ m u, <[u_username u := u]> m) l m !! n = Some u ->
  m !! n = Some u \/ (u ∈ l /\ u_username u = n).
Proof.
  revert m. induction l as [|u0 l IH]; intros m H; cbn [fold_left] in H;
    [left; exact H|].
  destruct (IH _ H) as [Hm|[Hin Hu]].
  - destruct (decide (u_username u0 = n)) as [E|NE].
    + rewrite <- E, lookup_insert_eq in Hm. injection Hm as <-.
      right. split; [left|exact E].
    + rewrite lookup_insert_ne in Hm by exact NE. left. exact Hm.
  - right. split; [right; exact Hin|exact Hu].
Qed.

(** X14. The dictionary [new_users_by_username] resolves exact usernames
    only: what it gives for a text is a user of the store whose username is
    that very text; and when the usernames of the store are distinct, as the
    UNIQUE constraint makes them, every user is found under its username. *)
Theorem new_users_by_username_lookup (s : Session) :
  (forall n u, new_users_by_username s !! n = Some u ->
               u ∈ all_users s /\ u_username u = n)
  /\ (NoDup (u_username <$> all_users s) ->
      forall u, u ∈ all_users s ->
                new_users_by_username s !! u_username u = Some u).
Proof.
  unfold new_users_by_username. split.
  - intros n u H. apply users_fold_found in H as [H|H]; [|exact H].
    rewrite lookup_empty in H. discriminate.
  - generalize (∅ : gmap string User).
    induction (all_users s) as [|u0 l IH]; intros m Hnd u Hin.
    { apply elem_of_nil in Hin. destruct Hin. }
    rewrite fmap_cons in Hnd. apply NoDup_cons in Hnd as [Hn0 Hnd].
    cbn [fold_left]. apply elem_of_cons in Hin as [->|Hin].
    + rewrite users_fold_other by exact Hn0. apply lookup_insert_eq.
    + apply IH; assumption.
Qed.

End StageExtras.

(** ** Runs over a store that holds the data already *)

Module RerunExtras.
Import PyStr Legacy Target Db Normalizers AddressParser Migration Invariants
  SessionShapes SessionFacts OrderFacts.

Lemma head_filter_found {A : Type} (P : A -> Prop) `{!∀ x, Decision (P x)}
    (l : list A) (x : A) :
  x ∈ l -> P x -> exists y, head (filter P l) = Some y /\ y ∈ l /\ P y.
Proof.
  intros Hin HP. destruct (head (filter P l)) as [y|] eqn:E.
  - exists y. split; [reflexivity|].
    apply head_Some_elem_of, list_elem_of_filter in E. tauto.
  - apply head_None in E. exfalso.
    exact (filter_nil_not_elem_of _ _ x E HP Hin).
Qed.

(** A turn of the users loop on a legacy user whose username is already in
    the store: the INSERT is refused, the handler rolls back and adopts the
    key of the committed user of that name. *)
Lemma user_step_existing
    (strptime : string -> string -> option datetime) (now : datetime)
    (batch_size : Z) (st : State) (old_user : OldUser) :
  settled (new_db st) ->
  ou_username old_user ∈ u_username <$> users (committed (new_db st)) ->
  let st' := user_step strptime now batch_size st old_user in
  settled (new_db st')
  /\ committed (new_db st') = committed (new_db st)
  /\ success_count st' = success_count st
  /\ exists u, u ∈ users (committed (new_db st))
               /\ u_username u = ou_username old_user
               /\ user_map st' = <[ou_id old_user := u_id u]> (user_map st).
Proof.
  intros [Hp Ht] Hin st'. subst st'.
  apply list_elem_of_fmap in Hin as (u0 & Hu0 & Hin0).
  destruct (head_filter_found (λ u, u_username u = ou_username old_user)
              (users (committed (new_db st))) u0 Hin0 (eq_sym Hu0))
    as (u & Hhead & Hu & Hname).
  assert (Hdup : ou_username old_user
                 ∈ u_username <$> users (txn (new_db st))).
  { rewrite Ht. apply list_elem_of_fmap. eauto. }
  unfold user_step.
  destruct (parse_datetime_flexible _ _ _) as [d|];
    unfold user_try;
    rewrite flush_one by exact Hp;
    cbn [insert u_username u_email];
    rewrite (bool_decide_eq_true_2 _ Hdup);
    cbn [negb andb]; rewrite andb_false_r; cbn [andb];
    cbn [with_db new_db rollback logger committed];
    unfold user_named;
    cbn [txn new_db logger with_db rollback committed count_processed];
    rewrite Hhead;
    (split; [split; reflexivity|]); (split; [reflexivity|]);
    (split; [reflexivity|]);
    exists u; auto.
Qed.


Lemma commit_or_rollback_maps (ok : option string) (err : string) (st : State) :
  maps (commit_or_rollback ok err st) = maps st
  /\ success_count (commit_or_rollback ok err st) = success_count st.
Proof.
  unfold commit_or_rollback.
  destruct (commit (new_db st)) as [s [e|]]; [split; reflexivity|].
  destruct ok; split; reflexivity.
Qed.

(** On a session with nothing pending the final commit of a stage makes the
    rows of the transaction the committed ones. *)
Lemma commit_or_rollback_clean_db (ok : option string) (err : string)
    (st : State) :
  pending (new_db st) = [] ->
  committed (new_db (commit_or_rollback ok err st)) = txn (new_db st).
Proof.
  intros Hp. unfold commit_or_rollback. rewrite (commit_clean _ Hp).
  destruct ok; reflexivity.
Qed.

Lemma adopted_cons (x : OldUser) (l : list OldUser) (T : Tables)
    (m : gmap Z Z) (k : Z) :
  adopted l T m k -> adopted (x :: l) T m k.
Proof.
  intros (old & u & Hin & H). exists old, u. split; [right; exact Hin|exact H].
Qed.

Lemma users_loop_existing
    (strptime : string -> string -> option datetime) (now : datetime)
    (batch_size : Z) (l : list OldUser) (st : State) :
  settled (new_db st) ->
  (forall old, old ∈ l ->
     ou_username old ∈ u_username <$> users (committed (new_db st))) ->
  let st' := fold_left (user_step strptime now batch_size) l st in
  settled (new_db st')
  /\ committed (new_db st') = committed (new_db st)
  /\ success_count st' = success_count st
  /\ (forall k, user_map st' !! k = user_map st !! k
                \/ adopted l (committed (new_db st)) (user_map st') k)
  /\ (forall old, old ∈ l ->
        adopted l (committed (new_db st)) (user_map st') (ou_id old)).
Proof.
  revert st. induction l as [|x l IH]; intros st Hs Hl; cbn [fold_left].
  { repeat split; try apply Hs; auto.
    intros old Hin. apply elem_of_nil in Hin. destruct Hin. }
  destruct (user_step_existing strptime now batch_size st x Hs)
    as (Hs1 & Hc1 & Hn1 & u & Hu & Hname & Hm1); [apply Hl; left|].
  set (st1 := user_step strptime now batch_size st x) in *.
  destruct (IH st1 Hs1) as (Hs2 & Hc2 & Hn2 & Hk2 & Ha2).
  { intros old Hin. rewrite Hc1. apply Hl. right. exact Hin. }
  rewrite Hc1 in Hc2, Hk2, Ha2.
  assert (Hkeys : forall k,
            user_map (fold_left (user_step strptime now batch_size) l st1) !! k
            = user_map st !! k
            \/ adopted (x :: l) (committed (new_db st))
                 (user_map (fold_left (user_step strptime now batch_size) l st1))
                 k).
  { intros k. destruct (Hk2 k) as [E|Had]; [|right; apply adopted_cons, Had].
    rewrite Hm1 in E. destruct (decide (ou_id x = k)) as [<-|NE].
    - rewrite lookup_insert_eq in E. right. exists x, u.
      repeat split; try assumption. left.
    - rewrite lookup_insert_ne in E by exact NE. left. exact E. }
  repeat split; try apply Hs2; try congruence; [exact Hkeys|].
  intros old [->|Hin]%elem_of_cons; [|apply adopted_cons, Ha2, Hin].
  destruct (Hk2 (ou_id x)) as [E|Had]; [|apply adopted_cons, Had].
  rewrite Hm1, lookup_insert_eq in E. exists x, u.
  repeat split; try assumption. left.
Qed.

(** X15. The users stage over legacy users that are all in the target store
    already (their usernames are committed, as after an earlier run) adds
    nothing: the committed tables are the same afterwards, no user is counted
    as migrated, and the identity map gets, for every legacy user, the key
    of a committed user with the username of the legacy user of that key. *)
Theorem users_stage_rerun
    (strptime : string -> string -> option datetime) (now : datetime)
    (batch_size : Z) (old_db : OldDb) (st : State)
    (Hsettled : settled (new_db st))
    (Hknown : forall old, old ∈ old_users old_db ->
       ou_username old ∈ u_username <$> users (committed (new_db st))) :
  let st' := migrate_users_and_addresses strptime now batch_size old_db st in
  committed (new_db st') = committed (new_db st)
  /\ success_count st' = 0
  /\ forall old, old ∈ old_users old_db ->
       adopted (old_users old_db) (committed (new_db st))
         (old_user_id_to_new_user_map (maps st')) (ou_id old).
Proof.
  intros st'. subst st'. unfold migrate_users_and_addresses.
  set (st0 := logger INFO "Iniciando migración de usuarios y direcciones"
                NoRef (reset_counters st)).
  destruct (users_loop_existing strptime now batch_size (old_users old_db) st0
              Hsettled Hknown) as (Hs & Hc & Hn & _ & Ha).
  set (st1 := fold_left (user_step strptime now batch_size)
                (old_users old_db) st0) in *.
  cbn [new_db logger maps success_count].
  destruct (commit_or_rollback_maps None
              "Error en commit final de usuarios/direcciones" st1) as [Hm Hsc].
  rewrite (commit_or_rollback_clean_db _ _ st1 (proj1 Hs)), Hm, Hsc.
  rewrite (proj2 Hs), Hc, Hn. repeat split. exact Ha.
Qed.


Lemma users_stage_rerun_witness :
  let st := new_process
              (new_db (Scenario.first_run (λ _ _, None) 0
                         (mkOldDb [Scenario.alice] [] []))) 0 in
  let st' := migrate_users_and_addresses (λ _ _, None) 0 BATCH_SIZE
               (mkOldDb [Scenario.alice] [] []) st in
  committed (new_db st') = committed (new_db st)
  /\ success_count st' = 0
  /\ forall old, old ∈ [Scenario.alice] ->
       adopted [Scenario.alice] (committed (new_db st))
         (old_user_id_to_new_user_map (maps st')) (ou_id old).
Proof.
  refine (users_stage_rerun (λ _ _, None) 0 BATCH_SIZE
            (mkOldDb [Scenario.alice] [] [])
            (new_process
               (new_db (Scenario.first_run (λ _ _, None) 0
                          (mkOldDb [Scenario.alice] [] []))) 0) _ _).
  - split; vm_compute; reflexivity.
  - intros old Hin. apply list_elem_of_In in Hin. simpl in Hin.
    destruct Hin as [<-|[]]. vm_compute. left.
Defined.

(** The fall-back on "Unknown" when the store has the category and the
    dictionary does not. *)
Lemma resolve_category_conflict (old_product : OldProduct) (st : State) :
  pending (new_db st) = [] ->
  category_map st
    !! normalize_category_name (op_category_name_redundant old_product)
    = None ->
  category_map st !! "Unknown" = None ->
  "Unknown" ∈ c_name <$> product_categories (txn (new_db st)) ->
  exists st',
    resolve_category old_product st = (st', None)
    /\ maps st' = maps st
    /\ settled (new_db st')
    /\ committed (new_db st') = committed (new_db st)
    /\ draws st' = draws st
    /\ success_count st' = success_count st.
Proof.
  intros Hclean Hmiss Hnokey Hrow. unfold resolve_category.
  rewrite Hmiss. unfold unknown_category. rewrite Hnokey.
  rewrite flush_one by exact Hclean.
  cbn [insert c_name new_db logger].
  rewrite (bool_decide_eq_true_2 _ Hrow). cbn [negb].
  eexists. split; [reflexivity|]. repeat split; reflexivity.
Qed.

(** X16. A product whose category is in no dictionary falls back on
    "Unknown". When the dictionary has no "Unknown" entry but the store has
    a category of that name - as in a new process after an earlier run - the
    INSERT of the default category is refused: the product is given up and
    the open transaction is rolled back. No product row is written, the
    dictionaries are unchanged, and no random number is drawn. *)
Theorem product_step_unknown_conflict
    (strptime : string -> string -> option datetime)
    (randint : nat -> Z -> Z -> Z) (batch_size : Z) (st : State)
    (old_product : OldProduct)
    (Hclean : pending (new_db st) = [])
    (Hmiss : category_map st
             !! normalize_category_name (op_category_name_redundant old_product)
             = None)
    (Hnokey : category_map st !! "Unknown" = None)
    (Hrow : "Unknown" ∈ c_name <$> product_categories (txn (new_db st))) :
  let st' := product_step strptime randint batch_size st old_product in
  maps st' = maps st
  /\ settled (new_db st')
  /\ committed (new_db st') = committed (new_db st)
  /\ draws st' = draws st
  /\ success_count st' = success_count st.
Proof.
  intros st'. subst st'. unfold product_step.
  destruct (extract_price_decimal _) as [p|].
  - destruct (resolve_category_conflict old_product (count_processed st)
                Hclean Hmiss Hnokey Hrow) as (x & -> & H). exact H.
  - destruct (resolve_category_conflict old_product
                (logger WARNING "tiene precio inválido"
                   (RefId (op_id old_product)) (count_processed st))
                Hclean Hmiss Hnokey Hrow) as (x & -> & H). exact H.
Qed.

Lemma product_step_unknown_conflict_witness :
  let st := new_process
              (new_db (Scenario.first_run (λ _ _, None) 0
                         (mkOldDb [] [mkOldProduct 7 "Pen" None None None None]
                            []))) 2 in
  let st' := product_step (λ _ _, None) Scenario.randint_counting BATCH_SIZE
               st (mkOldProduct 7 "Pen" None None None None) in
  maps st' = maps st
  /\ settled (new_db st')
  /\ committed (new_db st') = committed (new_db st)
  /\ draws st' = draws st
  /\ success_count st' = success_count st.
Proof.
  refine (product_step_unknown_conflict (λ _ _, None)
            Scenario.randint_counting BATCH_SIZE
            (new_process
               (new_db (Scenario.first_run (λ _ _, None) 0
                          (mkOldDb [] [mkOldProduct 7 "Pen" None None None None]
                             []))) 2)
            (mkOldProduct 7 "Pen" None None None None) _ _ _ _).
  - vm_compute. reflexivity.
  - vm_compute. reflexivity.
  - vm_compute. reflexivity.
  - vm_compute. left.
Defined.

End RerunExtras.

(** ** The categories stage and the category table *)

Module CategoryStore.
Import PyStr Legacy Target Db Normalizers Migration Invariants SessionShapes
  SessionFacts OrderFacts PyStrFacts CategoryFacts CategorySteps.

Lemma batch_commit_txn (b : Z) (ok : option string) (err : string)
    (st : State) :
  clean st ->
  txn (new_db (if batch_full b st then commit_or_rollback ok err st else st))
  = txn (new_db st).
Proof.
  intros Hc. destruct (batch_full b st); [|reflexivity].
  unfold commit_or_rollback. rewrite (commit_clean _ Hc).
  destruct ok; reflexivity.
Qed.

Lemma category_named_Some (n : string) (s : Session) (c : ProductCategory) :
  category_named n s = Some c ->
  c ∈ product_categories (txn s) /\ c_name c = n.
Proof.
  unfold category_named. intros H.
  apply head_Some_elem_of, list_elem_of_filter in H. tauto.
Qed.

(** A turn of the categories loop on a non-empty name, seen from the store:
    nothing changes when the normalized name is in the dictionary;
    otherwise the dictionary gets the key of a category row of that name,
    which is the row found in the table or a row appended to it. *)
Lemma category_step_store (b : Z) (st : State) (raw : string) :
  raw <> "" -> clean st ->
  let N := normalize_category_name (Some raw) in
  let st' := category_step b st (Some raw) in
  clean st'
  /\ other_tables (txn (new_db st')) = other_tables (txn (new_db st))
  /\ ((category_map st' = category_map st
       /\ product_categories (txn (new_db st'))
          = product_categories (txn (new_db st)))
      \/ exists c,
           c_name c = N
           /\ category_map st' = mapped raw N (c_id c) (category_map st)
           /\ ((c ∈ product_categories (txn (new_db st))
                /\ product_categories (txn (new_db st'))
                   = product_categories (txn (new_db st)))
               \/ ((N ∉ (c_name <$> product_categories (txn (new_db st))))
                   /\ product_categories (txn (new_db st'))
                      = (product_categories (txn (new_db st)) ++ [c])%list))).
Proof.
  intros Hraw Hc N st'. subst st'. unfold category_step.
  destruct raw as [|ch raw']; [congruence|]. simpl is_empty. cbv iota.
  fold N. case_bool_decide as HN.
  { split; [exact Hc|]. split; [reflexivity|]. left. split; reflexivity. }
  unfold create_category.
  destruct (category_named N (new_db (count_processed st))) as [ex|] eqn:Eex.
  - destruct (category_named_Some _ _ _ Eex) as [Hin Hname].
    match goal with
    | |- clean (if batch_full b ?x then _ else _) /\ _ =>
        assert (Hcx : clean x)
          by (unfold clean; cbn [new_db count_success];
              rewrite map_category_db; exact Hc);
        destruct (batch_commit_facts b (Some "Commit de lote de categorías")
                    "Error en commit de lote de categorías" x Hcx)
          as [Hc' Hm'];
        pose proof (batch_commit_txn b (Some "Commit de lote de categorías")
                      "Error en commit de lote de categorías" x Hcx) as Ht'
    end.
    split; [exact Hc'|]. rewrite Ht', Hm'.
    cbn [new_db count_success]. rewrite map_category_db.
    split; [reflexivity|]. right. exists ex. split; [exact Hname|].
    split.
    { change (category_map (count_success 1 ?x)) with (category_map x).
      rewrite map_category_mapped. reflexivity. }
    left. split; [exact Hin|reflexivity].
  - pose proof (category_named_None _ _ Eex) as Hfresh.
    rewrite flush_one by exact Hc.
    cbn [insert c_name]. rewrite (bool_decide_eq_false_2 _ Hfresh).
    cbn [negb].
    match goal with
    | |- clean (if batch_full b ?x then _ else _) /\ _ =>
        assert (Hcx : clean x)
          by (unfold clean; cbn [new_db count_success];
              rewrite map_category_db; reflexivity);
        destruct (batch_commit_facts b (Some "Commit de lote de categorías")
                    "Error en commit de lote de categorías" x Hcx)
          as [Hc' Hm'];
        pose proof (batch_commit_txn b (Some "Commit de lote de categorías")
                      "Error en commit de lote de categorías" x Hcx) as Ht'
    end.
    split; [exact Hc'|]. rewrite Ht', Hm'.
    cbn [new_db count_success]. rewrite map_category_db.
    split; [reflexivity|]. right.
    eexists (mkCategory _ N _). split; [reflexivity|].
    split.
    { change (category_map (count_success 1 ?x)) with (category_map x).
      rewrite map_category_mapped. reflexivity. }
    right. split; [exact Hfresh|reflexivity].
Qed.

(** The loop of the categories stage, seen from the store. *)
Lemma categories_loop_store (b : Z) (rows : list (option string)) :
  forall st : State,
  clean st ->
  let st' := fold_left (category_step b) rows st in
  clean st'
  /\ other_tables (txn (new_db st')) = other_tables (txn (new_db st))
  /\ (exists added,
        product_categories (txn (new_db st'))
        = (product_categories (txn (new_db st)) ++ added)%list
        /\ forall c, c ∈ added ->
             (c_name c ∉ (c_name <$> product_categories (txn (new_db st))))
             /\ exists raw, Some raw ∈ rows /\ raw <> ""
                  /\ c_name c = normalize_category_name (Some raw))
  /\ (forall key v,
        category_map st' !! key = Some v ->
        category_map st !! key = Some v
        \/ exists c, c ∈ product_categories (txn (new_db st'))
             /\ c_id c = v
             /\ (c_name c = key
                 \/ c_name c = normalize_category_name (Some key))).
Proof.
  induction rows as [|x rows IH]; intros st Hc; cbn [fold_left].
  { split; [exact Hc|]. split; [reflexivity|]. split.
    - exists []. split; [symmetry; apply app_nil_r|].
      intros c Hin. inversion Hin.
    - intros key v Hl. left. exact Hl. }
  destruct (falsy x) eqn:Ex.
  { destruct (category_step_skip b st x Ex) as [Hdb Hm].
    assert (Hc1 : clean (category_step b st x))
      by (unfold clean; rewrite Hdb; exact Hc).
    destruct (IH _ Hc1) as (Hc' & Ho & (added & Ha & Hadd) & Hmap).
    rewrite Hdb in Ho, Ha, Hadd. rewrite Hm in Hmap.
    split; [exact Hc'|]. split; [exact Ho|]. split; [|exact Hmap].
    exists added. split; [exact Ha|]. intros c Hin.
    destruct (Hadd c Hin) as (Hn & raw & Hr & Hne & Hnm).
    split; [exact Hn|]. exists raw. split; [|split; assumption].
    apply list_elem_of_In. right. apply list_elem_of_In. exact Hr. }
  destruct x as [raw|]; [|discriminate Ex]. simpl in Ex.
  assert (Hraw : raw <> "") by (intros ->; discriminate Ex).
  destruct (category_step_store b st raw Hraw Hc) as (Hc1 & Ho1 & Hcase).
  set (st1 := category_step b st (Some raw)) in *.
  set (N := normalize_category_name (Some raw)) in *.
  destruct (IH _ Hc1) as (Hc' & Ho & (added & Ha & Hadd) & Hmap).
  set (st' := fold_left (category_step b) rows st1) in *.
  split; [exact Hc'|]. split; [rewrite Ho; exact Ho1|].
  assert (Hlift : forall c : ProductCategory,
            (exists r, Some r ∈ rows /\ r <> ""
               /\ c_name c = normalize_category_name (Some r)) ->
            exists r, Some r ∈ Some raw :: rows /\ r <> ""
              /\ c_name c = normalize_category_name (Some r)).
  { intros c (r & Hr & Hne & Hnm). exists r. split; [|split; assumption].
    apply list_elem_of_In. right. apply list_elem_of_In. exact Hr. }
  destruct Hcase as [[Hm1 Hcat1]|(c1 & Hn1 & Hm1 & Hrow)].
  { rewrite Hcat1 in Ha, Hadd. rewrite Hm1 in Hmap.
    split; [|exact Hmap]. exists added. split; [exact Ha|].
    intros c Hin. destruct (Hadd c Hin) as [Hn Hex].
    split; [exact Hn|]. apply (Hlift c Hex). }
  assert (Hc1in : c1 ∈ product_categories (txn (new_db st'))).
  { rewrite Ha. apply list_elem_of_In, in_or_app. left.
    apply list_elem_of_In.
    destruct Hrow as [[Hin Hcat1]|[_ Happ]].
    - rewrite Hcat1. exact Hin.
    - rewrite Happ. apply list_elem_of_In, in_or_app. right. left.
      reflexivity. }
  split.
  - destruct Hrow as [[Hin Hcat1]|[Hfresh Happ]].
    + rewrite Hcat1 in Ha, Hadd. exists added. split; [exact Ha|].
      intros c Hcin. destruct (Hadd c Hcin) as [Hn Hex].
      split; [exact Hn|]. apply (Hlift c Hex).
    + exists (c1 :: added). split.
      { rewrite Ha, Happ, <- app_assoc. reflexivity. }
      intros c Hcin. apply list_elem_of_In in Hcin.
      destruct Hcin as [<-|Hcin].
      * split; [rewrite Hn1; exact Hfresh|].
        exists raw. split; [|split; [exact Hraw|exact Hn1]].
        apply list_elem_of_In. left. reflexivity.
      * apply list_elem_of_In in Hcin.
        destruct (Hadd c Hcin) as [Hn Hex].
        split; [|apply (Hlift c Hex)].
        intros Hold. apply Hn. rewrite Happ, fmap_app.
        apply list_elem_of_In, in_or_app. left.
        apply list_elem_of_In. exact Hold.
  - intros key v Hl. destruct (Hmap key v Hl) as [Hl1|Hex]; [|right; exact Hex].
    rewrite Hm1 in Hl1.
    destruct (decide (key = raw)) as [->|Hkr].
    { rewrite mapped_lookup_raw in Hl1. injection Hl1 as <-.
      right. exists c1. split; [exact Hc1in|]. split; [reflexivity|].
      right. exact Hn1. }
    destruct (decide (key = N)) as [->|HkN].
    { rewrite mapped_lookup_N in Hl1. injection Hl1 as <-.
      right. exists c1. split; [exact Hc1in|]. split; [reflexivity|].
      left. exact Hn1. }
    rewrite mapped_lookup_other in Hl1 by assumption. left. exact Hl1.
Qed.

End CategoryStore.

Module CategoryStoreExtras.
Import PyStr Legacy Target Db Normalizers Migration Invariants SessionShapes
  SessionFacts OrderFacts PyStrFacts CategoryFacts CategorySteps CategoryStore
  Scenario.

(** X17. The categories stage, seen from the store.  Started with nothing
    pending, it leaves every table but the category table as the open
    transaction had it; the categories it commits are those of the
    transaction followed by new rows, each named by the normalized form of
    a non-empty name it read, a name the table did not have; and every
    entry of the dictionary that the stage wrote carries the key of a
    committed category row whose name is the entry's key or the normalized
    form of it. *)
Theorem categories_stage_store (batch_size : Z) (rows : list (option string))
    (st : State) :
  clean st ->
  let st' := migrate_categories_rows batch_size rows st in
  let before := txn (new_db st) in
  let after := committed (new_db st') in
  other_tables after = other_tables before
  /\ (exists added,
        product_categories after
        = (product_categories before ++ added)%list
        /\ forall c, c ∈ added ->
             (c_name c ∉ (c_name <$> product_categories before))
             /\ exists raw, Some raw ∈ rows /\ raw <> ""
                  /\ c_name c = normalize_category_name (Some raw))
  /\ (forall key v,
        category_map st' !! key = Some v ->
        category_map st !! key = Some v
        \/ exists c, c ∈ product_categories after
             /\ c_id c = v
             /\ (c_name c = key
                 \/ c_name c = normalize_category_name (Some key))).
Proof.
  intros Hclean st' before after. subst st' before after.
  unfold migrate_categories_rows.
  set (st0 := logger INFO "Iniciando migración de categorías de productos"
                NoRef (reset_counters st)).
  assert (Hc0 : clean st0) by exact Hclean.
  destruct (categories_loop_store batch_size rows st0 Hc0)
    as (Hc1 & Ho & Hadd & Hmap).
  set (st1 := fold_left (category_step batch_size) rows st0) in *.
  change (category_map (logger ?l ?msg ?r ?x)) with (category_map x).
  change (new_db (logger ?l ?msg ?r ?x)) with (new_db x).
  rewrite commit_or_rollback_map.
  unfold commit_or_rollback. rewrite (commit_clean _ Hc1).
  cbn [new_db with_db committed].
  split; [exact Ho|]. split; [exact Hadd|exact Hmap].
Qed.

Lemma categories_stage_store_witness :
  let rows := [Some "electronics"; None; Some " Electronics "; Some "toys"] in
  let st := new_process fresh_session 0 in
  let st' := migrate_categories_rows BATCH_SIZE rows st in
  let before := txn (new_db st) in
  let after := committed (new_db st') in
  other_tables after = other_tables before
  /\ (exists added,
        product_categories after
        = (product_categories before ++ added)%list
        /\ forall c, c ∈ added ->
             (c_name c ∉ (c_name <$> product_categories before))
             /\ exists raw, Some raw ∈ rows /\ raw <> ""
                  /\ c_name c = normalize_category_name (Some raw))
  /\ (forall key v,
        category_map st' !! key = Some v ->
        category_map st !! key = Some v
        \/ exists c, c ∈ product_categories after
             /\ c_id c = v
             /\ (c_name c = key
                 \/ c_name c = normalize_category_name (Some key))).
Proof.
  refine (categories_stage_store BATCH_SIZE
            [Some "electronics"; None; Some " Electronics "; Some "toys"]
            (new_process fresh_session 0) _).
  reflexivity.
Defined.

(** X18. The categories stage run on a store that has a category for the
    normalized form of every non-empty name it reads inserts nothing: the
    tables it commits are those of the transaction it started with. *)
Theorem categories_stage_rerun (batch_size : Z) (rows : list (option string))
    (st : State) :
  clean st ->
  (forall raw, Some raw ∈ rows -> raw <> "" ->
     normalize_category_name (Some raw)
     ∈ (c_name <$> product_categories (txn (new_db st)))) ->
  committed (new_db (migrate_categories_rows batch_size rows st))
  = txn (new_db st).
Proof.
  intros Hclean Hknown.
  unfold migrate_categories_rows.
  set (st0 := logger INFO "Iniciando migración de categorías de productos"
                NoRef (reset_counters st)).
  assert (Hc0 : clean st0) by exact Hclean.
  destruct (categories_loop_store batch_size rows st0 Hc0)
    as (Hc1 & Ho & (added & Ha & Hadd) & _).
  set (st1 := fold_left (category_step batch_size) rows st0) in *.
  change (new_db (logger ?l ?msg ?r ?x)) with (new_db x).
  unfold commit_or_rollback. rewrite (commit_clean _ Hc1).
  cbn [new_db with_db committed].
  change (new_db st0) with (new_db st) in *.
  assert (Hnil : added = []).
  { destruct added as [|c added']; [reflexivity|]. exfalso.
    destruct (Hadd c) as (Hn & raw & Hr & Hne & Hnm).
    { apply list_elem_of_In. left. reflexivity. }
    apply Hn. rewrite Hnm. apply Hknown; assumption. }
  subst added. rewrite app_nil_r in Ha.
  unfold other_tables in Ho. injection Ho as H1 H2 H3 H4 H5.
  destruct (txn (new_db st1)), (txn (new_db st)). simpl in *.
  congruence.
Qed.

Lemma categories_stage_rerun_witness :
  let rows := [Some "electronics"; None; Some " Electronics "; Some "toys"] in
  let st := new_process
              (new_db (migrate_categories_rows BATCH_SIZE rows
                         (new_process fresh_session 0))) 0 in
  committed (new_db (migrate_categories_rows BATCH_SIZE rows st))
  = txn (new_db st).
Proof.
  refine (categories_stage_rerun BATCH_SIZE
            [Some "electronics"; None; Some " Electronics "; Some "toys"]
            (new_process
               (new_db (migrate_categories_rows BATCH_SIZE
                          [Some "electronics"; None; Some " Electronics ";
                           Some "toys"]
                          (new_process fresh_session 0))) 0) _ _).
  - vm_compute. reflexivity.
  - intros raw Hin Hraw. apply list_elem_of_In in Hin.
    apply list_elem_of_In.
    simpl in Hin.
    destruct Hin as [[= <-]|[[=]|[[= <-]|[[= <-]|[]]]]];
      vm_compute; tauto.
Defined.

End CategoryStoreExtras.

(** ** The rows the orders stage writes *)

Module OrderRows.
Import Legacy Target Db Normalizers Migration Invariants SessionShapes
  Provenance SessionFacts OrderFacts.

Lemma filter_rank_items (r : nat) (p : list Object) :
  Forall (λ o, is_item_object o = true) p ->
  filter (λ o, table_rank o = r) p = if decide (r = 5%nat) then p else [].
Proof.
  induction 1 as [|x p Hx Hp IH].
  - destruct (decide _); reflexivity.
  - destruct x; try discriminate Hx. rewrite filter_cons, IH.
    cbn [table_rank].
    destruct (decide (r = 5%nat)) as [->|NE].
    + rewrite decide_True by reflexivity. reflexivity.
    + rewrite decide_False by congruence. reflexivity.
Qed.

Lemma flush_order_items (p : list Object) :
  Forall (λ o, is_item_object o = true) p -> flush_order p = p.
Proof.
  intros Hp. unfold flush_order. cbn [seq flat_map].
  rewrite !(filter_rank_items _ p Hp). cbn. apply app_nil_r.
Qed.

Lemma flush_order_order_items (p : list Object) (o : Order) :
  Forall (λ o, is_item_object o = true) p ->
  flush_order (p ++ [OOrder o]) = OOrder o :: p.
Proof.
  intros Hp. unfold flush_order. cbn [seq flat_map].
  rewrite !filter_app, !(filter_rank_items _ p Hp). cbn.
  rewrite !app_nil_r. reflexivity.
Qed.

Lemma insert_item_rows (i : OrderItem) (t t' : Tables) (q q' : Sequences) :
  insert (OOrderItem i) t q = (q', Returns t') ->
  users t' = users t /\ addresses t' = addresses t
  /\ product_categories t' = product_categories t
  /\ products t' = products t /\ orders t' = orders t
  /\ (exists unit_price,
        numeric_10_2 (i_unit_price_at_purchase i) = Some unit_price
        /\ order_items t'
           = (order_items t
              ++ [mkOrderItem (seq_order_items q + 1) (i_order_id i)
                    (i_product_id i) (i_quantity i) unit_price])%list)
  /\ seq_orders q' = seq_orders q.
Proof.
  cbn [insert].
  destruct (numeric_10_2 (i_unit_price_at_purchase i)) as [unit_price|];
    [|discriminate].
  destruct (has_order t (i_order_id i) && has_product t (i_product_id i));
    intros [= <- <-]; repeat split; try reflexivity.
  exists unit_price. split; reflexivity.
Qed.

Lemma insert_order_rows (o : Order) (t t' : Tables) (q q' : Sequences) :
  insert (OOrder o) t q = (q', Returns t') ->
  users t' = users t /\ addresses t' = addresses t
  /\ product_categories t' = product_categories t
  /\ products t' = products t /\ order_items t' = order_items t
  /\ orders t'
     = (orders t
        ++ [mkOrder (seq_orders q') (o_user_id o) (o_order_date o)
              (o_status o) (o_shipping_address_id o)
              (o_billing_address_id o)])%list.
Proof.
  cbn [insert].
  destruct (has_user t (o_user_id o) && has_address t (o_shipping_address_id o)
            && match o_billing_address_id o with
               | Some b => has_address t b
               | None => true
               end);
    intros [= <- <-]; repeat split; reflexivity.
Qed.

Section Rows.
Variable strptime : string -> string -> option datetime.
Variable now : datetime.
Variable by_username : gmap string User.
Variable names : gmap string Z.
Variable base : Tables.
Variable legacy : list OldOrder.

Local Notation "'MO'" := (migrated_order strptime now by_username base).
Local Notation "'tables_ok'" :=
  (order_tables_ok strptime now by_username names base legacy).
Local Notation "'pending_ok'" :=
  (order_pending_ok strptime now by_username names base legacy).
Local Notation "'item_ok'" := (item_of_legacy strptime now by_username names base legacy).
Local Notation "'state_ok'" :=
  (order_state_ok strptime now by_username names base legacy).

Lemma pending_ok_items (T : Tables) (p : list Object) :
  pending_ok T p -> Forall (λ o, is_item_object o = true) p.
Proof.
  intros H. apply Forall_forall. intros obj Hin.
  destruct (H obj Hin) as (i & -> & _). reflexivity.
Qed.

Lemma order_pending_nil (T : Tables) : pending_ok T [].
Proof. intros obj Hin. inversion Hin. Qed.

Lemma item_ok_orders (stored : bool) (T T' : Tables) (i : OrderItem) :
  (forall o, o ∈ orders T -> o ∈ orders T') ->
  item_ok stored T i -> item_ok stored T' i.
Proof.
  intros Hsub (old & Hold & Hmi & o & Ho & Hid & Hmo).
  exists old. split; [exact Hold|]. split; [exact Hmi|].
  exists o. split; [apply Hsub, Ho|]. split; assumption.
Qed.

Lemma pending_ok_orders (T T' : Tables) (p : list Object) :
  (forall o, o ∈ orders T -> o ∈ orders T') ->
  pending_ok T p -> pending_ok T' p.
Proof.
  intros Hsub H obj Hin. destruct (H obj Hin) as (i & E & Hi).
  exists i. split; [exact E|]. exact (item_ok_orders false T T' i Hsub Hi).
Qed.

(** The INSERTs of pending OrderItems keep the tables in shape and do not
    touch the Order sequence. *)
Lemma insert_all_items (p : list Object) :
  forall (T T' : Tables) (q q' : Sequences),
  tables_ok T -> pending_ok T p ->
  insert_all p T q = (q', Returns T') ->
  tables_ok T' /\ orders T' = orders T /\ seq_orders q' = seq_orders q.
Proof.
  induction p as [|obj p IH]; intros T T' q q' HT Hp; cbn [insert_all].
  { intros [= <- <-]. split; [exact HT|split; reflexivity]. }
  destruct (Hp obj) as (i & -> & Hi); [left|].
  destruct (insert (OOrderItem i) T q) as [q1 [T1|]] eqn:Ei; [|discriminate].
  destruct (insert_item_rows _ _ _ _ _ Ei)
    as (Hu & Ha & Hc & Hpr & Ho & (unit_price & Hround & Hit) & Hq).
  intros Hall.
  assert (Hsub : forall o, o ∈ orders T -> o ∈ orders T1)
    by (intros o; rewrite Ho; tauto).
  assert (HT1 : tables_ok T1).
  { destruct HT as (Bu & Ba & Bc & Bp & Bo & Bi).
    split; [congruence|]. split; [congruence|]. split; [congruence|].
    split; [congruence|]. split.
    - intros o. rewrite Ho. apply Bo.
    - intros x. rewrite Hit. intros Hx.
      apply elem_of_app in Hx as [Hx|Hx].
      + destruct (Bi x Hx) as [Hb|Hl]; [left; exact Hb|right].
        exact (item_ok_orders true T T1 x Hsub Hl).
      + apply list_elem_of_singleton in Hx as ->. right.
        destruct Hi as (old & Hold & Hmi & o & Hoin & Hid & Hmo).
        exists old. split; [exact Hold|]. split.
        { destruct Hmi as (Hname & Hpid & Hqty & Hprice).
          split; [exact Hname|]. split; [exact Hpid|]. split; [exact Hqty|].
          cbn [i_unit_price_at_purchase] in Hprice |- *.
          rewrite <- Hprice. exact Hround. }
        exists o. split; [apply Hsub, Hoin|]. split; assumption. }
  destruct (IH T1 T' q1 q' HT1) as (HT' & Ho' & Hq'); [|exact Hall|].
  { apply (pending_ok_orders T T1); [exact Hsub|].
    intros x Hx. apply Hp. right. exact Hx. }
  split; [exact HT'|]. split; congruence.
Qed.

Lemma flush_items (s s' : Session) :
  tables_ok (txn s) -> pending_ok (txn s) (pending s) ->
  flush s = (s', None) ->
  tables_ok (txn s') /\ pending s' = [] /\ committed s' = committed s
  /\ orders (txn s') = orders (txn s).
Proof.
  intros HT Hp. unfold flush.
  rewrite (flush_order_items _ (pending_ok_items _ _ Hp)).
  destruct (insert_all (pending s) (txn s) (sequences s)) as [q [T|]] eqn:E;
    [|discriminate].
  intros [= <-]. cbn [txn pending committed].
  destruct (insert_all_items _ _ _ _ _ HT Hp E) as (HT' & Ho & _).
  split; [exact HT'|]. split; [reflexivity|]. split; [reflexivity|exact Ho].
Qed.

(** The flush of a new Order together with the OrderItems waiting. *)
Lemma flush_order_and_items (s s' : Session) (o : Order)
    (old_order : OldOrder) :
  tables_ok (txn s) -> pending_ok (txn s) (pending s) ->
  old_order ∈ legacy -> MO old_order o ->
  flush (add (OOrder o) s) = (s', None) ->
  tables_ok (txn s') /\ pending s' = [] /\ committed s' = committed s
  /\ exists row, row ∈ orders (txn s')
                 /\ o_id row = seq_orders (sequences s')
                 /\ MO old_order row.
Proof.
  intros HT Hp Hold Hmo. unfold flush, add. cbn [pending txn sequences].
  rewrite (flush_order_order_items _ _ (pending_ok_items _ _ Hp)).
  cbn [insert_all].
  destruct (insert (OOrder o) (txn s) (sequences s)) as [q1 [T1|]] eqn:Ei;
    [|discriminate].
  destruct (insert_order_rows _ _ _ _ _ Ei) as (Hu & Ha & Hc & Hpr & Hit & Ho).
  destruct (insert_all (pending s) T1 q1) as [q [T|]] eqn:E; [|discriminate].
  intros [= <-]. cbn [txn pending committed sequences].
  set (row := mkOrder (seq_orders q1) (o_user_id o) (o_order_date o)
                (o_status o) (o_shipping_address_id o)
                (o_billing_address_id o)) in *.
  assert (Hrow : MO old_order row) by exact Hmo.
  assert (Hsub : forall x, x ∈ orders (txn s) -> x ∈ orders T1).
  { intros x Hx. rewrite Ho. apply elem_of_app. left. exact Hx. }
  assert (HT1 : tables_ok T1).
  { destruct HT as (Bu & Ba & Bc & Bp & Bo & Bi).
    split; [congruence|]. split; [congruence|]. split; [congruence|].
    split; [congruence|]. split.
    - intros x. rewrite Ho. intros Hx. apply elem_of_app in Hx as [Hx|Hx].
      + apply Bo, Hx.
      + apply list_elem_of_singleton in Hx as ->. right.
        exists old_order. split; assumption.
    - intros x. rewrite Hit. intros Hx.
      destruct (Bi x Hx) as [Hb|Hl]; [left; exact Hb|right].
      exact (item_ok_orders true _ T1 x Hsub Hl). }
  destruct (insert_all_items _ _ _ _ _ HT1
              (pending_ok_orders _ T1 _ Hsub Hp) E) as (HT' & Ho' & Hq').
  split; [exact HT'|]. split; [reflexivity|]. split; [reflexivity|].
  exists row. split.
  { rewrite Ho', Ho. apply elem_of_app. right. left. }
  split; [symmetry; exact Hq'|exact Hrow].
Qed.

Lemma commit_items (s s' : Session) (e : option PyException) :
  tables_ok (txn s) -> tables_ok (committed s) ->
  pending_ok (txn s) (pending s) ->
  commit s = (s', e) ->
  tables_ok (committed s')
  /\ (e = None -> txn s' = committed s' /\ pending s' = []).
Proof.
  intros HT HC Hp. unfold commit.
  destruct (flush s) as [s1 [e1|]] eqn:Ef; intros [= <- <-].
  - destruct (flush_outcome _ _ _ Ef) as [Hc _]. rewrite Hc.
    split; [exact HC|discriminate].
  - destruct (flush_items _ _ HT Hp Ef) as (HT' & _).
    split; [exact HT'|]. intros _. split; reflexivity.
Qed.

Lemma order_rollback_ok (st : State) (s : Session) :
  tables_ok (committed s) -> product_name_map st = names ->
  state_ok (with_db (rollback s) st).
Proof.
  intros HC Hn. split; [exact HC|]. split; [exact HC|].
  split; [apply order_pending_nil|exact Hn].
Qed.

(** The [try] block of the orders loop keeps the invariant when it ends
    without an exception, and leaves the committed rows in shape when it
    raises. *)
Lemma order_try_ok (b : Z) (old_order : OldOrder) (u : User)
    (ship bill : Address) (date : datetime) (status : OrderStatusEnum)
    (st st1 : State) (e : option PyException) :
  state_ok st -> old_order ∈ legacy ->
  MO old_order (mkOrder 0 (u_id u) date status (a_id ship) (Some (a_id bill))) ->
  order_try b old_order u ship bill date status st = (st1, e) ->
  tables_ok (committed (new_db st1)) /\ product_name_map st1 = names
  /\ (e = None -> state_ok st1).
Proof.
  intros (HT & HC & Hp & Hn) Hold Hmo. unfold order_try.
  destruct (flush (add (OOrder _) (new_db st))) as [s [e1|]] eqn:Ef.
  { intros [= <- <-]. destruct (flush_outcome _ _ _ Ef) as [Hc _].
    cbn [new_db with_db]. rewrite Hc.
    split; [exact HC|]. split; [exact Hn|discriminate]. }
  destruct (flush_order_and_items _ _ _ _ HT Hp Hold Hmo Ef)
    as (HT' & Hp' & Hc' & row & Hrow & Hid & Hmrow).
  assert (HC' : tables_ok (committed s)) by (rewrite Hc'; exact HC).
  change (lookup_product (oo_product_name_redundant old_order)
            (count_success 1 (with_db s st)))
    with (lookup_product (oo_product_name_redundant old_order) st).
  assert (Hskip : forall st2 x,
            new_db st2 = expunge x s -> product_name_map st2 = names ->
            (if batch_full b st2 then with_db (rollback (new_db st2)) st2
             else st2, @None PyException) = (st1, e) ->
            tables_ok (committed (new_db st1)) /\ product_name_map st1 = names
            /\ (e = None -> state_ok st1)).
  { intros st2 x Hdb Hn2. destruct (batch_full b st2); intros [= <- <-].
    - cbn [new_db with_db]. rewrite Hdb. cbn [expunge rollback committed].
      split; [exact HC'|]. split; [exact Hn2|]. intros _.
      apply order_rollback_ok; [exact HC'|exact Hn2].
    - rewrite Hdb. cbn [expunge committed].
      split; [exact HC'|]. split; [exact Hn2|]. intros _.
      unfold order_state_ok. rewrite Hdb. cbn [expunge txn committed pending].
      rewrite Hp'. split; [exact HT'|]. split; [exact HC'|].
      split; [apply order_pending_nil|exact Hn2]. }
  destruct (lookup_product (oo_product_name_redundant old_order) st)
    as [pid|] eqn:El.
  2:{ rewrite bool_decide_eq_false_2 by discriminate.
      refine (fun Heq => Hskip _ _ _ _ Heq); [reflexivity|exact Hn]. }
  case_bool_decide as Hz; [refine (fun Heq => Hskip _ _ _ _ Heq); [reflexivity|exact Hn]|].
  assert (Hpid : pid <> 0) by congruence.
  set (item := mkOrderItem 0 (seq_orders (sequences s)) pid
                 (positive_quantity (oo_quantity old_order))
                 (default (mkDecimal 0 (-2))
                    (extract_price_decimal
                       (oo_unit_price_str_redundant old_order)))).
  assert (Hitem : item_ok false (txn s) item).
  { exists old_order. split; [exact Hold|]. split.
    - split; [|split; [exact Hpid|split; reflexivity]].
      unfold lookup_product in El.
      destruct (oo_product_name_redundant old_order) as [name|];
        [|discriminate El].
      exists name. split; [reflexivity|]. rewrite <- Hn. exact El.
    - exists row. split; [exact Hrow|]. split; [exact Hid|exact Hmrow]. }
  assert (Hpend : pending_ok (txn s) [OOrderItem item]).
  { intros obj Hin. apply list_elem_of_singleton in Hin as ->.
    exists item. split; [reflexivity|exact Hitem]. }
  assert (Hadd : forall st2,
            new_db st2 = add (OOrderItem item) s ->
            product_name_map st2 = names ->
            (if batch_full b st2
             then match commit (new_db st2) with
                  | (s0, None) =>
                      (logger INFO "Commit de lote de pedidos/ítems" NoRef
                         (with_db s0 st2), None)
                  | (s0, Some e0) => (with_db s0 st2, Some e0)
                  end
             else (st2, None)) = (st1, e) ->
            tables_ok (committed (new_db st1)) /\ product_name_map st1 = names
            /\ (e = None -> state_ok st1)).
  { intros st2 Hdb Hn2.
    assert (Hp2 : pending (add (OOrderItem item) s) = [OOrderItem item])
      by (unfold add; cbn [pending]; rewrite Hp'; reflexivity).
    assert (Hpend2 : pending_ok (txn (add (OOrderItem item) s))
                       (pending (add (OOrderItem item) s)))
      by (rewrite Hp2; exact Hpend).
    destruct (batch_full b st2).
    - destruct (commit (new_db st2)) as [s0 [e0|]] eqn:Ec;
        intros [= <- <-]; rewrite Hdb in Ec;
        (destruct (commit_items (add (OOrderItem item) s) _ _ HT' HC'
                     Hpend2 Ec) as [HC0 Hok]);
        cbn [new_db with_db logger];
        (split; [exact HC0|]); (split; [exact Hn2|]); [discriminate|].
      intros _. destruct (Hok eq_refl) as [Ht0 Hp0].
      unfold order_state_ok. cbn [new_db with_db logger].
      rewrite Ht0, Hp0. split; [exact HC0|]. split; [exact HC0|].
      split; [apply order_pending_nil|exact Hn2].
    - intros [= <- <-]. rewrite Hdb. cbn [add committed].
      split; [exact HC'|]. split; [exact Hn2|]. intros _.
      unfold order_state_ok. rewrite Hdb. cbn [add txn committed pending].
      rewrite Hp'. split; [exact HT'|]. split; [exact HC'|].
      split; [exact Hpend|exact Hn2]. }
  subst item.
  destruct (extract_price_decimal (oo_unit_price_str_redundant old_order))
    as [p|]; cbn [default from_option] in Hadd;
    (refine (fun Heq => Hadd _ _ _ Heq); [reflexivity|exact Hn]).
Qed.

Lemma default_head_filter_cases {A} (P : A -> Prop)
    `{!∀ x, Decision (P x)} (l : list A) (d : A) :
  (default d (head (filter P l)) ∈ l /\ P (default d (head (filter P l))))
  \/ (default d (head (filter P l)) = d /\ forall y, y ∈ l -> ~ P y).
Proof.
  destruct (head (filter P l)) as [x|] eqn:E; cbn [default from_option].
  - left. exact (head_filter_elem P l x E).
  - right. split; [reflexivity|]. intros y Hy HP.
    apply head_None in E. exact (filter_nil_not_elem_of _ _ y E HP Hy).
Qed.

(** A turn of the loop over the legacy orders keeps the invariant. *)
Lemma order_step_ok (b : Z) (st : State) (old_order : OldOrder) :
  state_ok st -> old_order ∈ legacy ->
  state_ok (order_step strptime now b by_username st old_order).
Proof.
  intros Hst Hold. unfold order_step.
  destruct (oo_user_identifier_text old_order ≫= (by_username !!.))
    as [u|] eqn:Eu; [|exact Hst].
  destruct (user_with_addresses (u_id u) (new_db (count_processed st)))
    as [[u' [|a1 rest]]|] eqn:Ea; try exact Hst.
  assert (Hf : filter (λ a, a_user_id a = u_id u) (addresses base)
               = a1 :: rest).
  { unfold user_with_addresses in Ea.
    destruct (user_with_id _ _); [|discriminate Ea].
    cbn in Ea. injection Ea as _ Ea.
    destruct Hst as ((_ & Ha & _) & _).
    change (new_db (count_processed st)) with (new_db st) in Ea.
    rewrite Ha in Ea. exact Ea. }
  assert (Hmine : forall a, a ∈ a1 :: rest ->
            a ∈ addresses base /\ a_user_id a = u_id u).
  { intros a Ha. rewrite <- Hf in Ha. apply list_elem_of_filter in Ha. tauto. }
  assert (Hall : forall a, a ∈ addresses base -> a_user_id a = u_id u ->
            a ∈ a1 :: rest).
  { intros a Ha Hu. rewrite <- Hf. apply list_elem_of_filter. tauto. }
  set (ship := default a1
                 (head (filter (λ a, a_is_default_shipping a = true)
                          (a1 :: rest)))).
  set (bill := default ship
                 (head (filter (λ a, a_is_default_billing a = true)
                          (a1 :: rest)))).
  assert (Hship : ship ∈ a1 :: rest)
    by (apply default_head_filter_elem; left).
  assert (Hbill : bill ∈ a1 :: rest)
    by (apply default_head_filter_elem; exact Hship).
  assert (Hmo : MO old_order
              (mkOrder 0 (u_id u)
                 (default now
                    (parse_datetime_flexible strptime
                       (oo_order_date_str old_order)
                       ["%Y-%m-%d"; "%m/%d/%Y %I:%M %p"; "%Y-%m-%d %H:%M:%S"]))
                 (map_order_status (oo_status_text old_order))
                 (a_id ship) (Some (a_id bill)))).
  { exists u, ship, bill. cbn [o_user_id o_order_date o_status
                               o_shipping_address_id o_billing_address_id].
    destruct (Hmine _ Hship) as [Hs1 Hs2].
    destruct (Hmine _ Hbill) as [Hb1 Hb2].
    split; [exact Eu|]. split; [reflexivity|]. split; [reflexivity|].
    split; [reflexivity|]. split; [exact Hs1|]. split; [exact Hs2|].
    split; [reflexivity|]. split.
    { destruct (default_head_filter_cases
                  (λ a, a_is_default_shipping a = true) (a1 :: rest) a1)
        as [[_ H]|[_ H]]; [left; exact H|right].
      intros a Ha Hu. apply H, Hall; assumption. }
    split; [exact Hb1|]. split; [exact Hb2|]. split; [reflexivity|].
    destruct (default_head_filter_cases
                (λ a, a_is_default_billing a = true) (a1 :: rest) ship)
      as [[_ H]|[E H]]; [left; exact H|right].
    split; [exact E|]. intros a Ha Hu. apply H, Hall; assumption. }
  assert (Hend : forall st0 st1 e date,
            state_ok st0 ->
            date = default now
                     (parse_datetime_flexible strptime
                        (oo_order_date_str old_order)
                        ["%Y-%m-%d"; "%m/%d/%Y %I:%M %p";
                         "%Y-%m-%d %H:%M:%S"]) ->
            order_try b old_order u ship bill date
              (map_order_status (oo_status_text old_order)) st0 = (st1, e) ->
            state_ok
              match e with
              | None => st1
              | Some IntegrityError =>
                  logger ERROR "Error de integridad al migrar pedido"
                    (RefId (oo_id old_order))
                    (with_db (rollback (new_db st1)) st1)
              | Some _ =>
                  logger ERROR "Error general al migrar pedido"
                    (RefId (oo_id old_order))
                    (with_db (rollback (new_db st1)) st1)
              end).
  { intros st0 st1 e date H0 -> Et.
    destruct (order_try_ok _ _ _ _ _ _ _ _ _ _ H0 Hold Hmo Et)
      as (HC1 & Hn1 & Hok).
    destruct e as [[]|]; [| | |exact (Hok eq_refl)];
      exact (order_rollback_ok st1 (new_db st1) HC1 Hn1). }
  destruct (parse_datetime_flexible strptime (oo_order_date_str old_order) _)
    as [d|] eqn:Ed;
    match goal with
    | |- context [order_try ?b ?o ?u ?a ?a' ?d ?x ?s] =>
        destruct (order_try b o u a a' d x s) as [st1 e] eqn:Et;
        exact (Hend s st1 e d Hst ltac:(first [reflexivity|rewrite Ed; reflexivity]) Et)
    end.
Qed.

Lemma orders_loop_ok (b : Z) (l : list OldOrder) :
  forall st : State,
  (forall o, o ∈ l -> o ∈ legacy) -> state_ok st ->
  state_ok (fold_left (order_step strptime now b by_username) l st).
Proof.
  induction l as [|o l IH]; intros st Hl Hst; cbn [fold_left];
    [exact Hst|].
  apply IH; [intros x Hx; apply Hl; right; exact Hx|].
  apply order_step_ok; [exact Hst|apply Hl; left].
Qed.

End Rows.

(** X19. The Orders and OrderItems the orders stage commits. Started on a
    settled session, the stage leaves users, addresses, categories and
    products as they were, and every Order and OrderItem it has committed
    when it returns was there before or was written for a legacy order it
    read: the Order for the user found under the order's identifier, with
    the parsed date (the clock when no format matches), the mapped status
    and addresses of that user, default ones first; the OrderItem for the
    product the name dictionary gives, with a quantity of the legacy
    quantity when positive and 1 otherwise, the parsed unit price or 0.00
    as the column [Numeric(10, 2)] holds it (rounded to two decimals), and
    attached to a committed Order written for the same legacy order. *)
Theorem orders_stage_rows
    (strptime : string -> string -> option datetime) (now : datetime)
    (batch_size : Z) (old_db : OldDb) (st : State) :
  settled (new_db st) ->
  order_tables_ok strptime now (new_users_by_username (new_db st))
    (product_name_map st) (committed (new_db st)) (old_orders old_db)
    (committed (new_db (migrate_orders_and_items strptime now batch_size
                          old_db st))).
Proof.
  intros [Hp Ht]. unfold migrate_orders_and_items.
  change (new_db (logger ?l ?m ?r ?x)) with (new_db x).
  change (new_db (reset_counters st)) with (new_db st).
  set (st0 := logger INFO "Iniciando migración de pedidos y sus ítems" NoRef
                (reset_counters st)).
  set (by_username := new_users_by_username (new_db st)).
  set (base := committed (new_db st)).
  assert (Hbase : order_tables_ok strptime now by_username
                    (product_name_map st) base (old_orders old_db) base).
  { repeat (split; [reflexivity|]). split.
    - intros o Ho. left. exact Ho.
    - intros i Hi. left. exact Hi. }
  assert (H0 : order_state_ok strptime now by_username (product_name_map st)
                 base (old_orders old_db) st0).
  { unfold order_state_ok. change (new_db st0) with (new_db st).
    rewrite Ht, Hp. fold base. split; [exact Hbase|]. split; [exact Hbase|].
    split; [|reflexivity]. intros obj Hin. inversion Hin. }
  pose proof (orders_loop_ok strptime now by_username (product_name_map st)
                base (old_orders old_db) batch_size (old_orders old_db) st0
                (fun o H => H) H0) as (HT & HC & Hpend & Hn).
  set (st1 := fold_left _ _ st0) in *.
  unfold commit_or_rollback.
  destruct (commit (new_db st1)) as [s [e|]] eqn:Ec;
    destruct (commit_items strptime now by_username (product_name_map st)
                base (old_orders old_db) _ _ _ HT HC Hpend Ec) as [HC' _];
    exact HC'.
Qed.

Lemma orders_stage_rows_witness :
  let old_db := mkOldDb [Scenario.alice] [Scenario.laptop]
                  [Scenario.laptop_order 1; Scenario.ghost_order 2;
                   Scenario.stranger_order 3;
                   Scenario.cable_order 4] in
  let st := migrate_products (λ _ _, None) Scenario.randint_counting
              BATCH_SIZE old_db
              (migrate_users_and_addresses (λ _ _, None) 0 BATCH_SIZE old_db
                 (migrate_product_categories BATCH_SIZE old_db
                    (new_process fresh_session 0))) in
  order_tables_ok (λ _ _, None) 0 (new_users_by_username (new_db st))
    (product_name_map st) (committed (new_db st)) (old_orders old_db)
    (committed (new_db (migrate_orders_and_items (λ _ _, None) 0 BATCH_SIZE
                          old_db st))).
Proof.
  refine (orders_stage_rows (λ _ _, None) 0 BATCH_SIZE
            (mkOldDb [Scenario.alice] [Scenario.laptop]
               [Scenario.laptop_order 1; Scenario.ghost_order 2;
                Scenario.stranger_order 3;
                   Scenario.cable_order 4])
            (migrate_products (λ _ _, None) Scenario.randint_counting
               BATCH_SIZE
               (mkOldDb [Scenario.alice] [Scenario.laptop]
                  [Scenario.laptop_order 1; Scenario.ghost_order 2;
                   Scenario.stranger_order 3;
                   Scenario.cable_order 4])
               (migrate_users_and_addresses (λ _ _, None) 0 BATCH_SIZE
                  (mkOldDb [Scenario.alice] [Scenario.laptop]
                     [Scenario.laptop_order 1; Scenario.ghost_order 2;
                      Scenario.stranger_order 3;
                   Scenario.cable_order 4])
                  (migrate_product_categories BATCH_SIZE
                     (mkOldDb [Scenario.alice] [Scenario.laptop]
                        [Scenario.laptop_order 1; Scenario.ghost_order 2;
                         Scenario.stranger_order 3;
                   Scenario.cable_order 4])
                     (new_process fresh_session 0)))) _).
  split; vm_compute; reflexivity.
Defined.

End OrderRows.

(** ** The rows the products stage writes *)

Module ProductRows.
Import Legacy Target Db Normalizers Migration Invariants SessionShapes
  Provenance SessionFacts OrderFacts.

Section Rows.
Variable strptime : string -> string -> option datetime.
Variable randint : nat -> Z -> Z -> Z.
Variable base : Tables.
Variable legacy : list OldProduct.

Local Notation "'MP'" := (migrated_product strptime randint).
Local Notation "'tables_ok'" :=
  (product_tables_ok strptime randint base legacy).
Local Notation "'state_ok'" :=
  (product_state_ok strptime randint base legacy).

(** The rows stay in shape when the dictionary gets more entries. *)
Lemma tables_ok_mono (m m' : gmap string Z) (T : Tables) :
  m ⊆ m' -> tables_ok m T -> tables_ok m' T.
Proof.
  intros Hsub (Hu & Ha & Ho & Hi & Hc & Hp).
  repeat (split; [assumption|]).
  intros p Hin. destruct (Hp p Hin) as [Hb|(old & Hold & Hm)];
    [left; exact Hb|right].
  exists old. split; [exact Hold|].
  destruct Hm as (H1 & H2 & H3 & H4 & H5 & H6 & Hcat).
  repeat (split; [assumption|]).
  destruct Hcat as [Hcat|Hcat]; [left|right];
    exact (lookup_weaken _ _ _ _ Hcat Hsub).
Qed.

Lemma product_rollback_ok (st : State) (s : Session) :
  tables_ok (category_map st) (committed s) ->
  state_ok (with_db (rollback s) st).
Proof. intros HC. split; [exact HC|]. split; [exact HC|reflexivity]. Qed.

(** The fall-back on the category "Unknown" keeps the invariant, and the
    key it returns is the dictionary's entry for "Unknown". *)
Lemma unknown_category_ok (old_product : OldProduct) (st st' : State)
    (r : option Z) :
  state_ok st ->
  unknown_category old_product st = (st', r) ->
  state_ok st' /\ draws st' = draws st
  /\ forall k, r = Some k -> category_map st' !! "Unknown" = Some k.
Proof.
  intros (HT & HC & Hp). unfold unknown_category.
  destruct (category_map st !! "Unknown") as [k|] eqn:Ek.
  { intros [= <- <-]. split; [split; [exact HT|split; [exact HC|exact Hp]]|].
    split; [reflexivity|]. intros k' [= <-]. exact Ek. }
  change (new_db (logger ?l ?m ?r ?x)) with (new_db x).
  rewrite flush_one by exact Hp. cbn [insert c_name].
  destruct (negb (bool_decide ("Unknown" ∈ c_name <$> product_categories
                                 (txn (new_db st))))) eqn:Efresh.
  2:{ intros [= <- <-]. split; [|split; [reflexivity|discriminate]].
      cbn [new_db logger with_db rollback committed].
      split; [exact HC|]. split; [exact HC|reflexivity]. }
  match goal with
  | |- context [commit (new_db ?x)] =>
      rewrite (commit_clean (new_db x)) by reflexivity
  end.
  intros [= <- <-]. split; [|split; [reflexivity|]].
  2:{ intros k [= <-]. apply lookup_insert_eq. }
  assert (Hsub : category_map st
                 ⊆ <["Unknown" := seq_categories (sequences (new_db st)) + 1]>
                     (category_map st))
    by (apply insert_subseteq; exact Ek).
  assert (HT' : tables_ok
                  (<["Unknown" := seq_categories (sequences (new_db st)) + 1]>
                     (category_map st))
                  (mkTables (users (txn (new_db st)))
                     (addresses (txn (new_db st)))
                     (product_categories (txn (new_db st))
                      ++ [mkCategory
                            (seq_categories (sequences (new_db st)) + 1)
                            "Unknown"
                            (Some "Categoría por defecto para productos no categorizados.")])
                     (products (txn (new_db st))) (orders (txn (new_db st)))
                     (order_items (txn (new_db st))))).
  { destruct (tables_ok_mono _ _ _ Hsub HT) as (Hu & Ha & Ho & Hi & Hc & Hpr).
    repeat (split; [assumption|]). split; [|exact Hpr].
    intros c Hin. cbn [product_categories] in Hin.
    apply elem_of_app in Hin as [Hin|Hin]; [apply Hc, Hin|].
    apply list_elem_of_singleton in Hin as ->. right. reflexivity. }
  split; [exact HT'|]. split; [exact HT'|reflexivity].
Qed.

Lemma resolve_category_ok (old_product : OldProduct) (st st' : State)
    (r : option Z) :
  state_ok st ->
  resolve_category old_product st = (st', r) ->
  state_ok st' /\ draws st' = draws st
  /\ forall k, r = Some k ->
       category_map st'
         !! normalize_category_name (op_category_name_redundant old_product)
       = Some k
       \/ category_map st' !! "Unknown" = Some k.
Proof.
  intros Hst. unfold resolve_category.
  destruct (category_map st !! normalize_category_name _) as [k|] eqn:Ek.
  - destruct (k =? 0).
    + intros Hu. destruct (unknown_category_ok _ _ _ _ Hst Hu)
        as (H1 & H2 & H3).
      split; [exact H1|]. split; [exact H2|]. intros k' Hk. right.
      apply H3, Hk.
    + intros [= <- <-]. split; [exact Hst|]. split; [reflexivity|].
      intros k' [= <-]. left. exact Ek.
  - intros Hu. destruct (unknown_category_ok _ _ _ _ Hst Hu)
      as (H1 & H2 & H3).
    split; [exact H1|]. split; [exact H2|]. intros k' Hk. right.
    apply H3, Hk.
Qed.

(** The [try] block of the products loop: without an exception the
    invariant holds again; with one, the committed rows are in shape. *)
Lemma product_try_ok (b : Z) (old_product : OldProduct) (n : nat)
    (cid : Z) (st st1 : State) (e : option PyException) :
  state_ok st -> old_product ∈ legacy ->
  draws st = S n ->
  (category_map st
     !! normalize_category_name (op_category_name_redundant old_product)
   = Some cid
   \/ category_map st !! "Unknown" = Some cid) ->
  product_try randint b old_product
    (default (mkDecimal 0 (-2))
       (extract_price_decimal (op_price_str old_product)))
    (parse_datetime_flexible strptime (op_created_at_str old_product)
       ["%d/%m/%Y"; "%Y-%m-%d"])
    cid (sku_of (op_id old_product) (randint n 100 999)) st = (st1, e) ->
  tables_ok (category_map st1) (committed (new_db st1))
  /\ category_map st1 = category_map st
  /\ (e = None -> state_ok st1).
Proof.
  intros (HT & HC & Hp) Hold Hn Hcat. unfold product_try.
  change (new_db (with_draws ?k ?x)) with (new_db x).
  rewrite flush_one by exact Hp. cbn [insert p_sku p_category_id p_price].
  destruct (numeric_10_2 _) as [price|] eqn:Eprice.
  2:{ intros [= <- <-]. cbn [new_db with_db committed].
      split; [exact HC|]. split; [reflexivity|discriminate]. }
  match goal with
  | |- context [if ?c then Returns ?t else Raises IntegrityError] =>
      destruct c; [set (T1 := t)|]
  end.
  2:{ intros [= <- <-]. cbn [new_db with_db committed].
      split; [exact HC|]. split; [reflexivity|discriminate]. }
  assert (HT1 : tables_ok (category_map st) T1).
  { destruct HT as (Hu & Ha & Ho & Hi & Hc & Hpr).
    repeat (split; [assumption|]).
    intros p Hin. subst T1. cbn [products] in Hin.
    apply elem_of_app in Hin as [Hin|Hin]; [apply Hpr, Hin|].
    apply list_elem_of_singleton in Hin as ->. right.
    exists old_product. split; [exact Hold|].
    unfold migrated_product.
    cbn [p_name p_description p_price p_sku p_stock_quantity p_category_id
         p_created_at p_updated_at].
    repeat (split; [reflexivity|]). split; [exact Eprice|]. split.
    { exists n. rewrite Hn. split; reflexivity. }
    repeat (split; [reflexivity|]). exact Hcat. }
  match goal with
  | |- context [batch_full b ?x] => destruct (batch_full b x)
  end.
  - match goal with
    | |- context [commit (new_db ?x)] =>
        rewrite (commit_clean (new_db x)) by reflexivity
    end.
    intros [= <- <-]. split; [exact HT1|]. split; [reflexivity|].
    intros _. split; [exact HT1|]. split; [exact HT1|reflexivity].
  - intros [= <- <-]. split; [exact HC|]. split; [reflexivity|].
    intros _. split; [exact HT1|]. split; [exact HC|reflexivity].
Qed.

(** A turn of the loop over the legacy products keeps the invariant. *)
Lemma product_step_ok (b : Z) (st : State) (old_product : OldProduct) :
  state_ok st -> old_product ∈ legacy ->
  state_ok (product_step strptime randint b st old_product).
Proof.
  intros Hst Hold. unfold product_step.
  assert (Hgo : forall st0 : State,
            state_ok st0 ->
            state_ok
              match resolve_category old_product st0 with
              | (st2, None) => st2
              | (st2, Some new_category_id) =>
                  match product_try randint b old_product
                          (default (mkDecimal 0 (-2))
                             (extract_price_decimal
                                (op_price_str old_product)))
                          (parse_datetime_flexible strptime
                             (op_created_at_str old_product)
                             ["%d/%m/%Y"; "%Y-%m-%d"])
                          new_category_id
                          (sku_of (op_id old_product)
                             (randint (draws st2) 100 999))
                          (with_draws (S (draws st2)) st2) with
                  | (st3, None) => st3
                  | (st3, Some IntegrityError) =>
                      match product_with_sku
                              (sku_of (op_id old_product)
                                 (randint (draws st2) 100 999))
                              (new_db
                                 (logger ERROR
                                    "Error de integridad al migrar producto"
                                    (RefId (op_id old_product))
                                    (with_db (rollback (new_db st3)) st3)))
                      with
                      | Some existing_product =>
                          logger INFO
                            "recuperado después de error de integridad"
                            (RefId (op_id old_product))
                            (set_product (op_id old_product)
                               (op_product_name old_product)
                               (p_id existing_product)
                               (logger ERROR
                                  "Error de integridad al migrar producto"
                                  (RefId (op_id old_product))
                                  (with_db (rollback (new_db st3)) st3)))
                      | None =>
                          logger ERROR "No se pudo recuperar el producto"
                            (RefId (op_id old_product))
                            (logger ERROR
                               "Error de integridad al migrar producto"
                               (RefId (op_id old_product))
                               (with_db (rollback (new_db st3)) st3))
                      end
                  | (st3, Some _) =>
                      logger ERROR "Error general al migrar producto"
                        (RefId (op_id old_product))
                        (with_db (rollback (new_db st3)) st3)
                  end
              end).
  { intros st0 H0.
    destruct (resolve_category old_product st0) as [st2 [cid|]] eqn:Er;
      destruct (resolve_category_ok _ _ _ _ H0 Er) as (H2 & _ & Hcat);
      [|exact H2].
    destruct (product_try _ _ _ _ _ _ _ _) as [st3 e] eqn:Et.
    destruct (product_try_ok b old_product (draws st2) cid
                (with_draws (S (draws st2)) st2) st3 e H2 Hold eq_refl
                (Hcat cid eq_refl) Et) as (HC3 & Hm3 & Hok).
    destruct e as [[]|]; [| | |exact (Hok eq_refl)].
    - exact (product_rollback_ok st3 (new_db st3) HC3).
    - destruct (product_with_sku _ _);
        exact (product_rollback_ok st3 (new_db st3) HC3).
    - exact (product_rollback_ok st3 (new_db st3) HC3). }
  destruct (extract_price_decimal (op_price_str old_product)) as [p|];
    cbn [default from_option] in Hgo; apply Hgo; exact Hst.
Qed.

Lemma products_loop_ok (b : Z) (l : list OldProduct) :
  forall st : State,
  (forall o, o ∈ l -> o ∈ legacy) -> state_ok st ->
  state_ok (fold_left (product_step strptime randint b) l st).
Proof.
  induction l as [|o l IH]; intros st Hl Hst; cbn [fold_left];
    [exact Hst|].
  apply IH; [intros x Hx; apply Hl; right; exact Hx|].
  apply product_step_ok; [exact Hst|apply Hl; left].
Qed.

End Rows.

(** X20. The Products the products stage commits. Started on a settled
    session, the stage leaves users, addresses, orders and order items as
    they were, adds no category but "Unknown", and every Product it has
    committed when it returns was there before or was written for a legacy
    product it read: with the name and the description of the legacy
    product, the parsed price (0.00 when the text has none) as the column
    [Numeric(10, 2)] holds it (rounded to two decimals), a SKU made of
    the legacy key and a value of [random.randint(100, 999)], the stock
    quantity drawn by the next call, the parsed creation date, and the
    category the dictionary holds, when the stage ends, for the normalized
    category name or for "Unknown". *)
Theorem products_stage_rows
    (strptime : string -> string -> option datetime)
    (randint : nat -> Z -> Z -> Z) (batch_size : Z) (old_db : OldDb)
    (st : State) :
  settled (new_db st) ->
  let st' := migrate_products strptime randint batch_size old_db st in
  product_tables_ok strptime randint (committed (new_db st))
    (old_products old_db) (category_map st') (committed (new_db st')).
Proof.
  intros [Hp Ht] st'. subst st'. unfold migrate_products.
  set (st0 := logger INFO "Iniciando migración de productos" NoRef
                (reset_counters st)).
  set (base := committed (new_db st)).
  assert (H0 : product_state_ok strptime randint base (old_products old_db)
                 st0).
  { assert (Hbase : product_tables_ok strptime randint base
                      (old_products old_db) (category_map st0) base).
    { repeat (split; [reflexivity|]). split; intros x Hx; left; exact Hx. }
    unfold product_state_ok. change (new_db st0) with (new_db st).
    rewrite Ht, Hp. fold base. split; [exact Hbase|].
    split; [exact Hbase|reflexivity]. }
  pose proof (products_loop_ok strptime randint base (old_products old_db)
                batch_size (old_products old_db) st0 (fun o H => H) H0)
    as (HT & HC & Hpend).
  set (st1 := fold_left _ _ st0) in *.
  change (category_map (logger ?l ?m ?r ?x)) with (category_map x).
  change (new_db (logger ?l ?m ?r ?x)) with (new_db x).
  unfold commit_or_rollback. rewrite (commit_clean _ Hpend).
  cbn [new_db with_db committed]. exact HT.
Qed.

Lemma products_stage_rows_witness :
  let old_db := mkOldDb [Scenario.alice]
                  [Scenario.laptop; Scenario.mouse; Scenario.cable]
                  [] in
  let st := migrate_product_categories BATCH_SIZE old_db
              (new_process fresh_session 0) in
  let st' := migrate_products (λ _ _, None) Scenario.randint_counting
               BATCH_SIZE old_db st in
  product_tables_ok (λ _ _, None) Scenario.randint_counting
    (committed (new_db st)) (old_products old_db) (category_map st')
    (committed (new_db st')).
Proof.
  refine (products_stage_rows (λ _ _, None) Scenario.randint_counting
            BATCH_SIZE
            (mkOldDb [Scenario.alice]
               [Scenario.laptop; Scenario.mouse; Scenario.cable]
               [])
            (migrate_product_categories BATCH_SIZE
               (mkOldDb [Scenario.alice]
                  [Scenario.laptop; Scenario.mouse; Scenario.cable]
                  [])
               (new_process fresh_session 0)) _).
  split; vm_compute; reflexivity.
Defined.

End ProductRows.

(** ** The rows the users stage writes *)

Module UserRows.
Import PyStr Legacy Target Db Normalizers AddressParser Migration Invariants
  SessionShapes Provenance SessionFacts OrderFacts.

Lemma filter_rank_same (k r : nat) (p : list Object) :
  Forall (λ o, table_rank o = k) p ->
  filter (λ o, table_rank o = r) p = if decide (r = k) then p else [].
Proof.
  induction 1 as [|x p Hx Hp IH].
  - destruct (decide _); reflexivity.
  - rewrite filter_cons, IH, Hx.
    destruct (decide (r = k)) as [->|NE].
    + rewrite decide_True by reflexivity. reflexivity.
    + rewrite decide_False by congruence. reflexivity.
Qed.

Lemma flush_order_addresses (p : list Object) :
  Forall (λ o, table_rank o = 1%nat) p -> flush_order p = p.
Proof.
  intros Hp. unfold flush_order. cbn [seq flat_map].
  rewrite !(filter_rank_same _ _ p Hp). cbn. apply app_nil_r.
Qed.

Lemma flush_order_user_addresses (p : list Object) (u : User) :
  Forall (λ o, table_rank o = 1%nat) p ->
  flush_order (p ++ [OUser u]) = OUser u :: p.
Proof.
  intros Hp. unfold flush_order. cbn [seq flat_map].
  rewrite !filter_app, !(filter_rank_same _ _ p Hp). cbn.
  rewrite !app_nil_r. reflexivity.
Qed.

Lemma insert_address_rows (a : Address) (t t' : Tables) (q q' : Sequences) :
  insert (OAddress a) t q = (q', Returns t') ->
  users t' = users t /\ product_categories t' = product_categories t
  /\ products t' = products t /\ orders t' = orders t
  /\ order_items t' = order_items t
  /\ addresses t'
     = (addresses t
        ++ [mkAddress (seq_addresses q + 1) (a_user_id a) (a_street a)
              (a_city a) (a_state a) (a_zip_code a) (a_country a)
              (a_is_default_shipping a) (a_is_default_billing a)])%list
  /\ seq_users q' = seq_users q.
Proof.
  cbn [insert]. destruct (has_user t (a_user_id a));
    intros [= <- <-]; repeat split; reflexivity.
Qed.

Lemma insert_user_rows (u : User) (t t' : Tables) (q q' : Sequences) :
  insert (OUser u) t q = (q', Returns t') ->
  addresses t' = addresses t /\ product_categories t' = product_categories t
  /\ products t' = products t /\ orders t' = orders t
  /\ order_items t' = order_items t
  /\ users t'
     = (users t
        ++ [mkUser (seq_users q') (u_username u) (u_email u) (u_full_name u)
              (u_hashed_password u) (u_is_active u) (u_is_superuser u)
              (u_registration_date u) (u_phone_number u)])%list.
Proof.
  cbn [insert].
  destruct (bool_decide (is_Some (u_email u))
            && negb (bool_decide (u_username u ∈ u_username <$> users t))
            && negb (bool_decide (u_email u ∈ u_email <$> users t)));
    intros [= <- <-]; repeat split; reflexivity.
Qed.

Section Rows.
Variable strptime : string -> string -> option datetime.
Variable now : datetime.
Variable base : Tables.
Variable legacy : list OldUser.

Local Notation "'MU'" := (migrated_user strptime now).
Local Notation "'tables_ok'" := (user_tables_ok strptime now base legacy).
Local Notation "'pending_ok'" := (user_pending_ok strptime now legacy).
Local Notation "'address_ok'" := (address_of_legacy strptime now legacy).
Local Notation "'state_ok'" := (user_state_ok strptime now base legacy).

Lemma pending_ok_addresses (T : Tables) (p : list Object) :
  pending_ok T p -> Forall (λ o, table_rank o = 1%nat) p.
Proof.
  intros H. apply Forall_forall. intros obj Hin.
  destruct (H obj Hin) as (a & -> & _). reflexivity.
Qed.

Lemma user_pending_nil (T : Tables) : pending_ok T [].
Proof. intros obj Hin. inversion Hin. Qed.

Lemma address_ok_users (T T' : Tables) (a : Address) :
  (forall u, u ∈ users T -> u ∈ users T') ->
  address_ok T a -> address_ok T' a.
Proof.
  intros Hsub (old & Hold & Hma & u & Hu & Hid & Hmu).
  exists old. split; [exact Hold|]. split; [exact Hma|].
  exists u. split; [apply Hsub, Hu|]. split; assumption.
Qed.

Lemma pending_ok_users (T T' : Tables) (p : list Object) :
  (forall u, u ∈ users T -> u ∈ users T') ->
  pending_ok T p -> pending_ok T' p.
Proof.
  intros Hsub H obj Hin. destruct (H obj Hin) as (a & E & Ha).
  exists a. split; [exact E|]. exact (address_ok_users T T' a Hsub Ha).
Qed.

(** The INSERTs of pending Addresses keep the tables in shape and do not
    touch the User sequence. *)
Lemma insert_all_addresses (p : list Object) :
  forall (T T' : Tables) (q q' : Sequences),
  tables_ok T -> pending_ok T p ->
  insert_all p T q = (q', Returns T') ->
  tables_ok T' /\ users T' = users T /\ seq_users q' = seq_users q.
Proof.
  induction p as [|obj p IH]; intros T T' q q' HT Hp; cbn [insert_all].
  { intros [= <- <-]. split; [exact HT|split; reflexivity]. }
  destruct (Hp obj) as (a & -> & Ha); [left|].
  destruct (insert (OAddress a) T q) as [q1 [T1|]] eqn:Ei; [|discriminate].
  destruct (insert_address_rows _ _ _ _ _ Ei)
    as (Hu & Hc & Hpr & Ho & Hi & Had & Hq).
  intros Hall.
  assert (Hsub : forall u, u ∈ users T -> u ∈ users T1)
    by (intros u; rewrite Hu; tauto).
  assert (HT1 : tables_ok T1).
  { destruct HT as (Bc & Bp & Bo & Bi & Bu & Ba).
    split; [congruence|]. split; [congruence|]. split; [congruence|].
    split; [congruence|]. split.
    - intros u. rewrite Hu. apply Bu.
    - intros x. rewrite Had. intros Hx.
      apply elem_of_app in Hx as [Hx|Hx].
      + destruct (Ba x Hx) as [Hb|Hl]; [left; exact Hb|right].
        exact (address_ok_users T T1 x Hsub Hl).
      + apply list_elem_of_singleton in Hx as ->. right.
        destruct Ha as (old & Hold & Hma & u & Huin & Hid & Hmu).
        exists old. split; [exact Hold|]. split; [exact Hma|].
        exists u. split; [apply Hsub, Huin|]. split; assumption. }
  destruct (IH T1 T' q1 q' HT1) as (HT' & Hu' & Hq'); [|exact Hall|].
  { apply (pending_ok_users T T1); [exact Hsub|].
    intros x Hx. apply Hp. right. exact Hx. }
  split; [exact HT'|]. split; congruence.
Qed.

Lemma flush_addresses (s s' : Session) :
  tables_ok (txn s) -> pending_ok (txn s) (pending s) ->
  flush s = (s', None) -> tables_ok (txn s').
Proof.
  intros HT Hp. unfold flush.
  rewrite (flush_order_addresses _ (pending_ok_addresses _ _ Hp)).
  destruct (insert_all (pending s) (txn s) (sequences s)) as [q [T|]] eqn:E;
    [|discriminate].
  intros [= <-]. cbn [txn].
  apply (insert_all_addresses _ _ _ _ _ HT Hp E).
Qed.

(** The flush of a new User together with the Addresses waiting. *)
Lemma flush_user_and_addresses (s s' : Session) (u : User)
    (old_user : OldUser) :
  tables_ok (txn s) -> pending_ok (txn s) (pending s) ->
  old_user ∈ legacy -> MU old_user u ->
  flush (add (OUser u) s) = (s', None) ->
  tables_ok (txn s') /\ pending s' = [] /\ committed s' = committed s
  /\ exists row, row ∈ users (txn s')
                 /\ u_id row = seq_users (sequences s')
                 /\ MU old_user row.
Proof.
  intros HT Hp Hold Hmu. unfold flush, add. cbn [pending txn sequences].
  rewrite (flush_order_user_addresses _ _ (pending_ok_addresses _ _ Hp)).
  cbn [insert_all].
  destruct (insert (OUser u) (txn s) (sequences s)) as [q1 [T1|]] eqn:Ei;
    [|discriminate].
  destruct (insert_user_rows _ _ _ _ _ Ei) as (Ha & Hc & Hpr & Ho & Hi & Hu).
  destruct (insert_all (pending s) T1 q1) as [q [T|]] eqn:E; [|discriminate].
  intros [= <-]. cbn [txn pending committed sequences].
  set (row := mkUser (seq_users q1) (u_username u) (u_email u)
                (u_full_name u) (u_hashed_password u) (u_is_active u)
                (u_is_superuser u) (u_registration_date u)
                (u_phone_number u)) in *.
  assert (Hrow : MU old_user row) by exact Hmu.
  assert (Hsub : forall x, x ∈ users (txn s) -> x ∈ users T1).
  { intros x Hx. rewrite Hu. apply elem_of_app. left. exact Hx. }
  assert (HT1 : tables_ok T1).
  { destruct HT as (Bc & Bp & Bo & Bi & Bu & Ba).
    split; [congruence|]. split; [congruence|]. split; [congruence|].
    split; [congruence|]. split.
    - intros x. rewrite Hu. intros Hx. apply elem_of_app in Hx as [Hx|Hx].
      + apply Bu, Hx.
      + apply list_elem_of_singleton in Hx as ->. right.
        exists old_user. split; assumption.
    - intros x. rewrite Ha. intros Hx.
      destruct (Ba x Hx) as [Hb|Hl]; [left; exact Hb|right].
      exact (address_ok_users _ T1 x Hsub Hl). }
  destruct (insert_all_addresses _ _ _ _ _ HT1
              (pending_ok_users _ T1 _ Hsub Hp) E) as (HT' & Hu' & Hq').
  split; [exact HT'|]. split; [reflexivity|]. split; [reflexivity|].
  exists row. split.
  { rewrite Hu', Hu. apply elem_of_app. right. left. }
  split; [symmetry; exact Hq'|exact Hrow].
Qed.

Lemma commit_addresses (s s' : Session) (e : option PyException) :
  tables_ok (txn s) -> tables_ok (committed s) ->
  pending_ok (txn s) (pending s) ->
  commit s = (s', e) ->
  tables_ok (committed s')
  /\ (e = None -> txn s' = committed s' /\ pending s' = []).
Proof.
  intros HT HC Hp. unfold commit.
  destruct (flush s) as [s1 [e1|]] eqn:Ef; intros [= <- <-].
  - destruct (flush_outcome _ _ _ Ef) as [Hc _]. rewrite Hc.
    split; [exact HC|discriminate].
  - split; [exact (flush_addresses _ _ HT Hp Ef)|].
    intros _. split; reflexivity.
Qed.

Lemma rollback_users_ok (st : State) (s : Session) :
  tables_ok (committed s) -> state_ok (with_db (rollback s) st).
Proof.
  intros HC. split; [exact HC|]. split; [exact HC|apply user_pending_nil].
Qed.

(** The batch commit that ends the [try] block of the users loop. *)
Lemma user_batch_ok (b : Z) (st st1 : State) (e : option PyException) :
  state_ok st ->
  (if batch_full b st
   then match commit (new_db st) with
        | (s, None) =>
            (logger INFO "Commit de lote de usuarios/direcciones" NoRef
               (with_db s st), None)
        | (s, Some e0) => (with_db s st, Some e0)
        end
   else (st, None)) = (st1, e) ->
  tables_ok (committed (new_db st1)) /\ (e = None -> state_ok st1).
Proof.
  intros (HT & HC & Hp). destruct (batch_full b st).
  - destruct (commit (new_db st)) as [s [e0|]] eqn:Ec; intros [= <- <-];
      destruct (commit_addresses _ _ _ HT HC Hp Ec) as [HC0 Hok];
      cbn [new_db with_db logger]; (split; [exact HC0|]); [discriminate|].
    intros _. destruct (Hok eq_refl) as [Ht0 Hp0].
    unfold user_state_ok. cbn [new_db with_db logger].
    rewrite Ht0, Hp0. split; [exact HC0|]. split; [exact HC0|].
    apply user_pending_nil.
  - intros [= <- <-]. split; [exact HC|]. intros _.
    split; [exact HT|]. split; [exact HC|exact Hp].
Qed.

(** The [try] block of the users loop keeps the invariant when it ends
    without an exception, and leaves the committed rows in shape when it
    raises. *)
Lemma user_try_ok (b : Z) (old_user : OldUser) (st st1 : State)
    (e : option PyException) :
  state_ok st -> old_user ∈ legacy ->
  user_try b old_user
    (default now
       (parse_datetime_flexible strptime (ou_registration_date_str old_user)
          ["%Y-%m-%d %H:%M"; "%Y-%m-%d %H:%M:%S"; "%Y-%m-%d"])) st
  = (st1, e) ->
  tables_ok (committed (new_db st1)) /\ (e = None -> state_ok st1).
Proof.
  intros (HT & HC & Hp) Hold. unfold user_try.
  destruct (flush (add (OUser _) (new_db st))) as [s [e1|]] eqn:Ef.
  { intros [= <- <-]. destruct (flush_outcome _ _ _ Ef) as [Hc _].
    cbn [new_db with_db]. rewrite Hc. split; [exact HC|discriminate]. }
  match type of Ef with
  | flush (add (OUser ?u) _) = _ =>
      assert (Hmu : MU old_user u) by (repeat split; reflexivity)
  end.
  destruct (flush_user_and_addresses _ _ _ old_user HT Hp Hold Hmu Ef)
    as (HT' & Hp' & Hc' & row & Hrow & Hid & Hmrow).
  assert (HC' : tables_ok (committed s)) by (rewrite Hc'; exact HC).
  set (st2 := count_success 1
                (set_user (ou_id old_user) (seq_users (sequences s))
                   (with_db s st))).
  assert (H2 : state_ok st2).
  { split; [exact HT'|]. split; [exact HC'|].
    unfold st2. cbn [new_db count_success set_user with_maps with_db].
    rewrite Hp'. apply user_pending_nil. }
  destruct (ou_address_combined old_user) as [text|] eqn:Ea;
    cbn [falsy negb].
  2:{ apply user_batch_ok. exact H2. }
  destruct (is_empty text) eqn:Ee; cbn [negb].
  { apply user_batch_ok. exact H2. }
  cbn [parse_address].
  destruct (any_component (parse_address_str text)) eqn:Eany.
  2:{ apply user_batch_ok. exact H2. }
  apply user_batch_ok.
  split; [exact HT'|]. split; [exact HC'|].
  cbn [new_db count_child with_db add pending txn st2 count_success set_user
       with_maps].
  rewrite Hp'. intros obj Hin. apply list_elem_of_singleton in Hin as ->.
  eexists. split; [reflexivity|].
  exists old_user. split; [exact Hold|]. split.
  - exists text. split; [exact Ea|]. split.
    + intros ->. discriminate Ee.
    + split; [exact Eany|]. repeat split; reflexivity.
  - exists row. split; [exact Hrow|]. split; [exact Hid|exact Hmrow].
Qed.

(** A turn of the loop over the legacy users keeps the invariant. *)
Lemma user_step_ok (b : Z) (st : State) (old_user : OldUser) :
  state_ok st -> old_user ∈ legacy ->
  state_ok (user_step strptime now b st old_user).
Proof.
  intros Hst Hold. unfold user_step.
  assert (Hend : forall st0 st1 e,
            state_ok st0 ->
            user_try b old_user
              (default now
                 (parse_datetime_flexible strptime
                    (ou_registration_date_str old_user)
                    ["%Y-%m-%d %H:%M"; "%Y-%m-%d %H:%M:%S"; "%Y-%m-%d"]))
              st0 = (st1, e) ->
            state_ok
              match e with
              | None => st1
              | Some IntegrityError =>
                  match user_named (ou_username old_user)
                          (new_db
                             (logger ERROR
                                "Error de integridad al migrar usuario"
                                (RefId (ou_id old_user))
                                (with_db (rollback (new_db st1)) st1))) with
                  | Some existing_user =>
                      logger INFO "recuperado después de error de integridad"
                        (RefId (ou_id old_user))
                        (set_user (ou_id old_user) (u_id existing_user)
                           (logger ERROR
                              "Error de integridad al migrar usuario"
                              (RefId (ou_id old_user))
                              (with_db (rollback (new_db st1)) st1)))
                  | None =>
                      logger ERROR "No se pudo recuperar el usuario"
                        (RefId (ou_id old_user))
                        (logger ERROR
                           "Error de integridad al migrar usuario"
                           (RefId (ou_id old_user))
                           (with_db (rollback (new_db st1)) st1))
                  end
              | Some _ =>
                  logger ERROR "Error general al migrar usuario"
                    (RefId (ou_id old_user))
                    (with_db (rollback (new_db st1)) st1)
              end).
  { intros st0 st1 e H0 Et.
    destruct (user_try_ok _ _ _ _ _ H0 Hold Et) as (HC1 & Hok).
    destruct e as [[]|]; [| | |exact (Hok eq_refl)].
    - exact (rollback_users_ok st1 (new_db st1) HC1).
    - destruct (user_named _ _);
        exact (rollback_users_ok st1 (new_db st1) HC1).
    - exact (rollback_users_ok st1 (new_db st1) HC1). }
  destruct (parse_datetime_flexible strptime
              (ou_registration_date_str old_user) _) as [d|];
    cbn [default from_option] in Hend;
    match goal with
    | |- context [user_try ?b ?o ?d ?s] =>
        destruct (user_try b o d s) as [st1 e] eqn:Et;
        exact (Hend s st1 e Hst Et)
    end.
Qed.

Lemma users_loop_ok (b : Z) (l : list OldUser) :
  forall st : State,
  (forall o, o ∈ l -> o ∈ legacy) -> state_ok st ->
  state_ok (fold_left (user_step strptime now b) l st).
Proof.
  induction l as [|o l IH]; intros st Hl Hst; cbn [fold_left];
    [exact Hst|].
  apply IH; [intros x Hx; apply Hl; right; exact Hx|].
  apply user_step_ok; [exact Hst|apply Hl; left].
Qed.

End Rows.

(** X21. The Users and Addresses the users stage commits. Started on a
    settled session, the stage leaves categories, products, orders and order
    items as they were, and every User and Address it has committed when it
    returns was there before or was written for a legacy user it read: the
    User with the username, e-mail, full name and phone of the legacy user,
    the placeholder password, active, not superuser, and the parsed
    registration date (the clock when no format matches); the Address with
    the components [parse_address] gives for the user's non-empty combined
    address, flagged default for shipping and billing, and attached to a
    committed User written for the same legacy user. *)
Theorem users_stage_rows
    (strptime : string -> string -> option datetime) (now : datetime)
    (batch_size : Z) (old_db : OldDb) (st : State) :
  settled (new_db st) ->
  user_tables_ok strptime now (committed (new_db st)) (old_users old_db)
    (committed (new_db (migrate_users_and_addresses strptime now batch_size
                          old_db st))).
Proof.
  intros [Hp Ht]. unfold migrate_users_and_addresses.
  change (new_db (logger ?l ?m ?r ?x)) with (new_db x).
  set (st0 := logger INFO "Iniciando migración de usuarios y direcciones"
                NoRef (reset_counters st)).
  set (base := committed (new_db st)).
  assert (Hbase : user_tables_ok strptime now base (old_users old_db) base).
  { repeat (split; [reflexivity|]). split; intros x Hx; left; exact Hx. }
  assert (H0 : user_state_ok strptime now base (old_users old_db) st0).
  { unfold user_state_ok. change (new_db st0) with (new_db st).
    rewrite Ht, Hp. fold base. split; [exact Hbase|]. split; [exact Hbase|].
    intros obj Hin. inversion Hin. }
  pose proof (users_loop_ok strptime now base (old_users old_db) batch_size
                (old_users old_db) st0 (fun o H => H) H0)
    as (HT & HC & Hpend).
  set (st1 := fold_left _ _ st0) in *.
  unfold commit_or_rollback.
  destruct (commit (new_db st1)) as [s [e|]] eqn:Ec;
    destruct (commit_addresses strptime now base (old_users old_db) _ _ _
                HT HC Hpend Ec) as [HC' _];
    exact HC'.
Qed.

Lemma users_stage_rows_witness :
  let old_db := mkOldDb [Scenario.alice] [] [] in
  let st := new_process fresh_session 0 in
  user_tables_ok (λ _ _, None) 0 (committed (new_db st)) (old_users old_db)
    (committed (new_db (migrate_users_and_addresses (λ _ _, None) 0
                          BATCH_SIZE old_db st))).
Proof.
  refine (users_stage_rows (λ _ _, None) 0 BATCH_SIZE
            (mkOldDb [Scenario.alice] [] [])
            (new_process fresh_session 0) _).
  split; reflexivity.
Defined.

End UserRows.

(** ** The transformations of the pandas variant *)

Module PandasExtras.
Import PyStr PyRe Normalizers Pandas Shapes NormalizerExtras.

Lemma fillna_step (to_datetime : string -> string -> option datetime)
    (fmt : string) (rest : list string) (series : list (option string)) :
  forall acc : list (option datetime),
  zip_with (λ a x, match a with
                   | Some _ => a
                   | None => x ≫= (λ s, head (omap (to_datetime s) rest))
                   end)
    (fillna acc (to_datetime_coerce to_datetime series fmt)) series
  = zip_with (λ a x, match a with
                     | Some _ => a
                     | None =>
                         x ≫= (λ s, head (omap (to_datetime s) (fmt :: rest)))
                     end)
      acc series.
Proof.
  unfold fillna, to_datetime_coerce.
  induction series as [|x series IH]; intros [|a acc]; try reflexivity.
  cbn [fmap list_fmap zip_with]. rewrite IH. f_equal.
  destruct a as [d|]; [reflexivity|].
  destruct x as [s|]; [|reflexivity].
  cbn [mbind option_bind omap list_omap].
  destruct (to_datetime s fmt); reflexivity.
Qed.

Lemma fillna_fold (to_datetime : string -> string -> option datetime)
    (series : list (option string)) (formats : list string) :
  forall acc : list (option datetime),
  length acc = length series ->
  fold_left (λ parsed_series fmt,
               fillna parsed_series
                 (to_datetime_coerce to_datetime series fmt))
    formats acc
  = zip_with (λ a x, match a with
                     | Some _ => a
                     | None =>
                         x ≫= (λ s, head (omap (to_datetime s) formats))
                     end)
      acc series.
Proof.
  induction formats as [|fmt rest IH]; intros acc Hlen; cbn [fold_left].
  - revert series Hlen.
    induction acc as [|a acc IHa]; intros [|x series] Hlen;
      try discriminate Hlen; [reflexivity|].
    cbn [zip_with]. rewrite <- IHa by (simpl in Hlen; lia).
    f_equal. destruct a; [reflexivity|]. destruct x; reflexivity.
  - rewrite IH.
    + apply fillna_step.
    + unfold fillna, to_datetime_coerce.
      rewrite length_zip_with, length_fmap. lia.
Qed.

(** X22. [parse_date_string_pd] gives, element by element, the parse of the
    first format of the list that [pd.to_datetime] accepts for the text,
    and NaT for a missing text or a text no format accepts: a later format
    never replaces what an earlier one parsed. *)
Theorem parse_date_string_pd_first_match
    (to_datetime : string -> string -> option datetime)
    (series : list (option string)) (formats : list string) :
  parse_date_string_pd to_datetime series formats
  = (λ x, x ≫= (λ s, head (omap (to_datetime s) formats))) <$> series.
Proof.
  unfold parse_date_string_pd. rewrite fillna_fold by apply length_replicate.
  induction series as [|x series IH]; [reflexivity|].
  cbn [length replicate zip_with fmap list_fmap]. f_equal. exact IH.
Qed.

Lemma split_once_split (sep : ascii) (s : string) :
  split sep s
  = match split_once sep s with
    | None => [s]
    | Some (h, t) => h :: split sep t
    end.
Proof.
  unfold split. induction s as [|c s IH]; [reflexivity|].
  cbn [split_parts split_once].
  destruct (eqb_char c sep).
  { destruct (split_parts sep s); reflexivity. }
  destruct (split_parts sep s) as [h t].
  destruct (split_once sep s) as [[h' t']|].
  - destruct (split_parts sep t') as [h2 t2]. injection IH as -> ->.
    reflexivity.
  - injection IH as -> ->. reflexivity.
Qed.


(** X23. [parse_combined_address_pd] on a text with fewer than two commas:
    one of the two unpackings raises, and the handler returns the whole
    text, cut at 255 characters, as the street, "N/A" as the city, no
    state, "00000" as the ZIP code and "Unknown" as the country. *)
Theorem parse_combined_address_pd_fallback (address_combined : string) :
  (length (split "," address_combined) < 3)%nat ->
  parse_combined_address_pd (Some address_combined)
  = mkPartsPd (Some (slice_to 255 address_combined)) (Some "N/A") None
      (Some "00000") (Some "Unknown").
Proof.
  cbn [parse_combined_address_pd]. unfold parse_combined_address_str.
  rewrite split_once_split.
  destruct (split_once "," address_combined) as [[h t]|]; [|reflexivity].
  rewrite split_once_split.
  destruct (split_once "," t) as [[h' t']|]; [|reflexivity].
  cbn [length]. unfold split. destruct (split_parts "," t'). simpl. lia.
Qed.

Lemma parse_combined_address_pd_fallback_witness :
  parse_combined_address_pd (Some "742 Evergreen Terrace, Springfield")
  = mkPartsPd (Some (slice_to 255 "742 Evergreen Terrace, Springfield"))
      (Some "N/A") None (Some "00000") (Some "Unknown").
Proof.
  refine (parse_combined_address_pd_fallback
            "742 Evergreen Terrace, Springfield" _).
  vm_compute. lia.
Defined.



End PandasExtras.

(** ** A price the column cannot hold *)

Module PriceExtras.
Import PyStr Legacy Target Db Normalizers Migration Invariants SessionShapes
  SessionFacts.

(** X25. A product whose category is in the dictionary and whose parsed
    price does not fit the column [Numeric(10, 2)] is not written: the flush
    raises [DataError], which only the general handler catches, and the
    rollback discards with it every row flushed since the last commit. The
    dictionaries are unchanged, the product is not counted, the SKU and the
    stock quantity have been drawn, and the error is logged for the
    product. *)
Theorem product_step_price_overflow
    (strptime : string -> string -> option datetime)
    (randint : nat -> Z -> Z -> Z) (batch_size : Z) (st : State)
    (old_product : OldProduct) (cid : Z) (price : Decimal)
    (Hclean : pending (new_db st) = [])
    (Hcat : category_map st
            !! normalize_category_name (op_category_name_redundant old_product)
            = Some cid)
    (Hcid : cid <> 0)
    (Hprice : extract_price_decimal (op_price_str old_product) = Some price)
    (Hover : numeric_10_2 price = None) :
  let st' := product_step strptime randint batch_size st old_product in
  txn (new_db st') = committed (new_db st)
  /\ committed (new_db st') = committed (new_db st)
  /\ pending (new_db st') = []
  /\ maps st' = maps st
  /\ success_count st' = success_count st
  /\ draws st' = S (S (draws st))
  /\ last (log st')
     = Some (mkLog ERROR "Error general al migrar producto"
               (RefId (op_id old_product))).
Proof.
  intros st'. subst st'. unfold product_step. rewrite Hprice.
  unfold resolve_category.
  change (category_map (count_processed st)) with (category_map st).
  rewrite Hcat. apply Z.eqb_neq in Hcid. rewrite Hcid.
  unfold product_try.
  change (new_db (with_draws ?k ?x)) with (new_db x).
  change (new_db (count_processed st)) with (new_db st).
  rewrite flush_one by exact Hclean.
  cbn [insert p_price]. rewrite Hover.
  cbn [new_db with_db logger rollback txn committed pending maps
       success_count draws with_draws count_processed log].
  repeat (split; [reflexivity|]).
  apply last_snoc.
Qed.

Lemma product_step_price_overflow_witness :
  let old_product :=
    mkOldProduct 7 "Yacht" None (Some "123456789012.99 USD")
      (Some "boats") None in
  let st := migrate_product_categories BATCH_SIZE
              (mkOldDb [] [old_product] []) (new_process fresh_session 0) in
  let st' := product_step (λ _ _, None) Scenario.randint_counting BATCH_SIZE
               st old_product in
  txn (new_db st') = committed (new_db st)
  /\ committed (new_db st') = committed (new_db st)
  /\ pending (new_db st') = []
  /\ maps st' = maps st
  /\ success_count st' = success_count st
  /\ draws st' = S (S (draws st))
  /\ last (log st')
     = Some (mkLog ERROR "Error general al migrar producto"
               (RefId (op_id old_product))).
Proof.
  refine (product_step_price_overflow (λ _ _, None) Scenario.randint_counting
            BATCH_SIZE
            (migrate_product_categories BATCH_SIZE
               (mkOldDb []
                  [mkOldProduct 7 "Yacht" None (Some "123456789012.99 USD")
                     (Some "boats") None] [])
               (new_process fresh_session 0))
            (mkOldProduct 7 "Yacht" None (Some "123456789012.99 USD")
               (Some "boats") None)
            1 (mkDecimal 12345678901299 (-2)) _ _ _ _ _);
    vm_compute; try reflexivity. discriminate.
Defined.

End PriceExtras.
